(** * Agent orchestration core of modu-mcp-client

    A shallow embedding of [src/mcp-agent.ts] (the structured tool-call
    variant) and of its free-text sibling, together with the properties
    of the conversation store and of the tool-calling loop. *)

From Stdlib Require Import List ZArith NArith Lia Bool String Ascii.
Import ListNotations.
Local Open Scope Z_scope.
Set Warnings "-register-all".

(** ** JavaScript strings

    A JavaScript string is a sequence of UTF-16 code units; [.length]
    counts code units.  [js] embeds an ASCII literal. *)

Definition jsstring := list N.

Fixpoint js (s : string) : jsstring :=
  match s with
  | EmptyString => []
  | String c r => N_of_ascii c :: js r
  end.

Definition jslength (s : jsstring) : Z := Z.of_nat (List.length s).

(** ** Messages ([OpenAI.Chat.ChatCompletionMessageParam]) *)

Inductive Role := system | user | assistant | tool.

Inductive ToolCallType := tc_function | tc_custom.

Record ToolCall := {
  call_id : jsstring;
  call_type : ToolCallType;
  fn_name : jsstring;
  fn_arguments : jsstring
}.

(** [content] is [None] whenever [typeof msg.content] is not ["string"]
    (null or absent, as on an assistant turn that only requests tools). *)
Record ChatMessage := {
  role : Role;
  content : option jsstring;
  tool_calls : list ToolCall;
  tool_call_id : option jsstring
}.

Definition plainMessage (r : Role) (text : jsstring) : ChatMessage :=
  {| role := r; content := Some text; tool_calls := []; tool_call_id := None |}.

Definition toolMessage (callId text : jsstring) : ChatMessage :=
  {| role := tool; content := Some text; tool_calls := [];
     tool_call_id := Some callId |}.

(** ** Context budget *)

Definition MAX_CONTEXT_TOKENS : Z := 200000.
Definition ESTIMATED_CHARS_PER_TOKEN : Z := 4.
Definition MAX_CONTEXT_CHARS : Z := MAX_CONTEXT_TOKENS * ESTIMATED_CHARS_PER_TOKEN.
(** [MAX_CONTEXT_CHARS * 0.8] and [MAX_CONTEXT_CHARS * 0.5] are the
    doubles 640000 and 400000 exactly. *)
Definition TRIM_THRESHOLD : Z := MAX_CONTEXT_CHARS * 8 / 10.
Definition targetLength : Z := MAX_CONTEXT_CHARS * 5 / 10.

(** ** The context store: [calculateHistoryLength] and [trimHistory] *)

Definition contentLength (msg : ChatMessage) : Z :=
  match content msg with
  | Some s => jslength s
  | None => 0
  end.

Definition calculateHistoryLength (chatHistory : list ChatMessage) : Z :=
  fold_left (fun total msg => total + contentLength msg) chatHistory 0.

Definition isSystem (msg : ChatMessage) : bool :=
  match role msg with system => true | _ => false end.

Definition notSystem (msg : ChatMessage) : bool := negb (isSystem msg).

(** The backward loop of [trimHistory]: [older] lists [otherMessages]
    from index [length - 1] down to 0, [recentMessages.unshift] is a
    cons, and [break] returns what was collected so far. *)
Fixpoint collectRecent (older : list ChatMessage) (accumulatedLength : Z)
    (recentMessages : list ChatMessage) : list ChatMessage :=
  match older with
  | [] => recentMessages
  | msg :: older' =>
      let msgLength := contentLength msg in
      if accumulatedLength + msgLength >? targetLength then recentMessages
      else collectRecent older' (accumulatedLength + msgLength)
             (msg :: recentMessages)
  end.

Definition trimHistory (chatHistory : list ChatMessage) : list ChatMessage :=
  let currentLength := calculateHistoryLength chatHistory in
  if currentLength <? TRIM_THRESHOLD then chatHistory
  else
    match find isSystem chatHistory with
    | None => chatHistory
    | Some systemPrompt =>
        let otherMessages := filter notSystem chatHistory in
        systemPrompt :: collectRecent (rev otherMessages) 0 []
    end.


(** The operations that change the store between resets: [chatHistory.push]
    and [trimHistory]. *)
Inductive StoreOp :=
| Append (msg : ChatMessage)
| Trim.

Definition applyOp (chatHistory : list ChatMessage) (op : StoreOp)
  : list ChatMessage :=
  match op with
  | Append msg => chatHistory ++ [msg]
  | Trim => trimHistory chatHistory
  end.

Definition applyOps (ops : list StoreOp) (chatHistory : list ChatMessage)
  : list ChatMessage :=
  fold_left applyOp ops chatHistory.

(** The rebuilt history in the words of the specification: the system
    instruction [sys], then the longest suffix [kept] of the remaining
    messages whose accumulated length stays within the target, in their
    original order; [dropped] are the older messages, all discarded. *)
Definition rebuiltFrom (h h' : list ChatMessage) : Prop :=
  exists pre sys post dropped kept,
    h = pre ++ sys :: post /\
    isSystem sys = true /\
    pre ++ post = dropped ++ kept /\
    h' = sys :: kept /\
    calculateHistoryLength kept <= targetLength /\
    (forall dropped' older, dropped = dropped' ++ [older] ->
       calculateHistoryLength (older :: kept) > targetLength).

(** Long texts for concrete histories: [filler k] has [2 ^ k] code units. *)
Fixpoint doubled (k : nat) (s : jsstring) : jsstring :=
  match k with
  | O => s
  | S k' => doubled k' (s ++ s)
  end.

Definition filler (k : nat) : jsstring := doubled k [97%N].

Module Samples.

Definition sys0 : ChatMessage := plainMessage system (js "You are a helpful assistant.").
Definition page : ChatMessage := plainMessage user (filler 20).
Definition half : ChatMessage := plainMessage user (filler 19).
Definition ok : ChatMessage := plainMessage assistant (js "ok").
Definition eighth : ChatMessage := plainMessage user (filler 17).

(** A history over the trigger threshold with no system message. *)
Definition orphan : list ChatMessage := [page].

(** A history over the trigger threshold: 28 + 524288 + 2 + 131072. *)
Definition crowded : list ChatMessage := [sys0; half; ok; eighth].

(** A tool result as the free-text variant appends it, and a history
    over the trigger threshold that ends with it. *)
Definition result : ChatMessage :=
  plainMessage system (js "Tool execution result: done").

Definition withResult : list ChatMessage := [sys0; half; eighth; result].

End Samples.

(** ** More on strings *)

Fixpoint jsstring_eqb (a b : jsstring) : bool :=
  match a, b with
  | [], [] => true
  | x :: a', y :: b' => (x =? y)%N && jsstring_eqb a' b'
  | _, _ => false
  end.

(** An ASCII literal in which each apostrophe stands for a double quote. *)
Definition jsq (s : string) : jsstring :=
  map (fun c => if (c =? 39)%N then 34%N else c) (js s).

(** WhiteSpace and LineTerminator code units, as [String.prototype.trim]
    strips them. *)
Definition isTrimmed (c : N) : bool :=
  ((9 <=? c) && (c <=? 13) || (c =? 32) || (c =? 160) || (c =? 5760)
   || (8192 <=? c) && (c <=? 8202) || (c =? 8232) || (c =? 8233)
   || (c =? 8239) || (c =? 8287) || (c =? 12288) || (c =? 65279))%N.

Fixpoint trimStart (s : jsstring) : jsstring :=
  match s with
  | c :: r => if isTrimmed c then trimStart r else s
  | [] => []
  end.

Definition trim (s : jsstring) : jsstring :=
  rev (trimStart (rev (trimStart s))).

Fixpoint startsWith (pat s : jsstring) : bool :=
  match pat, s with
  | [], _ => true
  | p :: pat', c :: s' => (p =? c)%N && startsWith pat' s'
  | _ :: _, [] => false
  end.

(** [s.replaceAll(pat, rep)] for a non-empty [pat]: matches are taken left
    to right and do not overlap; [skip] counts the code units of the
    current match still to be passed over. *)
Fixpoint replaceFrom (pat rep : jsstring) (skip : nat) (s : jsstring) : jsstring :=
  match s with
  | [] => []
  | c :: r =>
      match skip with
      | S k => replaceFrom pat rep k r
      | O =>
          if startsWith pat s then rep ++ replaceFrom pat rep (Nat.pred (List.length pat)) r
          else c :: replaceFrom pat rep O r
      end
  end.

Definition replaceAll (pat rep s : jsstring) : jsstring := replaceFrom pat rep O s.

Fixpoint join (sep : jsstring) (parts : list jsstring) : jsstring :=
  match parts with
  | [] => []
  | [p] => p
  | p :: rest => p ++ sep ++ join sep rest
  end.

(** ** JSON values

    Every value the agent inspects comes out of [JSON.parse].  A number is
    kept as the decimal its lexeme denotes, [(-1)^negative * mantissa *
    10^exponent]; the double is its rounding. *)

Inductive json :=
| JNull
| JBool (b : bool)
| JNumber (negative : bool) (mantissa : N) (exponent : Z)
| JString (s : jsstring)
| JArray (items : list json)
| JObject (members : list (jsstring * json)).

(** Property lookup on a parsed object: a later duplicate key overrides an
    earlier one. *)
Fixpoint lookupLast (key : jsstring) (members : list (jsstring * json))
  : option json :=
  match members with
  | [] => None
  | (k, v) :: rest =>
      match lookupLast key rest with
      | Some v' => Some v'
      | None => if jsstring_eqb k key then Some v else None
      end
  end.

(** [v.key] for the property names the agent reads ([done], [message],
    [tool], [arguments], [imageUrl]), none of which a prototype defines:
    [Some None] is [undefined], [None] the TypeError of reading a property
    of [null]. *)
Definition getProperty (v : json) (key : jsstring) : option (option json) :=
  match v with
  | JNull => None
  | JObject members => Some (lookupLast key members)
  | _ => Some None
  end.

(** A decimal rounds to the double zero when it is at most [2^-1075],
    half the least subnormal. *)
Definition numberIsZero (mantissa : N) (exponent : Z) : bool :=
  (mantissa =? 0)%N
  || ((exponent <? 0) && (Z.of_N mantissa * 2 ^ 1075 <=? 10 ^ (- exponent))).

(** ToBoolean; [None] is [undefined]. *)
Definition truthy (v : option json) : bool :=
  match v with
  | None | Some JNull => false
  | Some (JBool b) => b
  | Some (JNumber _ m e) => negb (numberIsZero m e)
  | Some (JString s) => match s with [] => false | _ => true end
  | Some (JArray _) | Some (JObject _) => true
  end.

(** [v === true] *)
Definition isTrue (v : option json) : bool :=
  match v with
  | Some (JBool true) => true
  | _ => false
  end.

(** *** [JSON.parse] *)

Inductive Parse (A : Type) :=
| Parsed (a : A) (rest : jsstring)
| SyntaxErr
| OutOfFuel.
Arguments Parsed {A} a rest.
Arguments SyntaxErr {A}.
Arguments OutOfFuel {A}.

Definition isJsonSpace (c : N) : bool :=
  ((c =? 32) || (c =? 9) || (c =? 10) || (c =? 13))%N.

Fixpoint skipSpace (s : jsstring) : jsstring :=
  match s with
  | c :: r => if isJsonSpace c then skipSpace r else s
  | [] => []
  end.

Definition isDigit (c : N) : bool := ((48 <=? c) && (c <=? 57))%N.

Definition hexValue (c : N) : option N :=
  if isDigit c then Some (c - 48)%N
  else if ((97 <=? c) && (c <=? 102))%N then Some (c - 87)%N
  else if ((65 <=? c) && (c <=? 70))%N then Some (c - 55)%N
  else None.

Definition hex4 (a b c d : N) : option N :=
  match hexValue a, hexValue b, hexValue c, hexValue d with
  | Some x, Some y, Some z, Some w => Some (((x * 16 + y) * 16 + z) * 16 + w)%N
  | _, _, _, _ => None
  end.

(** The character a one-letter escape stands for. *)
Definition escapeChar (e : N) : option N :=
  if (e =? 34)%N then Some 34%N            (* quote *)
  else if (e =? 92)%N then Some 92%N       (* backslash *)
  else if (e =? 47)%N then Some 47%N       (* slash *)
  else if (e =? 98)%N then Some 8%N        (* b *)
  else if (e =? 102)%N then Some 12%N      (* f *)
  else if (e =? 110)%N then Some 10%N      (* n *)
  else if (e =? 114)%N then Some 13%N      (* r *)
  else if (e =? 116)%N then Some 9%N       (* t *)
  else None.

(** The body of a string, after its opening quote. *)
Fixpoint parseString (s : jsstring) (acc : jsstring) : Parse jsstring :=
  match s with
  | [] => SyntaxErr
  | c :: r =>
      if (c =? 34)%N then Parsed (rev acc) r
      else if (c =? 92)%N then
        match r with
        | [] => SyntaxErr
        | e :: r' =>
            if (e =? 117)%N then
              match r' with
              | h1 :: h2 :: h3 :: h4 :: r'' =>
                  match hex4 h1 h2 h3 h4 with
                  | Some u => parseString r'' (u :: acc)
                  | None => SyntaxErr
                  end
              | _ => SyntaxErr
              end
            else
              match escapeChar e with
              | Some x => parseString r' (x :: acc)
              | None => SyntaxErr
              end
        end
      else if (c <? 32)%N then SyntaxErr
      else parseString r (c :: acc)
  end.

(** A run of digits: the value accumulated onto [acc], how many digits
    were read, and what follows. *)
Fixpoint takeDigits (s : jsstring) (acc : N) (count : Z) : N * Z * jsstring :=
  match s with
  | c :: r =>
      if isDigit c then takeDigits r (10 * acc + (c - 48))%N (count + 1)
      else (acc, count, s)
  | [] => (acc, count, [])
  end.

Definition takeSign (s : jsstring) (minusOnly : bool) : bool * jsstring :=
  match s with
  | c :: r =>
      if (c =? 45)%N then (true, r)
      else if negb minusOnly && (c =? 43)%N then (false, r)
      else (false, s)
  | [] => (false, s)
  end.

Definition parseExponent (negative : bool) (m : N) (fracDigits : Z) (s : jsstring)
  : Parse json :=
  match s with
  | e :: r =>
      if ((e =? 101) || (e =? 69))%N then
        let (eneg, s1) := takeSign r false in
        let '(ev, n, s2) := takeDigits s1 0%N 0 in
        if n =? 0 then SyntaxErr
        else Parsed (JNumber negative m
                       ((if eneg then - Z.of_N ev else Z.of_N ev) - fracDigits)) s2
      else Parsed (JNumber negative m (- fracDigits)) s
  | [] => Parsed (JNumber negative m (- fracDigits)) []
  end.

Definition parseFraction (negative : bool) (int : N) (s : jsstring) : Parse json :=
  match s with
  | d :: r =>
      if (d =? 46)%N then
        let '(m, n, s1) := takeDigits r int 0 in
        if n =? 0 then SyntaxErr else parseExponent negative m n s1
      else parseExponent negative int 0 s
  | [] => parseExponent negative int 0 s
  end.

(** A number: an optional minus sign; a single zero, or a non-zero digit
    and further digits; an optional fraction of a point and digits; an
    optional exponent of [e] or [E], a sign and digits. *)
Definition parseNumber (s : jsstring) : Parse json :=
  let (negative, s1) := takeSign s true in
  match s1 with
  | c :: r =>
      if (c =? 48)%N then parseFraction negative 0%N r
      else if isDigit c then
        let '(int, _, s2) := takeDigits s1 0%N 0 in
        parseFraction negative int s2
      else SyntaxErr
  | [] => SyntaxErr
  end.

Definition parseLiteral (word : string) (v : json) (s : jsstring) : Parse json :=
  if startsWith (js word) s then Parsed v (skipn (String.length word) s)
  else SyntaxErr.

Fixpoint parseValue (fuel : nat) (s : jsstring) {struct fuel} : Parse json :=
  match fuel with
  | O => OutOfFuel
  | S fuel' =>
      match skipSpace s with
      | [] => SyntaxErr
      | c :: r =>
          if (c =? 123)%N then               (* left brace *)
            match skipSpace r with
            | c' :: r' =>
                if (c' =? 125)%N then Parsed (JObject []) r'
                else parseMembers fuel' (c' :: r') []
            | [] => SyntaxErr
            end
          else if (c =? 91)%N then           (* left bracket *)
            match skipSpace r with
            | c' :: r' =>
                if (c' =? 93)%N then Parsed (JArray []) r'
                else parseElements fuel' (c' :: r') []
            | [] => SyntaxErr
            end
          else if (c =? 34)%N then
            match parseString r [] with
            | Parsed str rest => Parsed (JString str) rest
            | SyntaxErr => SyntaxErr
            | OutOfFuel => OutOfFuel
            end
          else if (c =? 116)%N then parseLiteral "true" (JBool true) (c :: r)
          else if (c =? 102)%N then parseLiteral "false" (JBool false) (c :: r)
          else if (c =? 110)%N then parseLiteral "null" JNull (c :: r)
          else parseNumber (c :: r)
      end
  end

with parseElements (fuel : nat) (s : jsstring) (acc : list json) {struct fuel}
  : Parse json :=
  match fuel with
  | O => OutOfFuel
  | S fuel' =>
      match parseValue fuel' s with
      | Parsed v rest =>
          match skipSpace rest with
          | c :: r =>
              if (c =? 44)%N then parseElements fuel' r (v :: acc)
              else if (c =? 93)%N then Parsed (JArray (rev (v :: acc))) r
              else SyntaxErr
          | [] => SyntaxErr
          end
      | SyntaxErr => SyntaxErr
      | OutOfFuel => OutOfFuel
      end
  end

with parseMembers (fuel : nat) (s : jsstring) (acc : list (jsstring * json))
    {struct fuel} : Parse json :=
  match fuel with
  | O => OutOfFuel
  | S fuel' =>
      match skipSpace s with
      | q :: r =>
          if (q =? 34)%N then
            match parseString r [] with
            | Parsed key rest =>
                match skipSpace rest with
                | colon :: r1 =>
                    if (colon =? 58)%N then
                      match parseValue fuel' r1 with
                      | Parsed v rest1 =>
                          match skipSpace rest1 with
                          | c :: r2 =>
                              if (c =? 44)%N
                              then parseMembers fuel' r2 ((key, v) :: acc)
                              else if (c =? 125)%N
                              then Parsed (JObject (rev ((key, v) :: acc))) r2
                              else SyntaxErr
                          | [] => SyntaxErr
                          end
                      | SyntaxErr => SyntaxErr
                      | OutOfFuel => OutOfFuel
                      end
                    else SyntaxErr
                | [] => SyntaxErr
                end
            | SyntaxErr => SyntaxErr
            | OutOfFuel => OutOfFuel
            end
          else SyntaxErr
      | [] => SyntaxErr
      end
  end.

(** [JSON.parse text]; [None] is the SyntaxError it throws.  The fuel
    covers two recursive calls for every code unit of the text. *)
Definition JSON_parse (text : jsstring) : option json :=
  match parseValue (2 * List.length text + 2) text with
  | Parsed v rest =>
      match skipSpace rest with
      | [] => Some v
      | _ :: _ => None
      end
  | _ => None
  end.

(** ** The system instructions

    The texts of the two [systemPrompt] template literals, with a backtick
    standing for each double quote. *)

Definition template (s : string) : jsstring :=
  map (fun c => if (c =? 96)%N then 34%N else c) (js s).

Module Prompts.

(** [systemPrompt] of the structured variant. *)
Definition structured : jsstring := template
"
You are a helpful assistant with access to various tools through function calling.

CRITICAL RULES - Follow these strictly:
1. NEVER take screenshots unless the user explicitly asks for it. Screenshots are only for when the user specifically requests to capture the screen.
2. When searching on websites (Google, etc.), ALWAYS use the search input field and type tool. DO NOT use URL query parameters like `?q=`. Navigate to the website first, find the search box, and type into it.
3. Only use tools that are directly requested or necessary to complete the user's specific task. Do not perform additional actions that were not asked for.
4. Think step by step: What did the user ask for? What is the minimum set of tools needed to accomplish this?
5. If you need to search on a website:
   - First navigate to the website's main page
   - Then locate the search input field
   - Then type the search query into the field
   - Then submit the search (press Enter or click search button)
6. Do not assume the user wants extra features or actions beyond their request.
7. Refrain from using tools that are far from the behavior of the general user, such as 'chrome_inject_script'.
8. If you fail to click a button or link, you can try to read the hyperlink on the element and navigate to that URL instead.
9. Do not use 'newWindow: true' option in tool calls. User wants to keep all actions in the same window.
10. When you are requested to analyze or describe an image, find 'img' element with 'chrome_get_web_content' tool and use its 'src' attribute as the imageUrl argument for 'describe_image' function.

TTS-FRIENDLY OUTPUT GUIDELINES - Your responses will be converted to speech:
1. Write in natural, conversational language as if speaking directly to someone
2. NEVER use markdown formatting (no **, __, ##, - bullets, etc.)
3. NEVER use special characters like colons for labels (e.g., avoid `Result: something`)
4. NEVER use numbered or bulleted lists (1., 2., 3., -, *, etc.)
5. Instead of lists, use natural phrases like `first`, `second`, `also`, `additionally`, `and finally`
6. Avoid parentheses for additional info - instead say `which is` or `meaning that`
7. Replace technical symbols with words: 
   - Don't say `user@domain.com` - say `user at domain dot com`
   - Don't say `10%` - say `ten percent`
   - Don't say `5+3=8` - say `five plus three equals eight`
8. Keep sentences flowing naturally, as if you're having a spoken conversation
9. For recommendations, weave them naturally into your response rather than listing them
10. At the end of your response, naturally ask the user what else they would like to do or explore
".

(** [systemPrompt] of the free-text variant, before [toolDescriptions]. *)
Definition freeTextHead : jsstring := template
"
You are an assistant connected to an MCP server.
You can call the following tools by outputting a JSON object in this format:

{
  `tool`: `<tool_name>`,
  `arguments`: { ... }
}

Available tools:
".

(** [systemPrompt] of the free-text variant, after [toolDescriptions]. *)
Definition freeTextTail : jsstring := template
"

When you want to use a tool, output only the JSON object (no explanation or extra text).

IMPORTANT: You can use multiple tools in sequence to complete a task.
After each tool execution, you will see the result and can decide to:
1. Use another tool by outputting another JSON object
2. Complete the task by outputting: {`done`: true, `message`: `your final response to the user`}
3. You can call only one tool at once. Do not output any text after the first JSON object.

When you output {`done`: true, `message`: `...`}, the conversation will end and the user will see your final message.
In the final message, please ask the user what else they would like to do next with recommendations.

CRITICAL RULES - Follow these strictly:
1. NEVER take screenshots unless the user explicitly asks for it. Screenshots are only for when the user specifically requests to capture the screen.
2. When searching on websites (Google, etc.), ALWAYS use the search input field and type tool. DO NOT use URL query parameters like `?q=`. Navigate to the website first, find the search box, and type into it.
3. Only use tools that are directly requested or necessary to complete the user's specific task. Do not perform additional actions that were not asked for.
4. Think step by step: What did the user ask for? What is the minimum set of tools needed to accomplish this?
5. If you need to search on a website:
   - First navigate to the website's main page
   - Then locate the search input field
   - Then type the search query into the field
   - Then submit the search (press Enter or click search button)
6. Do not assume the user wants extra features or actions beyond their request.
7. Refrain from using tools that are far from the behavior of the general user, such as 'chrome_inject_script'.
8. If you fails to click a button or link, you can try read hyperlink on the element and navigate to that URL instead.

TTS-FRIENDLY OUTPUT GUIDELINES - Your responses will be converted to speech:
1. Write in natural, conversational language as if speaking directly to someone
2. NEVER use markdown formatting (no **, __, ##, - bullets, etc.)
3. NEVER use special characters like colons for labels (e.g., avoid `Result: something`)
4. NEVER use numbered or bulleted lists (1., 2., 3., -, *, etc.)
5. Instead of lists, use natural phrases like `first`, `second`, `also`, `additionally`, `and finally`
6. Avoid parentheses for additional info - instead say `which is` or `meaning that`
7. Replace technical symbols with words: 
   - Don't say `user@domain.com` - say `user at domain dot com`
   - Don't say `10%` - say `ten percent`
   - Don't say `5+3=8` - say `five plus three equals eight`
8. Keep sentences flowing naturally, as if you're having a spoken conversation
9. For recommendations, weave them naturally into your response rather than listing them

GOOD TTS EXAMPLE: 
`I found three interesting options for you. First, there's a Italian restaurant nearby with great reviews. Second, you might like the new sushi place that just opened. And finally, there's a cozy cafe that serves excellent pastries. What would you like to know more about?`

BAD TTS EXAMPLE:
`Here are the results:
1. **Italian Restaurant** - Great reviews (4.5/5)
2. **Sushi Place** - Newly opened
3. **Cafe** - Excellent pastries

What else would you like to do?`
".

End Prompts.

(** ** The outside world and the effects of a command *)

(** What a rejected promise carries: the text that
    [error instanceof Error ? error.message : String(error)] extracts. *)
Record ExternalError := { error_message : jsstring }.

Inductive Outcome (A : Type) :=
| Resolves (a : A)
| Rejects (e : ExternalError).
Arguments Resolves {A} a.
Arguments Rejects {A} e.

(** A tool as the provider lists it. *)
Record McpTool := {
  mcp_name : jsstring;
  mcp_description : option jsstring;
  inputSchema : option json
}.

(** [OpenAI.Chat.ChatCompletionFunctionTool]; its [type] is always
    ["function"]. *)
Record ChatCompletionTool := {
  tool_name : jsstring;
  tool_description : jsstring;
  parameters : json
}.

(** [completion.choices[0]?.message] *)
Record AssistantMessage := {
  am_content : option jsstring;
  am_tool_calls : list ToolCall
}.

Definition asChatMessage (message : AssistantMessage) : ChatMessage :=
  {| role := assistant; content := am_content message;
     tool_calls := am_tool_calls message; tool_call_id := None |}.

(** What a command does that can be observed from outside, in order. *)
Inductive Event :=
| EvConnect
| EvGetAllTools
| EvChat (messages : list ChatMessage) (tools : option (list ChatCompletionTool))
| EvCallTool (name arguments : json)
| EvVision (imageUrl : option json)
| EvPush (msg : ChatMessage)
| EvTrim.

(** Everything a command depends on that is not code of the agent.  The
    LLM and the tool provider answer as they please: the reply to a chat
    request may depend on the iteration and on what was sent, the result
    of a tool call on the iteration, on its position among the calls of
    that iteration, and on the name and arguments.  The two built-ins that
    render numbers are left to the engine, and so is the error it throws
    when a value cannot be converted to a string. *)
Record World := {
  connect : Outcome unit;
  getAllTools : Outcome (list McpTool);
  createCompletion :
    nat -> list ChatMessage -> option (list ChatCompletionTool) ->
    Outcome (option AssistantMessage);
  callTool : nat -> nat -> json -> json -> Outcome json;
  describeImage : nat -> nat -> option json -> Outcome (option jsstring);
  Number_toString : bool -> N -> Z -> jsstring;
  JSON_stringify : json -> N -> jsstring;
  conversionError : ExternalError
}.

Inductive Thrown :=
| SyntaxError
| TypeError
| Failure (e : ExternalError).

Inductive Result (A : Type) :=
| Returned (a : A)
| Threw (e : Thrown).
Arguments Returned {A} a.
Arguments Threw {A} e.

(** A computation over the module state [S]: its result, the state it
    leaves (also when it throws) and the events it produced. *)
Definition M (S A : Type) : Type := S -> Result A * S * list Event.

Definition ret {S A} (a : A) : M S A := fun st => (Returned a, st, []).

Definition throw {S A} (e : Thrown) : M S A := fun st => (Threw e, st, []).

Definition bind {S A B} (m : M S A) (k : A -> M S B) : M S B :=
  fun st =>
    match m st with
    | (Returned a, st1, ev1) =>
        match k a st1 with
        | (r, st2, ev2) => (r, st2, ev1 ++ ev2)
        end
    | (Threw e, st1, ev1) => (Threw e, st1, ev1)
    end.

Definition tryCatch {S A} (m : M S A) (handler : Thrown -> M S A) : M S A :=
  fun st =>
    match m st with
    | (Returned a, st1, ev1) => (Returned a, st1, ev1)
    | (Threw e, st1, ev1) =>
        match handler e st1 with
        | (r, st2, ev2) => (r, st2, ev1 ++ ev2)
        end
    end.

Definition emit {S} (ev : Event) : M S unit := fun st => (Returned tt, st, [ev]).

Definition gets {S A} (f : S -> A) : M S A := fun st => (Returned (f st), st, []).

Definition modify {S} (f : S -> S) : M S unit := fun st => (Returned tt, f st, []).

(** [await] of a promise of the outside world. *)
Definition await {S A} (o : Outcome A) : M S A :=
  match o with
  | Resolves a => ret a
  | Rejects e => throw (Failure e)
  end.

Definition orThrow {S A} (e : Thrown) (o : option A) : M S A :=
  match o with
  | Some a => ret a
  | None => throw e
  end.

Declare Scope agent_scope.
Delimit Scope agent_scope with agent.
Notation "x <- m ;; k" := (bind m (fun x => k))
  (at level 61, m at next level, right associativity) : agent_scope.
Notation "m ;; k" := (bind m (fun _ => k))
  (at level 61, right associativity) : agent_scope.

(** ToString of a parsed value, as a template literal applies it; [None]
    is the TypeError of an object whose own [toString] member hides the
    inherited method. *)
Fixpoint ToString (w : World) (v : json) : option jsstring :=
  match v with
  | JNull => Some (js "null")
  | JBool b => Some (js (if b then "true" else "false"))
  | JNumber neg m e => Some (Number_toString w neg m e)
  | JString s => Some s
  | JArray items =>
      (fix joinItems (l : list json) : option jsstring :=
         match l with
         | [] => Some []
         | x :: rest =>
             match match x with JNull => Some [] | _ => ToString w x end,
                   joinItems rest with
             | Some a, Some b =>
                 Some (match rest with [] => a | _ :: _ => a ++ [44%N] ++ b end)
             | _, _ => None
             end
         end) items
  | JObject members =>
      match lookupLast (js "toString") members with
      | Some _ => None
      | None => Some (js "[object Object]")
      end
  end.

(** A template literal's conversion of a member that may be absent:
    [undefined] reads as the text undefined. *)
Definition templateText (w : World) (v : option json) : option jsstring :=
  match v with
  | Some x => ToString w x
  | None => Some (js "undefined")
  end.

(** [value || fallback] on an optional string. *)
Definition orElse (value : option jsstring) (fallback : jsstring) : jsstring :=
  match value with
  | Some (c :: s) => c :: s
  | Some [] | None => fallback
  end.

Definition cannedMessage : jsstring :=
  js "Maximum iterations reached. Task may be incomplete.".

(** ** The free-text variant *)

Module FreeText.

Local Open Scope agent_scope.

Record State := {
  chatHistory : list ChatMessage;
  isInitialized : bool
}.

(** The module state when the file has been loaded. *)
Definition loaded : State := {| chatHistory := []; isInitialized := false |}.

Record Locals := {
  iteration : nat;
  taskComplete : bool;
  finalMessage : json
}.

Definition MAX_ITERATIONS : nat := 10.

(** The locals after [iteration++]. *)
Definition next (l : Locals) : Locals :=
  {| iteration := S (iteration l); taskComplete := taskComplete l;
     finalMessage := finalMessage l |}.

(** The locals of a pass that ends the task with [answer]. *)
Definition finished (l : Locals) (answer : json) : Locals :=
  {| iteration := S (iteration l); taskComplete := true; finalMessage := answer |}.

(** The state after [chatHistory.push(msg)]. *)
Definition pushed (msg : ChatMessage) (st : State) : State :=
  {| chatHistory := chatHistory st ++ [msg]; isInitialized := isInitialized st |}.

Definition push (msg : ChatMessage) : M State unit :=
  modify (pushed msg) ;;
  emit (EvPush msg).

Definition trimHistoryM : M State unit :=
  emit EvTrim ;;
  modify (fun st => {| chatHistory := trimHistory (chatHistory st);
                       isInitialized := isInitialized st |}).

Definition toolDescription (t : McpTool) : jsstring :=
  js "- " ++ mcp_name t ++ js ": "
  ++ orElse (mcp_description t) (js "No description").

Definition systemPrompt (tools : list McpTool) : jsstring :=
  Prompts.freeTextHead ++ join [10%N] (map toolDescription tools)
  ++ Prompts.freeTextTail.

Section Run.

Variable w : World.

Definition initialize : M State unit :=
  initialized <- gets isInitialized ;;
  if initialized then ret tt
  else
    emit EvConnect ;;
    await (connect w) ;;
    emit EvGetAllTools ;;
    tools <- await (getAllTools w) ;;
    push (plainMessage system (systemPrompt tools)) ;;
    modify (fun st => {| chatHistory := chatHistory st; isInitialized := true |}).

(** [completion.choices[0]?.message?.content?.trim() || ""] *)
Definition llmOutputOf (message : option AssistantMessage) : jsstring :=
  orElse (option_map trim (match message with
                           | Some m => am_content m
                           | None => None
                           end)) [].

Definition toolResultText (toolText resultString : jsstring) : jsstring :=
  js "Tool execution result:" ++ [10%N] ++ js "Tool: " ++ toolText
  ++ [10%N] ++ js "Result: " ++ resultString.

(** The body of the inner [try].  The line that logs the tool in use
    converts [parsed.tool] to a string before the call is made; the text
    of the result message is built from the same conversion. *)
Definition interpret (l : Locals) (llmOutput : jsstring) : M State Locals :=
  parsed <- orThrow SyntaxError (JSON_parse llmOutput) ;;
  done <- orThrow TypeError (getProperty parsed (js "done")) ;;
  if isTrue done then
    message <- orThrow TypeError (getProperty parsed (js "message")) ;;
    ret {| iteration := iteration l; taskComplete := true;
           finalMessage :=
             match message with
             | Some v => if truthy message then v else finalMessage l
             | None => finalMessage l
             end |}
  else
    toolName <- orThrow TypeError (getProperty parsed (js "tool")) ;;
    arguments <- orThrow TypeError (getProperty parsed (js "arguments")) ;;
    match toolName, arguments with
    | Some name, Some args =>
        if truthy toolName && truthy arguments then
          toolText <- orThrow TypeError (ToString w name) ;;
          emit (EvCallTool name args) ;;
          mcpResult <- await (callTool w (iteration l) 0 name args) ;;
          let resultString := JSON_stringify w mcpResult 2 in
          push (plainMessage system (toolResultText toolText resultString)) ;;
          trimHistoryM ;;
          ret l
        else
          ret {| iteration := iteration l; taskComplete := true;
                 finalMessage := finalMessage l |}
    | _, _ =>
        ret {| iteration := iteration l; taskComplete := true;
               finalMessage := finalMessage l |}
    end.

(** One pass through the body of the [while] loop. *)
Definition iterate (l : Locals) : M State Locals :=
  let l := next l in
  messages <- gets chatHistory ;;
  emit (EvChat messages None) ;;
  message <- await (createCompletion w (iteration l) messages None) ;;
  let llmOutput := llmOutputOf message in
  push (plainMessage assistant llmOutput) ;;
  tryCatch (interpret l llmOutput)
    (fun _ => ret {| iteration := iteration l; taskComplete := true;
                     finalMessage := JString llmOutput |}).

(** [while (!taskComplete && iteration < MAX_ITERATIONS)]; the [break]
    after [taskComplete = true] leaves the loop as the test would. *)
Fixpoint agentLoop (fuel : nat) (l : Locals) : M State Locals :=
  match fuel with
  | O => ret l
  | S fuel' =>
      if negb (taskComplete l) && (iteration l <? MAX_ITERATIONS)%nat then
        l' <- iterate l ;;
        agentLoop fuel' l'
      else ret l
  end.

Definition executeCommand (userCommand : jsstring) : M State json :=
  initialize ;;
  push (plainMessage user userCommand) ;;
  trimHistoryM ;;
  l <- agentLoop MAX_ITERATIONS
         {| iteration := 0; taskComplete := false; finalMessage := JString [] |} ;;
  if (MAX_ITERATIONS <=? iteration l)%nat && negb (taskComplete l) then
    ret (JString cannedMessage)
  else ret (finalMessage l).

End Run.

(** [clearHistory]: [chatHistory.length = 0; isInitialized = false]. *)
Definition clearHistory : M State unit :=
  modify (fun _ => {| chatHistory := []; isInitialized := false |}).

(** [getHistory]: a copy of the history. *)
Definition getHistory : M State (list ChatMessage) := gets chatHistory.

End FreeText.

(** ** The structured tool-call variant ([src/mcp-agent.ts]) *)

Module Structured.

Local Open Scope agent_scope.

Record State := {
  chatHistory : list ChatMessage;
  isInitialized : bool;
  openAITools : list ChatCompletionTool
}.

Definition customFunctions : list ChatCompletionTool :=
  [ {| tool_name := js "describe_image";
       tool_description :=
         js "Returns string, the explanation of the content of an image given its URL.";
       parameters :=
         JObject
           [ (js "type", JString (js "object"));
             (js "properties",
              JObject
                [ (js "imageUrl",
                   JObject
                     [ (js "type", JString (js "string"));
                       (js "description",
                        JString (js "The URL of the image to describe.")) ]) ]) ]
    |} ].

(** The module state when the file has been loaded:
    [openAITools.push(...customFunctions)] has run. *)
Definition loaded : State :=
  {| chatHistory := []; isInitialized := false;
     openAITools := [] ++ customFunctions |}.

Definition convertMCPToolToOpenAIFunction (mcpTool : McpTool) : ChatCompletionTool :=
  {| tool_name := mcp_name mcpTool;
     tool_description := orElse (mcp_description mcpTool) (js "No description provided");
     parameters :=
       match inputSchema mcpTool with
       | Some schema =>
           if truthy (Some schema) then schema
           else JObject [ (js "type", JString (js "object"));
                          (js "properties", JObject []) ]
       | None => JObject [ (js "type", JString (js "object"));
                           (js "properties", JObject []) ]
       end |}.

Definition isCustomFunction (functionName : jsstring) : bool :=
  existsb (fun func => jsstring_eqb (tool_name func) functionName) customFunctions.

Record Locals := {
  iteration : nat;
  finalMessage : jsstring
}.

Definition MAX_ITERATIONS : nat := 20.

(** The locals after [iteration++]. *)
Definition next (l : Locals) : Locals :=
  {| iteration := S (iteration l); finalMessage := finalMessage l |}.

(** The state after [chatHistory.push(msg)]. *)
Definition pushed (msg : ChatMessage) (st : State) : State :=
  {| chatHistory := chatHistory st ++ [msg];
     isInitialized := isInitialized st;
     openAITools := openAITools st |}.

Definition push (msg : ChatMessage) : M State unit :=
  modify (pushed msg) ;;
  emit (EvPush msg).

Definition trimHistoryM : M State unit :=
  emit EvTrim ;;
  modify (fun st => {| chatHistory := trimHistory (chatHistory st);
                       isInitialized := isInitialized st;
                       openAITools := openAITools st |}).

(** [{ error: true, message: ... }] *)
Definition errorPayload (e : ExternalError) : json :=
  JObject [ (js "error", JBool true); (js "message", JString (error_message e)) ].

Section Run.

Variable w : World.

Definition initialize : M State unit :=
  initialized <- gets isInitialized ;;
  if initialized then ret tt
  else
    emit EvConnect ;;
    await (connect w) ;;
    emit EvGetAllTools ;;
    mcpTools <- await (getAllTools w) ;;
    modify (fun st => {| chatHistory := chatHistory st;
                         isInitialized := isInitialized st;
                         openAITools := map convertMCPToolToOpenAIFunction mcpTools |}) ;;
    push (plainMessage system Prompts.structured) ;;
    modify (fun st => {| chatHistory := chatHistory st; isInitialized := true;
                         openAITools := openAITools st |}).

(** [executeCustomFunction].  Inside its [try], the line that logs the
    URL converts [imageUrl] to a string before the vision request is
    sent; a conversion that throws is stored as an error result, like a
    request that fails. *)
Definition executeCustomFunction (iteration k : nat) (functionName : jsstring)
    (functionArgs : json) (toolCallId : jsstring) : M State unit :=
  if jsstring_eqb functionName (js "describe_image") then
    imageUrl <- orThrow TypeError (getProperty functionArgs (js "imageUrl")) ;;
    match templateText w imageUrl with
    | None =>
        push (toolMessage toolCallId
                (JSON_stringify w (errorPayload (conversionError w)) 0))
    | Some _ =>
        emit (EvVision imageUrl) ;;
        match describeImage w iteration k imageUrl with
        | Resolves visionContent =>
            let description :=
              orElse visionContent (js "Could not analyze the image.") in
            let result :=
              JObject ([ (js "success", JBool true) ]
                       ++ match imageUrl with
                          | Some url => [ (js "imageUrl", url) ]
                          | None => []
                          end
                       ++ [ (js "description", JString description) ]) in
            push (toolMessage toolCallId (JSON_stringify w result 2))
        | Rejects error =>
            push (toolMessage toolCallId (JSON_stringify w (errorPayload error) 0))
        end
    end
  else ret tt.

(** The body of [for (const toolCall of message.tool_calls)]. *)
Definition runToolCall (iteration k : nat) (toolCall : ToolCall) : M State unit :=
  match call_type toolCall with
  | tc_custom => ret tt
  | tc_function =>
      let functionName := fn_name toolCall in
      functionArgs <- orThrow SyntaxError (JSON_parse (fn_arguments toolCall)) ;;
      if isCustomFunction functionName then
        executeCustomFunction iteration k functionName functionArgs (call_id toolCall)
      else
        emit (EvCallTool (JString functionName) functionArgs) ;;
        match callTool w iteration k (JString functionName) functionArgs with
        | Resolves mcpResult =>
            let resultString :=
              replaceAll (js "&quot;") [34%N]
                (replaceAll [92%N] [] (JSON_stringify w mcpResult 2)) in
            push (toolMessage (call_id toolCall) resultString)
        | Rejects error =>
            push (toolMessage (call_id toolCall)
                    (JSON_stringify w (errorPayload error) 0))
        end
  end.

Fixpoint runToolCalls (iteration k : nat) (calls : list ToolCall) : M State unit :=
  match calls with
  | [] => ret tt
  | toolCall :: rest =>
      runToolCall iteration k toolCall ;;
      runToolCalls iteration (S k) rest
  end.

(** One pass through the body of the [while] loop; the flag tells whether
    the pass ended in a [break]. *)
Definition iterate (l : Locals) : M State (bool * Locals) :=
  let l := next l in
  messages <- gets chatHistory ;;
  tools <- gets openAITools ;;
  emit (EvChat messages (Some tools)) ;;
  choice <- await (createCompletion w (iteration l) messages (Some tools)) ;;
  match choice with
  | None => ret (true, l)
  | Some message =>
      push (asChatMessage message) ;;
      match am_tool_calls message with
      | _ :: _ =>
          runToolCalls (iteration l) 0 (am_tool_calls message) ;;
          ret (false, l)
      | [] =>
          match am_content message with
          | Some (c :: s) =>
              ret (true, {| iteration := iteration l; finalMessage := c :: s |})
          | Some [] | None => ret (true, l)
          end
      end
  end.

(** [while (iteration < MAX_ITERATIONS)] *)
Fixpoint agentLoop (fuel : nat) (l : Locals) : M State Locals :=
  match fuel with
  | O => ret l
  | S fuel' =>
      if (iteration l <? MAX_ITERATIONS)%nat then
        r <- iterate l ;;
        match r with
        | (true, l') => ret l'
        | (false, l') => agentLoop fuel' l'
        end
      else ret l
  end.

Definition executeCommand (userCommand : jsstring) : M State jsstring :=
  initialize ;;
  push (plainMessage user userCommand) ;;
  trimHistoryM ;;
  l <- agentLoop MAX_ITERATIONS {| iteration := 0; finalMessage := [] |} ;;
  if (MAX_ITERATIONS <=? iteration l)%nat then
    ret (orElse (Some (finalMessage l)) cannedMessage)
  else ret (finalMessage l).

End Run.

(** [clearHistory]: [chatHistory.length = 0; isInitialized = false]; the
    advertised tools stay as they are until the next setup. *)
Definition clearHistory : M State unit :=
  modify (fun st => {| chatHistory := []; isInitialized := false;
                       openAITools := openAITools st |}).

(** [getHistory]: a copy of the history. *)
Definition getHistory : M State (list ChatMessage) := gets chatHistory.

End Structured.

(** The reply of the LLM that carries [text] and no tool call. *)
Definition assistantText (text : jsstring) : option AssistantMessage :=
  Some {| am_content := Some text; am_tool_calls := [] |}.

(** ** Reading the events of a command *)

Definition resultOf {S A} (run : Result A * S * list Event) : Result A :=
  fst (fst run).

Definition stateOf {S A} (run : Result A * S * list Event) : S :=
  snd (fst run).

Definition eventsOf {S A} (run : Result A * S * list Event) : list Event :=
  snd run.

Definition isChat (ev : Event) : bool :=
  match ev with EvChat _ _ => true | _ => false end.

Definition isTrim (ev : Event) : bool :=
  match ev with EvTrim => true | _ => false end.

(** The number of requests the loop sends to the LLM for its next reply
    (the request that [describe_image] sends to the vision model is the
    event [EvVision]). *)
Definition chatRequests (events : list Event) : nat :=
  List.length (filter isChat events).

(** The number of times the trimming check ran. *)
Definition trimChecks (events : list Event) : nat :=
  List.length (filter isTrim events).

(** The tool invocations delegated to the provider, in order. *)
Fixpoint toolCallsOf (events : list Event) : list (json * json) :=
  match events with
  | [] => []
  | EvCallTool name arguments :: rest => (name, arguments) :: toolCallsOf rest
  | _ :: rest => toolCallsOf rest
  end.

(** The messages appended to the history, in order. *)
Fixpoint pushedBy (events : list Event) : list ChatMessage :=
  match events with
  | [] => []
  | EvPush msg :: rest => msg :: pushedBy rest
  | _ :: rest => pushedBy rest
  end.

(** Whether the trimming check directly follows every appended message
    that [isResult] recognises as a tool result. *)
Fixpoint resultsChecked (isResult : ChatMessage -> bool) (events : list Event)
  : bool :=
  match events with
  | [] => true
  | EvPush msg :: rest =>
      (if isResult msg
       then match rest with EvTrim :: _ => true | _ => false end
       else true)
      && resultsChecked isResult rest
  | _ :: rest => resultsChecked isResult rest
  end.

Definition isToolMessage (msg : ChatMessage) : bool :=
  match role msg with tool => true | _ => false end.

(** A tool result as the free-text variant appends it. *)
Definition isFreeTextResult (msg : ChatMessage) : bool :=
  isSystem msg
  && match content msg with
     | Some text => startsWith (js "Tool execution result:") text
     | None => false
     end.

(** *** Properties of computations, whatever the state they start from *)

(** The trimming check never runs. *)
Definition untrimmed {S A} (m : M S A) : Prop :=
  forall st, trimChecks (eventsOf (m st)) = 0%nat.

(** The trimming check runs at most once. *)
Definition trimmedOnce {S A} (m : M S A) : Prop :=
  forall st, (trimChecks (eventsOf (m st)) <= 1)%nat.

(** Nothing is sent to the LLM. *)
Definition unasked {S A} (m : M S A) : Prop :=
  forall st, chatRequests (eventsOf (m st)) = 0%nat.

(** Every tool result appended is directly followed by the trimming
    check; the closing event stands for whatever comes next. *)
Definition checkedAfterResults {S A} (isResult : ChatMessage -> bool) (m : M S A)
  : Prop :=
  forall st, resultsChecked isResult (eventsOf (m st) ++ [EvConnect]) = true.

(** ** When setup succeeds, and rounds that ask for tools *)

Definition canSetUp (w : World) : Prop :=
  connect w = Resolves tt /\ exists tools, getAllTools w = Resolves tools.

(** Round [i] of the free-text loop answers with a tool directive and the
    provider serves it: the loop goes on to the next request. *)
Definition freeTextToolRound (w : World) (i : nat) (messages : list ChatMessage)
  : Prop :=
  exists message parsed done name args mcpResult toolText,
    createCompletion w i messages None = Resolves message /\
    JSON_parse (FreeText.llmOutputOf message) = Some parsed /\
    getProperty parsed (js "done") = Some done /\
    isTrue done = false /\
    getProperty parsed (js "tool") = Some (Some name) /\
    getProperty parsed (js "arguments") = Some (Some args) /\
    truthy (Some name) = true /\
    truthy (Some args) = true /\
    callTool w i 0 name args = Resolves mcpResult /\
    ToString w name = Some toolText.

(** A structured tool call that the loop can hand on: it is skipped, or
    its arguments parse, to an object where a local function reads them. *)
Definition callCanRun (toolCall : ToolCall) : bool :=
  match call_type toolCall with
  | tc_custom => true
  | tc_function =>
      match JSON_parse (fn_arguments toolCall) with
      | Some JNull => negb (Structured.isCustomFunction (fn_name toolCall))
      | Some _ => true
      | None => false
      end
  end.

(** Round [i] of the structured loop answers with tool calls that can all
    be handed on. *)
Definition structuredToolRound (w : World) (i : nat)
    (messages : list ChatMessage) (tools : list ChatCompletionTool) : Prop :=
  exists message,
    createCompletion w i messages (Some tools) = Resolves (Some message) /\
    am_tool_calls message <> [] /\
    forallb callCanRun (am_tool_calls message) = true.

(** ** Scripted worlds for concrete runs *)

Module Scenarios.

(** The LLM answers round [i] with the [i]-th reply of the script, the
    provider lists [tools] and serves every call with [served]. *)
Definition scripted (tools : list McpTool) (replies : list (option AssistantMessage))
    (served : Outcome json) : World :=
  {| connect := Resolves tt;
     getAllTools := Resolves tools;
     createCompletion := fun i _ _ => Resolves (nth (Nat.pred i) replies None);
     callTool := fun _ _ _ _ => served;
     describeImage := fun _ _ _ => Resolves None;
     Number_toString := fun _ _ _ => js "0";
     JSON_stringify := fun _ _ => js "{}";
     conversionError :=
       {| error_message := js "Cannot convert object to primitive value" |} |}.

Definition doneHello : jsstring := jsq "{'done': true, 'message': 'hello'}".
Definition searchX : jsstring := jsq "{'tool': 'search', 'arguments': {'q': 'x'}}".
Definition doneFound : jsstring := jsq "{'done': true, 'message': 'found it'}".

Definition sayHello : World := scripted [] [assistantText doneHello] (Resolves JNull).

Definition searchThenDone : World :=
  scripted [] [assistantText searchX; assistantText doneFound]
    (Resolves (JObject [])).

(** The provider refuses the only call. *)
Definition searchFails : World :=
  scripted [] [assistantText searchX; assistantText doneFound]
    (Rejects {| error_message := js "Tool not found: search" |}).

(** The LLM answers with the JSON text [null]. *)
Definition saysNull : World := scripted [] [assistantText (js "null")] (Resolves JNull).

(** The LLM asks for the same search in every round. *)
Definition keepsSearching : World :=
  {| connect := Resolves tt;
     getAllTools := Resolves [];
     createCompletion := fun _ _ _ => Resolves (assistantText searchX);
     callTool := fun _ _ _ _ => Resolves (JObject []);
     describeImage := fun _ _ _ => Resolves None;
     Number_toString := fun _ _ _ => js "0";
     JSON_stringify := fun _ _ => js "{}";
     conversionError :=
       {| error_message := js "Cannot convert object to primitive value" |} |}.

(** A remote tool, and a structured reply that calls it. *)
Definition navigate : McpTool :=
  {| mcp_name := js "chrome_navigate";
     mcp_description := Some (js "Navigate to a URL");
     inputSchema := None |}.

Definition callNavigate : ToolCall :=
  {| call_id := js "call_1"; call_type := tc_function;
     fn_name := js "chrome_navigate";
     fn_arguments := jsq "{'url': 'https://example.com'}" |}.

Definition asksNavigate : option AssistantMessage :=
  Some {| am_content := None; am_tool_calls := [callNavigate] |}.

Definition navigateThenDone : World :=
  scripted [navigate] [asksNavigate; assistantText (js "Done.")]
    (Resolves (JObject [])).

(** The LLM asks for the same navigation in every round. *)
Definition keepsNavigating : World :=
  {| connect := Resolves tt;
     getAllTools := Resolves [navigate];
     createCompletion := fun _ _ _ => Resolves asksNavigate;
     callTool := fun _ _ _ _ => Resolves (JObject []);
     describeImage := fun _ _ _ => Resolves None;
     Number_toString := fun _ _ _ => js "0";
     JSON_stringify := fun _ _ => js "{}";
     conversionError :=
       {| error_message := js "Cannot convert object to primitive value" |} |}.

End Scenarios.

(** ** Further readings of events and properties of computations *)

Definition isSetup (ev : Event) : bool :=
  match ev with EvConnect | EvGetAllTools => true | _ => false end.

(** The number of calls to the provider that belong to setup. *)
Definition setupSteps (events : list Event) : nat :=
  List.length (filter isSetup events).

(** The tool lists sent along with the requests to the LLM, in order. *)
Fixpoint chatTools (events : list Event) : list (option (list ChatCompletionTool)) :=
  match events with
  | [] => []
  | EvChat _ tools :: rest => tools :: chatTools rest
  | _ :: rest => chatTools rest
  end.

(** The histories sent with the requests to the LLM, in order. *)
Fixpoint chatMessages (events : list Event) : list (list ChatMessage) :=
  match events with
  | [] => []
  | EvChat messages _ :: rest => messages :: chatMessages rest
  | _ :: rest => chatMessages rest
  end.

Definition isFunctionCall (toolCall : ToolCall) : bool :=
  match call_type toolCall with tc_function => true | tc_custom => false end.

(** A history that starts with the system-role message [sys]. *)
Definition startsWithSystem (sys : ChatMessage) (h : list ChatMessage) : Prop :=
  isSystem sys = true /\ exists rest, h = sys :: rest.

(** A computation that, from a state where [inv] holds, ends (returning
    or throwing) in a state where [inv] holds, and whose events all
    satisfy [ok]. *)
Definition keepsWith {S A} (inv : S -> Prop) (ok : Event -> Prop) (m : M S A)
  : Prop :=
  forall st, inv st -> inv (stateOf (m st)) /\ Forall ok (eventsOf (m st)).

(** An event of a command that runs after setup: no call that belongs to
    setup, and every request to the LLM carries [tools]. *)
Definition afterSetup (tools : option (list ChatCompletionTool)) (ev : Event)
  : Prop :=
  isSetup ev = false /\
  match ev with
  | EvChat _ sent => sent = tools
  | _ => True
  end.

(** The free-text module once set up, with a history that satisfies
    [P]. *)
Definition freeTextSettled (P : list ChatMessage -> Prop) (st : FreeText.State)
  : Prop :=
  FreeText.isInitialized st = true /\ P (FreeText.chatHistory st).

(** The structured module once set up, with a history that satisfies [P]
    and [tools] advertised. *)
Definition structuredSettled (P : list ChatMessage -> Prop)
    (tools : list ChatCompletionTool) (st : Structured.State) : Prop :=
  Structured.isInitialized st = true /\
  P (Structured.chatHistory st) /\
  Structured.openAITools st = tools.

(** A property of histories that appending and trimming keep. *)
Definition storeInvariant (P : list ChatMessage -> Prop) : Prop :=
  (forall h msg, P h -> P (h ++ [msg])) /\
  (forall h, P h -> P (trimHistory h)).

(** A computation that only appends to the history, and exactly the
    messages it pushes. *)
Definition appendsOnly {A} (m : M Structured.State A) : Prop :=
  forall st,
    Structured.chatHistory (stateOf (m st))
    = Structured.chatHistory st ++ pushedBy (eventsOf (m st)).

(** A step of setup that the provider rejects with [x]. *)
Definition setupFailure (w : World) (x : ExternalError) : Prop :=
  connect w = Rejects x \/ getAllTools w = Rejects x.

(** A request of the free-text loop that the LLM's side rejects with
    [x]. *)
Definition chatFailure (w : World) (x : ExternalError) : Prop :=
  exists i messages, createCompletion w i messages None = Rejects x.

(** A computation that throws nothing but a rejection that comes [from]
    the outside world. *)
Definition failsUpstream {S A} (from : ExternalError -> Prop) (m : M S A) : Prop :=
  forall st e, resultOf (m st) = Threw e -> exists x, e = Failure x /\ from x.

(** A computation whose events count at most [n] under [count]. *)
Definition atMost {S A} (count : list Event -> nat) (n : nat) (m : M S A) : Prop :=
  forall st, (count (eventsOf (m st)) <= n)%nat.




(** An event that does not hand a local function to the provider: a
    delegated invocation names a tool that is not a local function. *)
Definition remoteOnly (ev : Event) : Prop :=
  match ev with
  | EvCallTool name _ =>
      exists functionName,
        name = JString functionName /\
        Structured.isCustomFunction functionName = false
  | _ => True
  end.

(** The call ids that the appended messages answer, in order. *)
Definition answeredIds (events : list Event) : list (option jsstring) :=
  map tool_call_id (pushedBy events).

(** The call ids of the function calls among [calls], in order. *)
Definition functionCallIds (calls : list ToolCall) : list (option jsstring) :=
  map (fun toolCall => Some (call_id toolCall)) (filter isFunctionCall calls).

(** The backslash code unit. *)
Definition backslash : N := 92.

(** ** Further scripted worlds *)

Module MoreScenarios.

Definition refused : ExternalError := {| error_message := js "connect ECONNREFUSED" |}.

(** The provider cannot be reached. *)
Definition unreachable : World :=
  {| connect := Rejects refused;
     getAllTools := Resolves [];
     createCompletion := fun _ _ _ => Resolves None;
     callTool := fun _ _ _ _ => Resolves JNull;
     describeImage := fun _ _ _ => Resolves None;
     Number_toString := fun _ _ _ => js "0";
     JSON_stringify := fun _ _ => js "{}";
     conversionError :=
       {| error_message := js "Cannot convert object to primitive value" |} |}.

Definition overloaded : ExternalError := {| error_message := js "429 Too Many Requests" |}.

(** Setup works, every request to the LLM fails. *)
Definition llmDown : World :=
  {| connect := Resolves tt;
     getAllTools := Resolves [];
     createCompletion := fun _ _ _ => Rejects overloaded;
     callTool := fun _ _ _ _ => Resolves JNull;
     describeImage := fun _ _ _ => Resolves None;
     Number_toString := fun _ _ _ => js "0";
     JSON_stringify := fun _ _ => js "{}";
     conversionError :=
       {| error_message := js "Cannot convert object to primitive value" |} |}.

(** The LLM answers in plain words, with blanks around them. *)
Definition chatty : World :=
  Scenarios.scripted [] [assistantText (js "  Hello there.  ")] (Resolves JNull).

(** A module state after an earlier command. *)
Definition freeTextReady : FreeText.State :=
  {| FreeText.chatHistory := [Samples.sys0; Samples.ok];
     FreeText.isInitialized := true |}.

Definition structuredReady : Structured.State :=
  {| Structured.chatHistory := [Samples.sys0; Samples.ok];
     Structured.isInitialized := true;
     Structured.openAITools := [] |}.

(** Two tool calls in one reply: a navigation and an image description. *)
Definition callDescribe : ToolCall :=
  {| call_id := js "call_2"; call_type := tc_function;
     fn_name := js "describe_image";
     fn_arguments := jsq "{'imageUrl': 'https://example.com/a.png'}" |}.

(** A tool call whose arguments are cut short. *)
Definition callBroken : ToolCall :=
  {| call_id := js "call_3"; call_type := tc_function;
     fn_name := js "chrome_navigate";
     fn_arguments := jsq "{'url': 'https://exam" |}.

Definition asksBroken : option AssistantMessage :=
  Some {| am_content := None;
          am_tool_calls := [Scenarios.callNavigate; callBroken; callDescribe] |}.

Definition brokenArguments : World :=
  Scenarios.scripted [Scenarios.navigate] [asksBroken] (Resolves (JObject [])).

(** An image description asked for an address that cannot be written as
    a string. *)
Definition callDescribeOdd : ToolCall :=
  {| call_id := js "call_4"; call_type := tc_function;
     fn_name := js "describe_image";
     fn_arguments := jsq "{'imageUrl': {'toString': 1}}" |}.

(** A tool listed with an empty description and the schema null. *)
Definition untyped : McpTool :=
  {| mcp_name := js "chrome_close";
     mcp_description := Some [];
     inputSchema := Some JNull |}.

Definition sparse : World :=
  Scenarios.scripted [Scenarios.navigate; untyped] [assistantText (js "Done.")]
    (Resolves JNull).

(** Nine searches that are served, then JSON that is neither a directive
    nor a completion. *)
Definition searchesThenStops : World :=
  Scenarios.scripted []
    (repeat (assistantText Scenarios.searchX) 9 ++ [assistantText (jsq "{'foo': 1}")])
    (Resolves (JObject [])).

(** Nineteen navigations that are served, then a call whose arguments are
    cut short. *)
Definition navigatesThenBreaks : World :=
  Scenarios.scripted [Scenarios.navigate]
    (repeat Scenarios.asksNavigate 19 ++ [asksBroken])
    (Resolves (JObject [])).

End MoreScenarios.
(** ** Properties of the context store *)

Section ContextStore.

Lemma contentLength_nonneg (m : ChatMessage) : 0 <= contentLength m.
Proof. unfold contentLength, jslength. destruct (content m); lia. Qed.

Lemma fold_total_shift (l : list ChatMessage) (a : Z) :
  fold_left (fun total msg => total + contentLength msg) l a
  = a + calculateHistoryLength l.
Proof.
  unfold calculateHistoryLength. revert a.
  induction l as [|m l IH]; intro a; simpl.
  - lia.
  - rewrite IH, (IH (contentLength m)). lia.
Qed.

Lemma total_nil : calculateHistoryLength [] = 0.
Proof. reflexivity. Qed.

Lemma total_cons (m : ChatMessage) (l : list ChatMessage) :
  calculateHistoryLength (m :: l) = contentLength m + calculateHistoryLength l.
Proof.
  unfold calculateHistoryLength at 1. simpl. now rewrite fold_total_shift.
Qed.

Lemma total_app (l1 l2 : list ChatMessage) :
  calculateHistoryLength (l1 ++ l2)
  = calculateHistoryLength l1 + calculateHistoryLength l2.
Proof.
  induction l1 as [|m l1 IH].
  - rewrite total_nil. reflexivity.
  - rewrite <- app_comm_cons, !total_cons, IH. lia.
Qed.

Lemma total_rev (l : list ChatMessage) :
  calculateHistoryLength (rev l) = calculateHistoryLength l.
Proof.
  induction l as [|m l IH]; simpl; [reflexivity|].
  rewrite total_app, !total_cons, total_nil, IH. lia.
Qed.

Lemma total_nonneg (l : list ChatMessage) : 0 <= calculateHistoryLength l.
Proof.
  induction l as [|m l IH]; [rewrite total_nil; lia|].
  rewrite total_cons. pose proof (contentLength_nonneg m). lia.
Qed.

Lemma total_filter_le (f : ChatMessage -> bool) (l : list ChatMessage) :
  calculateHistoryLength (filter f l) <= calculateHistoryLength l.
Proof.
  induction l as [|m l IH]; simpl; [lia|].
  pose proof (contentLength_nonneg m).
  destruct (f m); rewrite ?total_cons; lia.
Qed.

(** A message found by [find] and the messages kept by [filter] on the
    complementary test together weigh no more than the whole list. *)
Lemma total_find_filter (l : list ChatMessage) (sys : ChatMessage) :
  find isSystem l = Some sys ->
  contentLength sys + calculateHistoryLength (filter notSystem l)
  <= calculateHistoryLength l.
Proof.
  induction l as [|m l IH]; simpl; [discriminate|].
  unfold notSystem at 1. destruct (isSystem m) eqn:E; simpl.
  - intros [= ->]. rewrite total_cons.
    pose proof (total_filter_le notSystem l). lia.
  - intros H. rewrite !total_cons. specialize (IH H). lia.
Qed.

(** What the backward loop computes: it takes a prefix [taken] of the
    messages offered newest-first and stops either at the end or at the
    first message that would push the accumulated length over the target. *)
Lemma collectRecent_spec (older : list ChatMessage) :
  forall acc recent,
  exists taken rest,
    older = taken ++ rest /\
    collectRecent older acc recent = rev taken ++ recent /\
    (acc <= targetLength -> acc + calculateHistoryLength taken <= targetLength) /\
    (rest = [] \/
     exists m rest', rest = m :: rest' /\
       acc + calculateHistoryLength taken + contentLength m > targetLength).
Proof.
  induction older as [|msg older IH]; intros acc recent.
  - exists [], []. rewrite total_nil. repeat split; auto; lia.
  - simpl. destruct (acc + contentLength msg >? targetLength) eqn:E.
    + exists [], (msg :: older). rewrite total_nil.
      repeat split; auto; try lia.
      right. exists msg, older. split; [reflexivity|].
      apply Z.gtb_lt in E. lia.
    + destruct (IH (acc + contentLength msg) (msg :: recent))
        as (taken & rest & -> & Hres & Hle & Hstop).
      exists (msg :: taken), rest.
      assert (Hacc : acc + contentLength msg <= targetLength).
      { rewrite Z.gtb_ltb in E. apply Z.ltb_ge in E. exact E. }
      rewrite total_cons. repeat split.
      * rewrite Hres. simpl. now rewrite <- app_assoc.
      * intros _. specialize (Hle Hacc). lia.
      * destruct Hstop as [->|(m & rest' & -> & Hm)]; [now left|].
        right. exists m, rest'. split; [reflexivity|lia].
Qed.

(** Seen from the history: the kept messages are a suffix of the offered
    ones, within the target, and the next older message would not fit. *)
Lemma collectRecent_suffix (others : list ChatMessage) :
  exists dropped kept,
    others = dropped ++ kept /\
    collectRecent (rev others) 0 [] = kept /\
    calculateHistoryLength kept <= targetLength /\
    (forall dropped' older, dropped = dropped' ++ [older] ->
       calculateHistoryLength (older :: kept) > targetLength).
Proof.
  destruct (collectRecent_spec (rev others) 0 [])
    as (taken & rest & Hsplit & Hres & Hle & Hstop).
  exists (rev rest), (rev taken).
  assert (Htarget : 0 <= targetLength) by (vm_compute; discriminate).
  repeat split.
  - rewrite <- rev_app_distr, <- Hsplit. now rewrite rev_involutive.
  - now rewrite Hres, app_nil_r.
  - rewrite total_rev. specialize (Hle Htarget). lia.
  - intros dropped' older Hd.
    destruct Hstop as [->|(m & rest' & -> & Hm)].
    + destruct dropped'; discriminate.
    + simpl in Hd. apply app_inj_tail in Hd as [_ ->].
      rewrite total_cons, total_rev. lia.
Qed.

Lemma collectRecent_all (l : list ChatMessage) :
  calculateHistoryLength l <= targetLength ->
  collectRecent (rev l) 0 [] = l.
Proof.
  intros Hfit.
  destruct (collectRecent_suffix l) as (dropped & kept & Hsplit & Hres & _ & Hstop).
  rewrite Hres.
  destruct (rev dropped) as [|older d'] eqn:E.
  - apply (f_equal (@rev _)) in E. rewrite rev_involutive in E. simpl in E.
    subst dropped. now rewrite Hsplit.
  - apply (f_equal (@rev _)) in E. rewrite rev_involutive in E. simpl in E.
    specialize (Hstop _ _ E).
    rewrite Hsplit, E, total_app, total_app in Hfit.
    rewrite !total_cons in *. rewrite total_nil in Hfit.
    pose proof (total_nonneg (rev d')). lia.
Qed.

Lemma filter_notSystem_id (l : list ChatMessage) :
  Forall (fun m => isSystem m = false) l -> filter notSystem l = l.
Proof.
  induction 1 as [|m l Hm _ IH]; simpl; [reflexivity|].
  unfold notSystem at 1. now rewrite Hm, IH.
Qed.

Lemma filter_notSystem_Forall (l : list ChatMessage) :
  Forall (fun m => isSystem m = false) (filter notSystem l).
Proof.
  apply Forall_forall. intros m Hin. apply filter_In in Hin as [_ H].
  unfold notSystem in H. now apply negb_true_iff in H.
Qed.

Lemma find_isSystem_none (l : list ChatMessage) :
  Forall (fun m => isSystem m = false) l -> find isSystem l = None.
Proof.
  induction 1 as [|m l Hm _ IH]; simpl; [reflexivity|]. now rewrite Hm.
Qed.

Lemma find_isSystem_first (pre post : list ChatMessage) (sys : ChatMessage) :
  Forall (fun m => isSystem m = false) pre -> isSystem sys = true ->
  find isSystem (pre ++ sys :: post) = Some sys.
Proof.
  induction 1 as [|m l Hm _ IH]; simpl; intros Hs.
  - now rewrite Hs.
  - rewrite Hm. auto.
Qed.

(** The two outcomes of [trimHistory]: the history is left alone, or it
    is rebuilt from the first system message and a suffix of the others. *)
Lemma trimHistory_cases (h : list ChatMessage) :
  trimHistory h = h \/
  exists sys dropped kept,
    TRIM_THRESHOLD <= calculateHistoryLength h /\
    find isSystem h = Some sys /\
    filter notSystem h = dropped ++ kept /\
    trimHistory h = sys :: kept /\
    calculateHistoryLength kept <= targetLength /\
    (forall dropped' older, dropped = dropped' ++ [older] ->
       calculateHistoryLength (older :: kept) > targetLength).
Proof.
  unfold trimHistory.
  destruct (calculateHistoryLength h <? TRIM_THRESHOLD) eqn:E; [now left|].
  destruct (find isSystem h) as [sys|] eqn:F; [|now left].
  right.
  destruct (collectRecent_suffix (filter notSystem h))
    as (dropped & kept & Hsplit & Hres & Hle & Hstop).
  exists sys, dropped, kept. apply Z.ltb_ge in E. cbv zeta. rewrite Hres. auto 10.
Qed.

End ContextStore.

(** ** Trimming: shape, idempotence, size, system instruction *)

Lemma trimHistory_below (h : list ChatMessage) :
  calculateHistoryLength h < TRIM_THRESHOLD -> trimHistory h = h.
Proof.
  intros H. unfold trimHistory. apply Z.ltb_lt in H. now rewrite H.
Qed.

Lemma trimHistory_no_system (h : list ChatMessage) :
  find isSystem h = None -> trimHistory h = h.
Proof.
  intros H. unfold trimHistory. rewrite H.
  now destruct (calculateHistoryLength h <? TRIM_THRESHOLD).
Qed.

Lemma doubled_length (k : nat) (s : jsstring) :
  jslength (doubled k s) = 2 ^ Z.of_nat k * jslength s.
Proof.
  unfold jslength. revert s. induction k as [|k IH]; intro s.
  - simpl doubled. change (Z.of_nat 0) with 0. lia.
  - simpl doubled. rewrite IH, length_app, Nat2Z.inj_add.
    rewrite Nat2Z.inj_succ, Z.pow_succ_r by lia. lia.
Qed.

Lemma filler_length (k : nat) : jslength (filler k) = 2 ^ Z.of_nat k.
Proof.
  unfold filler. rewrite doubled_length.
  change (jslength [97%N]) with 1. lia.
Qed.

Lemma contentLength_plain (r : Role) (s : jsstring) :
  contentLength (plainMessage r s) = jslength s.
Proof. reflexivity. Qed.

Lemma orphan_total : calculateHistoryLength Samples.orphan = 1048576.
Proof.
  unfold Samples.orphan, Samples.page.
  rewrite total_cons, total_nil, contentLength_plain, filler_length.
  reflexivity.
Qed.

Lemma crowded_total : calculateHistoryLength Samples.crowded = 655390.
Proof.
  unfold Samples.crowded, Samples.half, Samples.eighth, Samples.ok, Samples.sys0.
  rewrite !total_cons, total_nil, !contentLength_plain, !filler_length.
  reflexivity.
Qed.

(** C3, as the specification words it, fails on a history that has no
    system message: above the trigger threshold such a history is left as
    it is, so it is not rebuilt around a system instruction. *)
Lemma trimHistory_orphan_not_rebuilt :
  TRIM_THRESHOLD <= calculateHistoryLength Samples.orphan /\
  trimHistory Samples.orphan = Samples.orphan /\
  ~ rebuiltFrom Samples.orphan (trimHistory Samples.orphan).
Proof.
  assert (Hsame : trimHistory Samples.orphan = Samples.orphan)
    by (apply trimHistory_no_system; reflexivity).
  split; [rewrite orphan_total; vm_compute; discriminate|].
  split; [exact Hsame|].
  rewrite Hsame.
  intros (pre & sys & post & dropped & kept & Hh & Hsys & _ & Hh' & _).
  unfold Samples.orphan in Hh'. injection Hh' as Hs _. subst sys.
  discriminate Hsys.
Qed.

(** C3 (amended): a history at or above the trigger threshold whose only
    system-role message is the system instruction is rebuilt as that
    instruction followed by the longest most-recent run of the other
    messages that fits the target, in the original order; a history below
    the threshold, or one without a system message, is left as it is. *)
Theorem trimHistory_rebuilds (h : list ChatMessage) :
  (calculateHistoryLength h < TRIM_THRESHOLD -> trimHistory h = h) /\
  (find isSystem h = None -> trimHistory h = h) /\
  (forall pre sys post,
     TRIM_THRESHOLD <= calculateHistoryLength h ->
     h = pre ++ sys :: post ->
     isSystem sys = true ->
     Forall (fun m => isSystem m = false) (pre ++ post) ->
     exists dropped kept,
       pre ++ post = dropped ++ kept /\
       trimHistory h = sys :: kept /\
       calculateHistoryLength kept <= targetLength /\
       (forall dropped' older, dropped = dropped' ++ [older] ->
          calculateHistoryLength (older :: kept) > targetLength) /\
       rebuiltFrom h (trimHistory h)).
Proof.
  split; [apply trimHistory_below|].
  split; [apply trimHistory_no_system|].
  intros pre sys post Hbig -> Hsys Hothers.
  apply Forall_app in Hothers as [Hpre Hpost].
  assert (Hfind : find isSystem (pre ++ sys :: post) = Some sys)
    by now apply find_isSystem_first.
  assert (Hfilter : filter notSystem (pre ++ sys :: post) = pre ++ post).
  { rewrite filter_app. simpl. unfold notSystem at 2. rewrite Hsys. simpl.
    now rewrite !filter_notSystem_id. }
  destruct (collectRecent_suffix (pre ++ post))
    as (dropped & kept & Hsplit & Hres & Hle & Hstop).
  assert (Htrim : trimHistory (pre ++ sys :: post) = sys :: kept).
  { unfold trimHistory. apply Z.ltb_ge in Hbig. rewrite Hbig, Hfind.
    cbv zeta. now rewrite Hfilter, Hres. }
  exists dropped, kept. repeat split; auto.
  exists pre, sys, post, dropped, kept. repeat split; auto.
Qed.

Lemma trimHistory_rebuilds_crowded :
  TRIM_THRESHOLD <= calculateHistoryLength Samples.crowded /\
  exists dropped kept,
    [Samples.half; Samples.ok; Samples.eighth] = dropped ++ kept /\
    trimHistory Samples.crowded = Samples.sys0 :: kept /\
    calculateHistoryLength kept <= targetLength /\
    (forall dropped' older, dropped = dropped' ++ [older] ->
       calculateHistoryLength (older :: kept) > targetLength) /\
    rebuiltFrom Samples.crowded (trimHistory Samples.crowded).
Proof.
  assert (Hbig : TRIM_THRESHOLD <= calculateHistoryLength Samples.crowded)
    by (rewrite crowded_total; vm_compute; discriminate).
  split; [exact Hbig|].
  apply (proj2 (proj2 (trimHistory_rebuilds Samples.crowded))
           [] Samples.sys0 [Samples.half; Samples.ok; Samples.eighth]).
  - exact Hbig.
  - reflexivity.
  - reflexivity.
  - repeat constructor.
Defined.

(** A history of the free-text variant, where tool results carry the
    system role: the rebuilt history loses every one of them, the most
    recent included, although it would fit the target. *)
Lemma trimHistory_drops_system_role_results :
  TRIM_THRESHOLD <= calculateHistoryLength Samples.withResult /\
  trimHistory Samples.withResult = [Samples.sys0; Samples.eighth] /\
  calculateHistoryLength [Samples.eighth; Samples.result] <= targetLength.
Proof.
  assert (Htotal : calculateHistoryLength Samples.withResult = 655415).
  { unfold Samples.withResult, Samples.half, Samples.eighth, Samples.result,
      Samples.sys0.
    rewrite !total_cons, total_nil, !contentLength_plain, !filler_length.
    reflexivity. }
  split; [rewrite Htotal; vm_compute; discriminate|]. split.
  - unfold trimHistory. rewrite Htotal.
    change (655415 <? TRIM_THRESHOLD) with false. cbv iota.
    change (find isSystem Samples.withResult) with (Some Samples.sys0).
    cbv iota zeta.
    change (filter notSystem Samples.withResult)
      with [Samples.half; Samples.eighth].
    change (rev [Samples.half; Samples.eighth])
      with [Samples.eighth; Samples.half].
    cbn [collectRecent].
    unfold Samples.eighth at 1, Samples.half at 1.
    rewrite !contentLength_plain, !filler_length.
    reflexivity.
  - unfold Samples.eighth, Samples.result.
    rewrite !total_cons, total_nil, !contentLength_plain, !filler_length.
    vm_compute. discriminate.
Qed.

(** C6: trimming twice gives what trimming once gives. *)
Theorem trimHistory_idempotent (h : list ChatMessage) :
  trimHistory (trimHistory h) = trimHistory h.
Proof.
  destruct (trimHistory_cases h)
    as [Hsame|(sys & dropped & kept & _ & Hfind & Hsplit & Htrim & Hle & _)].
  - now rewrite Hsame.
  - rewrite Htrim.
    assert (Hsys : isSystem sys = true)
      by (apply find_some in Hfind; tauto).
    assert (Hkept : Forall (fun m => isSystem m = false) kept).
    { pose proof (filter_notSystem_Forall h) as HF.
      rewrite Hsplit in HF. now apply Forall_app in HF. }
    unfold trimHistory.
    destruct (calculateHistoryLength (sys :: kept) <? TRIM_THRESHOLD);
      [reflexivity|].
    simpl find. rewrite Hsys. cbv zeta.
    simpl filter. unfold notSystem at 1. rewrite Hsys. simpl negb. cbv iota.
    rewrite filter_notSystem_id by exact Hkept.
    now rewrite collectRecent_all.
Qed.

(** C7: trimming never makes the history longer, and never makes it
    shorter than its system instruction. *)
Theorem trimHistory_size (h : list ChatMessage) :
  calculateHistoryLength (trimHistory h) <= calculateHistoryLength h /\
  (forall sys, find isSystem h = Some sys ->
     contentLength sys <= calculateHistoryLength (trimHistory h)).
Proof.
  destruct (trimHistory_cases h)
    as [Hsame|(sys & dropped & kept & _ & Hfind & Hsplit & Htrim & _)].
  - rewrite Hsame. split; [lia|].
    intros sys Hfind. pose proof (total_find_filter h sys Hfind).
    pose proof (total_nonneg (filter notSystem h)). lia.
  - rewrite Htrim, total_cons.
    pose proof (total_find_filter h sys Hfind) as Hsum.
    rewrite Hsplit, total_app in Hsum.
    pose proof (total_nonneg dropped). pose proof (total_nonneg kept).
    split; [lia|].
    intros sys' Hfind'. rewrite Hfind in Hfind'. injection Hfind' as <-. lia.
Qed.

Lemma trimHistory_size_crowded :
  calculateHistoryLength (trimHistory Samples.crowded)
    <= calculateHistoryLength Samples.crowded /\
  contentLength Samples.sys0 <= calculateHistoryLength (trimHistory Samples.crowded).
Proof.
  split.
  - apply (proj1 (trimHistory_size Samples.crowded)).
  - apply (proj2 (trimHistory_size Samples.crowded)). reflexivity.
Defined.

Lemma applyOp_head (sys : ChatMessage) (rest : list ChatMessage) (op : StoreOp) :
  isSystem sys = true ->
  exists rest', applyOp (sys :: rest) op = sys :: rest'.
Proof.
  intros Hsys. destruct op as [msg|]; simpl.
  - now exists (rest ++ [msg]).
  - destruct (trimHistory_cases (sys :: rest))
      as [Hsame|(s & dropped & kept & _ & Hfind & _ & Htrim & _)].
    + rewrite Hsame. now exists rest.
    + simpl in Hfind. rewrite Hsys in Hfind. injection Hfind as <-.
      rewrite Htrim. now exists kept.
Qed.

(** C5: whatever appends and trims follow, the system instruction that
    was at index 0 is still the message at index 0. *)
Theorem system_prompt_stays_first (sys : ChatMessage) (rest : list ChatMessage)
    (ops : list StoreOp) :
  isSystem sys = true ->
  nth_error (applyOps ops (sys :: rest)) 0 = Some sys.
Proof.
  intros Hsys. revert rest.
  induction ops as [|op ops IH]; intro rest; [reflexivity|].
  unfold applyOps. simpl fold_left.
  destruct (applyOp_head sys rest op Hsys) as [rest' ->].
  apply IH.
Qed.

Lemma system_prompt_stays_first_crowded :
  nth_error
    (applyOps [Append Samples.ok; Trim; Append Samples.page; Trim]
       (Samples.sys0 :: [Samples.half; Samples.ok; Samples.eighth])) 0
  = Some Samples.sys0.
Proof.
  apply (system_prompt_stays_first Samples.sys0). reflexivity.
Defined.

(** ** [JSON.parse]: the fuel is enough

    [JSON_parse] answers [None] only for a text that has a syntax error. *)

Section ParserFuel.

Lemma skipSpace_length (s : jsstring) :
  (List.length (skipSpace s) <= List.length s)%nat.
Proof.
  induction s as [|c r IH]; simpl; [lia|].
  destruct (isJsonSpace c); simpl; lia.
Qed.

Lemma skipSpace_cons (s r : jsstring) (c : N) :
  skipSpace s = c :: r -> (List.length r < List.length s)%nat.
Proof.
  intros H. pose proof (skipSpace_length s) as Hl. rewrite H in Hl.
  simpl in Hl. lia.
Qed.

Lemma parseString_shorter (n : nat) :
  forall s acc v r,
    (List.length s <= n)%nat ->
    parseString s acc = Parsed v r -> (List.length r < List.length s)%nat.
Proof.
  induction n as [|n IH]; intros s acc v r Hn.
  - destruct s; [discriminate|simpl in Hn; lia].
  - destruct s as [|c s1]; [discriminate|]. simpl in Hn. simpl parseString.
    destruct (c =? 34)%N.
    + intros [= _ <-]. simpl. lia.
    + destruct (c =? 92)%N.
      * destruct s1 as [|e s2]; [discriminate|].
        destruct (e =? 117)%N.
        -- destruct s2 as [|h1 [|h2 [|h3 [|h4 s3]]]]; try discriminate.
           destruct (hex4 h1 h2 h3 h4); [|discriminate].
           intros H. apply IH in H; simpl in *; lia.
        -- destruct (escapeChar e); [|discriminate].
           intros H. apply IH in H; simpl in *; lia.
      * destruct (c <? 32)%N; [discriminate|].
        intros H. apply IH in H; simpl in *; lia.
Qed.

Lemma parseString_fuel (n : nat) :
  forall s acc, (List.length s <= n)%nat -> parseString s acc <> OutOfFuel.
Proof.
  induction n as [|n IH]; intros s acc Hn.
  - destruct s; [discriminate|simpl in Hn; lia].
  - destruct s as [|c s1]; [discriminate|]. simpl in Hn. simpl parseString.
    destruct (c =? 34)%N; [discriminate|].
    destruct (c =? 92)%N.
    + destruct s1 as [|e s2]; [discriminate|].
      destruct (e =? 117)%N.
      * destruct s2 as [|h1 [|h2 [|h3 [|h4 s3]]]]; try discriminate.
        destruct (hex4 h1 h2 h3 h4); [|discriminate].
        apply IH. simpl in *. lia.
      * destruct (escapeChar e); [|discriminate]. apply IH. simpl in *. lia.
    + destruct (c <? 32)%N; [discriminate|]. apply IH. lia.
Qed.

Lemma takeDigits_length (s : jsstring) :
  forall acc count,
    (List.length (snd (takeDigits s acc count)) <= List.length s)%nat.
Proof.
  induction s as [|c r IH]; intros acc count; cbn [takeDigits]; [simpl; lia|].
  destruct (isDigit c); [|simpl; lia].
  etransitivity; [apply IH|simpl; lia].
Qed.

Lemma takeSign_length (s : jsstring) (minusOnly : bool) :
  (List.length (snd (takeSign s minusOnly)) <= List.length s)%nat.
Proof.
  destruct s as [|c r]; simpl; [lia|].
  destruct (c =? 45)%N; simpl; [lia|].
  destruct (negb minusOnly && (c =? 43)%N); simpl; lia.
Qed.

Lemma parseExponent_spec (negative : bool) (m : N) (fracDigits : Z) (s : jsstring) :
  parseExponent negative m fracDigits s <> OutOfFuel /\
  forall v r, parseExponent negative m fracDigits s = Parsed v r ->
              (List.length r <= List.length s)%nat.
Proof.
  unfold parseExponent. destruct s as [|e r0]; [split; [discriminate|]|].
  - intros v r [= _ <-]. lia.
  - destruct ((e =? 101) || (e =? 69))%N.
    + pose proof (takeSign_length r0 false) as Hs.
      destruct (takeSign r0 false) as [eneg s1]. simpl in Hs.
      pose proof (takeDigits_length s1 0%N 0) as Hd.
      destruct (takeDigits s1 0%N 0) as [[ev n] s2]. simpl in Hd.
      destruct (n =? 0); split; try discriminate.
      intros v r [= _ <-]. simpl. lia.
    + split; [discriminate|]. intros v r [= _ <-]. lia.
Qed.

Lemma parseFraction_spec (negative : bool) (int : N) (s : jsstring) :
  parseFraction negative int s <> OutOfFuel /\
  forall v r, parseFraction negative int s = Parsed v r ->
              (List.length r <= List.length s)%nat.
Proof.
  unfold parseFraction. destruct s as [|d r0].
  - apply parseExponent_spec.
  - destruct (d =? 46)%N; [|apply parseExponent_spec].
    pose proof (takeDigits_length r0 int 0) as Hd.
    destruct (takeDigits r0 int 0) as [[m n] s1]. simpl in Hd.
    destruct (n =? 0); [split; discriminate|].
    destruct (parseExponent_spec negative m n s1) as [Hf Hl].
    split; [exact Hf|]. intros v r H. apply Hl in H. simpl. lia.
Qed.

Lemma parseNumber_spec (s : jsstring) :
  parseNumber s <> OutOfFuel /\
  forall v r, parseNumber s = Parsed v r -> (List.length r < List.length s)%nat.
Proof.
  unfold parseNumber.
  pose proof (takeSign_length s true) as Hs.
  destruct (takeSign s true) as [negative s1]. simpl in Hs.
  destruct s1 as [|c r0]; [split; discriminate|]. simpl in Hs.
  destruct (c =? 48)%N.
  - destruct (parseFraction_spec negative 0%N r0) as [Hf Hl].
    split; [exact Hf|]. intros v r H. apply Hl in H. lia.
  - destruct (isDigit c) eqn:Hc; [|split; discriminate].
    simpl takeDigits. rewrite Hc.
    pose proof (takeDigits_length r0 (10 * 0 + (c - 48))%N (0 + 1)) as Hd.
    destruct (takeDigits r0 _ _) as [[int n] s2]. simpl in Hd.
    destruct (parseFraction_spec negative int s2) as [Hf Hl].
    split; [exact Hf|]. intros v r H. apply Hl in H. lia.
Qed.

Lemma parseLiteral_spec (word : string) (v : json) (c : N) (s : jsstring) :
  (0 < String.length word)%nat ->
  parseLiteral word v (c :: s) <> OutOfFuel /\
  forall v' r, parseLiteral word v (c :: s) = Parsed v' r ->
               (List.length r < List.length (c :: s))%nat.
Proof.
  intros Hw. unfold parseLiteral.
  destruct (startsWith (js word) (c :: s)); [|split; discriminate].
  split; [discriminate|]. intros v' r [= _ <-].
  rewrite length_skipn. change (List.length (c :: s)) with (S (List.length s)).
  lia.
Qed.

(** What is parsed is taken from the front of the text. *)
Lemma parse_shorter (fuel : nat) :
  (forall s v r, parseValue fuel s = Parsed v r ->
                 (List.length r < List.length s)%nat) /\
  (forall s acc v r, parseElements fuel s acc = Parsed v r ->
                     (List.length r < List.length s)%nat) /\
  (forall s acc v r, parseMembers fuel s acc = Parsed v r ->
                     (List.length r < List.length s)%nat).
Proof.
  induction fuel as [|fuel (IHv & IHe & IHm)];
    [repeat split; intros; discriminate|].
  split; [|split].
  - intros s v r. simpl.
    destruct (skipSpace s) as [|c r0] eqn:Hs; [discriminate|].
    apply skipSpace_cons in Hs.
    destruct (c =? 123)%N.
    { destruct (skipSpace r0) as [|c' r'] eqn:Hs'; [discriminate|].
      apply skipSpace_cons in Hs'.
      destruct (c' =? 125)%N.
      - intros [= _ <-]. lia.
      - intros H. apply IHm in H. simpl in H. lia. }
    destruct (c =? 91)%N.
    { destruct (skipSpace r0) as [|c' r'] eqn:Hs'; [discriminate|].
      apply skipSpace_cons in Hs'.
      destruct (c' =? 93)%N.
      - intros [= _ <-]. lia.
      - intros H. apply IHe in H. simpl in H. lia. }
    destruct (c =? 34)%N.
    { destruct (parseString r0 []) as [str rest| |] eqn:Hstr; try discriminate.
      apply (parseString_shorter _ _ _ _ _ (le_n _)) in Hstr.
      intros [= _ <-]. lia. }
    destruct (c =? 116)%N.
    { intros H. apply (proj2 (parseLiteral_spec "true" _ c r0 ltac:(simpl; lia))) in H.
      simpl in H. lia. }
    destruct (c =? 102)%N.
    { intros H. apply (proj2 (parseLiteral_spec "false" _ c r0 ltac:(simpl; lia))) in H.
      simpl in H. lia. }
    destruct (c =? 110)%N.
    { intros H. apply (proj2 (parseLiteral_spec "null" _ c r0 ltac:(simpl; lia))) in H.
      simpl in H. lia. }
    intros H. apply (proj2 (parseNumber_spec (c :: r0))) in H. simpl in H. lia.
  - intros s acc v r. simpl.
    destruct (parseValue fuel s) as [v0 rest| |] eqn:Hv; try discriminate.
    apply IHv in Hv.
    destruct (skipSpace rest) as [|c r0] eqn:Hs; [discriminate|].
    apply skipSpace_cons in Hs.
    destruct (c =? 44)%N.
    + intros H. apply IHe in H. lia.
    + destruct (c =? 93)%N; [|discriminate]. intros [= _ <-]. lia.
  - intros s acc v r. simpl.
    destruct (skipSpace s) as [|q r0] eqn:Hs; [discriminate|].
    apply skipSpace_cons in Hs.
    destruct (q =? 34)%N; [|discriminate].
    destruct (parseString r0 []) as [key rest| |] eqn:Hstr; try discriminate.
    apply (parseString_shorter _ _ _ _ _ (le_n _)) in Hstr.
    destruct (skipSpace rest) as [|colon r1] eqn:Hs1; [discriminate|].
    apply skipSpace_cons in Hs1.
    destruct (colon =? 58)%N; [|discriminate].
    destruct (parseValue fuel r1) as [v0 rest1| |] eqn:Hv; try discriminate.
    apply IHv in Hv.
    destruct (skipSpace rest1) as [|c r2] eqn:Hs2; [discriminate|].
    apply skipSpace_cons in Hs2.
    destruct (c =? 44)%N.
    + intros H. apply IHm in H. lia.
    + destruct (c =? 125)%N; [|discriminate]. intros [= _ <-]. lia.
Qed.

(** Two units of fuel for every code unit are enough. *)
Lemma parse_fuel (fuel : nat) :
  (forall s, (2 * List.length s + 1 <= fuel)%nat ->
             parseValue fuel s <> OutOfFuel) /\
  (forall s acc, (2 * List.length s + 2 <= fuel)%nat ->
                 parseElements fuel s acc <> OutOfFuel) /\
  (forall s acc, (2 * List.length s + 2 <= fuel)%nat ->
                 parseMembers fuel s acc <> OutOfFuel).
Proof.
  induction fuel as [|fuel (IHv & IHe & IHm)];
    [repeat split; intros; lia|].
  split; [|split].
  - intros s Hfuel. simpl.
    destruct (skipSpace s) as [|c r0] eqn:Hs; [discriminate|].
    apply skipSpace_cons in Hs.
    destruct (c =? 123)%N.
    { destruct (skipSpace r0) as [|c' r'] eqn:Hs'; [discriminate|].
      pose proof (skipSpace_length r0) as Hl. rewrite Hs' in Hl.
      destruct (c' =? 125)%N; [discriminate|]. apply IHm. lia. }
    destruct (c =? 91)%N.
    { destruct (skipSpace r0) as [|c' r'] eqn:Hs'; [discriminate|].
      pose proof (skipSpace_length r0) as Hl. rewrite Hs' in Hl.
      destruct (c' =? 93)%N; [discriminate|]. apply IHe. lia. }
    destruct (c =? 34)%N.
    { pose proof (parseString_fuel _ r0 [] (le_n _)) as Hstr.
      destruct (parseString r0 []); try discriminate. congruence. }
    destruct (c =? 116)%N;
      [apply (parseLiteral_spec "true" _ c r0); simpl; lia|].
    destruct (c =? 102)%N;
      [apply (parseLiteral_spec "false" _ c r0); simpl; lia|].
    destruct (c =? 110)%N;
      [apply (parseLiteral_spec "null" _ c r0); simpl; lia|].
    apply parseNumber_spec.
  - intros s acc Hfuel. simpl.
    pose proof (IHv s ltac:(lia)) as Hv.
    destruct (parseValue fuel s) as [v0 rest| |] eqn:Hrun;
      [|discriminate|congruence].
    apply (proj1 (parse_shorter fuel)) in Hrun.
    destruct (skipSpace rest) as [|c r0] eqn:Hs; [discriminate|].
    apply skipSpace_cons in Hs.
    destruct (c =? 44)%N; [apply IHe; lia|].
    destruct (c =? 93)%N; discriminate.
  - intros s acc Hfuel. simpl.
    destruct (skipSpace s) as [|q r0] eqn:Hs; [discriminate|].
    apply skipSpace_cons in Hs.
    destruct (q =? 34)%N; [|discriminate].
    pose proof (parseString_fuel _ r0 [] (le_n _)) as Hstr.
    destruct (parseString r0 []) as [key rest| |] eqn:Hkey;
      [|discriminate|congruence].
    apply (parseString_shorter _ _ _ _ _ (le_n _)) in Hkey.
    destruct (skipSpace rest) as [|colon r1] eqn:Hs1; [discriminate|].
    apply skipSpace_cons in Hs1.
    destruct (colon =? 58)%N; [|discriminate].
    pose proof (IHv r1 ltac:(lia)) as Hv.
    destruct (parseValue fuel r1) as [v0 rest1| |] eqn:Hrun;
      [|discriminate|congruence].
    apply (proj1 (parse_shorter fuel)) in Hrun.
    destruct (skipSpace rest1) as [|c r2] eqn:Hs2; [discriminate|].
    apply skipSpace_cons in Hs2.
    destruct (c =? 44)%N; [apply IHm; lia|].
    destruct (c =? 125)%N; discriminate.
Qed.

Lemma JSON_parse_fuel (text : jsstring) :
  parseValue (2 * List.length text + 2) text <> OutOfFuel.
Proof. apply parse_fuel. lia. Qed.

End ParserFuel.

(** ** Reading events of concatenated runs *)

Lemma chatRequests_app (a b : list Event) :
  chatRequests (a ++ b) = (chatRequests a + chatRequests b)%nat.
Proof. unfold chatRequests. now rewrite filter_app, length_app. Qed.

Lemma trimChecks_app (a b : list Event) :
  trimChecks (a ++ b) = (trimChecks a + trimChecks b)%nat.
Proof. unfold trimChecks. now rewrite filter_app, length_app. Qed.

Lemma toolCallsOf_app (a b : list Event) :
  toolCallsOf (a ++ b) = toolCallsOf a ++ toolCallsOf b.
Proof.
  induction a as [|e a IH]; [reflexivity|].
  destruct e; simpl; now rewrite ?IH.
Qed.

Lemma pushedBy_app (a b : list Event) :
  pushedBy (a ++ b) = pushedBy a ++ pushedBy b.
Proof.
  induction a as [|e a IH]; [reflexivity|].
  destruct e; simpl; now rewrite ?IH.
Qed.

(** ** The free-text loop, step by step *)

Module FreeTextFacts.

Import FreeText.

(** Setup, the user message and the first trimming check. *)
Lemma prologue (w : World) (userCommand : jsstring) (st : State) :
  isInitialized st = true \/ canSetUp w ->
  exists h0 ev0,
    (forall (A : Type) (k : M State A),
       (initialize w ;; push (plainMessage user userCommand) ;; trimHistoryM ;; k)%agent st
       = match k {| chatHistory := h0; isInitialized := true |} with
         | (r, st', ev) => (r, st', ev0 ++ ev)
         end) /\
    chatRequests ev0 = 0%nat /\ toolCallsOf ev0 = [] /\ trimChecks ev0 = 1%nat /\
    exists before, pushedBy ev0 = before ++ [plainMessage user userCommand].
Proof.
  intros [Hinit|(Hconn & tools & Htools)].
  - exists (trimHistory (chatHistory st ++ [plainMessage user userCommand])),
      [EvPush (plainMessage user userCommand); EvTrim].
    split; [|repeat split; now exists []].
    intros A k. unfold initialize, push, trimHistoryM, bind, gets, modify, emit, ret.
    rewrite Hinit. simpl. rewrite Hinit.
    destruct (k _) as [[r st'] ev]. reflexivity.
  - destruct (isInitialized st) eqn:Hinit.
    + exists (trimHistory (chatHistory st ++ [plainMessage user userCommand])),
        [EvPush (plainMessage user userCommand); EvTrim].
      split; [|repeat split; now exists []].
      intros A k. unfold initialize, push, trimHistoryM, bind, gets, modify, emit, ret.
      rewrite Hinit. simpl. rewrite Hinit.
      destruct (k _) as [[r st'] ev]. reflexivity.
    + exists (trimHistory ((chatHistory st ++ [plainMessage system (systemPrompt tools)])
                           ++ [plainMessage user userCommand])),
        [EvConnect; EvGetAllTools; EvPush (plainMessage system (systemPrompt tools));
         EvPush (plainMessage user userCommand); EvTrim].
      split; [|repeat split; now exists [plainMessage system (systemPrompt tools)]].
      intros A k.
      unfold initialize, push, trimHistoryM, bind, gets, modify, emit, ret, await.
      rewrite Hinit, Hconn, Htools. simpl.
      destruct (k _) as [[r st'] ev]. reflexivity.
Qed.


(** One pass of the loop: the request, the assistant message, and the
    inner [try] with its [catch]. *)
Lemma iterate_eq (w : World) (l : Locals) (st : State)
    (message : option AssistantMessage) :
  createCompletion w (S (iteration l)) (chatHistory st) None = Resolves message ->
  iterate w l st
  = let llmOutput := llmOutputOf message in
    let asked := [EvChat (chatHistory st) None;
                  EvPush (plainMessage assistant llmOutput)] in
    match interpret w (next l) llmOutput
            (pushed (plainMessage assistant llmOutput) st) with
    | (Returned l', st', ev) => (Returned l', st', asked ++ ev)
    | (Threw _, st', ev) =>
        (Returned (finished l (JString llmOutput)), st', asked ++ ev ++ [])
    end.
Proof.
  intros Hreply.
  unfold iterate, push.
  unfold bind, gets, emit, await, modify, tryCatch, ret.
  cbv zeta. change (iteration (next l)) with (S (iteration l)).
  rewrite Hreply. cbv beta iota.
  destruct (interpret w (next l) (llmOutputOf message) _) as [[[l'|e] st'] ev];
    reflexivity.
Qed.

(** A text that is not JSON ends the command as its answer. *)
Lemma interpret_not_json (w : World) (l : Locals) (st : State) (text : jsstring) :
  JSON_parse text = None ->
  interpret w l text st = (Threw SyntaxError, st, []).
Proof. intros H. unfold interpret, bind, orThrow. now rewrite H. Qed.

(** So does the JSON text [null]: reading [parsed.done] throws. *)
Lemma interpret_null (w : World) (l : Locals) (st : State) (text : jsstring) :
  JSON_parse text = Some JNull ->
  interpret w l text st = (Threw TypeError, st, []).
Proof. intros H. unfold interpret, bind, orThrow. now rewrite H. Qed.

Lemma interpret_done (w : World) (l : Locals) (st : State) (text : jsstring)
    (parsed : json) (done message : option json) :
  JSON_parse text = Some parsed ->
  getProperty parsed (js "done") = Some done ->
  isTrue done = true ->
  getProperty parsed (js "message") = Some message ->
  interpret w l text st
  = (Returned {| iteration := iteration l; taskComplete := true;
                 finalMessage :=
                   match message with
                   | Some v => if truthy message then v else finalMessage l
                   | None => finalMessage l
                   end |}, st, []).
Proof.
  intros Hp Hd Ht Hm. unfold interpret, bind, orThrow, ret.
  rewrite Hp. cbv beta iota. rewrite Hd. cbv beta iota. rewrite Ht, Hm. reflexivity.
Qed.

Lemma getProperty_total (parsed : json) (k k' : jsstring) (v : option json) :
  getProperty parsed k = Some v -> exists v', getProperty parsed k' = Some v'.
Proof. destruct parsed; simpl; try discriminate; eauto. Qed.

(** Valid JSON that is neither a completion nor a tool directive ends
    the command with the answer collected so far. *)
Lemma interpret_other (w : World) (l : Locals) (st : State) (text : jsstring)
    (parsed : json) (done toolName arguments : option json) :
  JSON_parse text = Some parsed ->
  getProperty parsed (js "done") = Some done ->
  isTrue done = false ->
  getProperty parsed (js "tool") = Some toolName ->
  getProperty parsed (js "arguments") = Some arguments ->
  truthy toolName && truthy arguments = false ->
  interpret w l text st
  = (Returned {| iteration := iteration l; taskComplete := true;
                 finalMessage := finalMessage l |}, st, []).
Proof.
  intros Hp Hd Ht Hn Ha Hf. unfold interpret, bind, orThrow, ret.
  rewrite Hp. cbv beta iota. rewrite Hd. cbv beta iota. rewrite Ht, Hn.
  cbv beta iota. rewrite Ha. cbv beta iota.
  destruct toolName as [name|], arguments as [args|]; try reflexivity.
  now rewrite Hf.
Qed.

(** A tool directive that the provider serves: the result is appended as
    a system-role message, the trimming check runs, the loop goes on. *)
Lemma interpret_tool (w : World) (l : Locals) (st : State) (text : jsstring)
    (parsed : json) (done : option json) (name args mcpResult : json)
    (toolText : jsstring) :
  JSON_parse text = Some parsed ->
  getProperty parsed (js "done") = Some done ->
  isTrue done = false ->
  getProperty parsed (js "tool") = Some (Some name) ->
  getProperty parsed (js "arguments") = Some (Some args) ->
  truthy (Some name) = true ->
  truthy (Some args) = true ->
  callTool w (iteration l) 0 name args = Resolves mcpResult ->
  ToString w name = Some toolText ->
  let result :=
    plainMessage system (toolResultText toolText (JSON_stringify w mcpResult 2)) in
  interpret w l text st
  = (Returned l,
     {| chatHistory := trimHistory (chatHistory st ++ [result]);
        isInitialized := isInitialized st |},
     [EvCallTool name args; EvPush result; EvTrim]).
Proof.
  intros Hp Hd Ht Hn Ha Htn Hta Hcall Hs result.
  unfold interpret, bind, orThrow, ret, emit, await, push, trimHistoryM, modify.
  rewrite Hp. cbv beta iota. rewrite Hd. cbv beta iota. rewrite Ht, Hn.
  cbv beta iota. rewrite Ha. cbv beta iota. rewrite Htn, Hta. cbv beta iota.
  rewrite Hcall. cbv beta iota. rewrite Hs. reflexivity.
Qed.

(** A tool directive whose invocation fails: the [catch] meant for text
    that is not JSON takes the failure, nothing is appended, and the raw
    directive becomes the answer. *)
Lemma interpret_tool_failure (w : World) (l : Locals) (st : State)
    (text : jsstring) (parsed : json) (done : option json) (name args : json)
    (toolText : jsstring) (e : ExternalError) :
  JSON_parse text = Some parsed ->
  getProperty parsed (js "done") = Some done ->
  isTrue done = false ->
  getProperty parsed (js "tool") = Some (Some name) ->
  getProperty parsed (js "arguments") = Some (Some args) ->
  truthy (Some name) = true ->
  truthy (Some args) = true ->
  ToString w name = Some toolText ->
  callTool w (iteration l) 0 name args = Rejects e ->
  interpret w l text st = (Threw (Failure e), st, [EvCallTool name args]).
Proof.
  intros Hp Hd Ht Hn Ha Htn Hta Hs Hcall.
  unfold interpret, bind, orThrow, ret, emit, await, throw.
  rewrite Hp. cbv beta iota. rewrite Hd. cbv beta iota. rewrite Ht, Hn.
  cbv beta iota. rewrite Ha. cbv beta iota. rewrite Htn, Hta. cbv beta iota.
  rewrite Hs. cbv beta iota. rewrite Hcall. reflexivity.
Qed.

(** A tool directive whose tool cannot be written as a string: the line
    that logs it throws, and nothing is delegated. *)
Lemma interpret_tool_unprintable (w : World) (l : Locals) (st : State)
    (text : jsstring) (parsed : json) (done : option json) (name args : json) :
  JSON_parse text = Some parsed ->
  getProperty parsed (js "done") = Some done ->
  isTrue done = false ->
  getProperty parsed (js "tool") = Some (Some name) ->
  getProperty parsed (js "arguments") = Some (Some args) ->
  truthy (Some name) = true ->
  truthy (Some args) = true ->
  ToString w name = None ->
  interpret w l text st = (Threw TypeError, st, []).
Proof.
  intros Hp Hd Ht Hn Ha Htn Hta Hs.
  unfold interpret, bind, orThrow, ret, emit, await, throw.
  rewrite Hp. cbv beta iota. rewrite Hd. cbv beta iota. rewrite Ht, Hn.
  cbv beta iota. rewrite Ha. cbv beta iota. rewrite Htn, Hta. cbv beta iota.
  rewrite Hs. reflexivity.
Qed.


Lemma agentLoop_stop (w : World) (fuel : nat) (l : Locals) (st : State) :
  taskComplete l = true -> agentLoop w fuel l st = (Returned l, st, []).
Proof. intros H. destruct fuel; simpl; [reflexivity|]. now rewrite H. Qed.

Lemma agentLoop_step (w : World) (fuel : nat) (l : Locals) (st : State) :
  taskComplete l = false -> (iteration l < MAX_ITERATIONS)%nat ->
  agentLoop w (S fuel) l st
  = match iterate w l st with
    | (Returned l', st1, ev1) =>
        match agentLoop w fuel l' st1 with
        | (r, st2, ev2) => (r, st2, ev1 ++ ev2)
        end
    | (Threw e, st1, ev1) => (Threw e, st1, ev1)
    end.
Proof.
  intros Hc Hi. simpl. rewrite Hc. apply Nat.ltb_lt in Hi. rewrite Hi.
  reflexivity.
Qed.

Lemma interpret_iteration (w : World) (l l' : Locals) (text : jsstring)
    (st st' : State) (ev : list Event) :
  interpret w l text st = (Returned l', st', ev) -> iteration l' = iteration l.
Proof.
  unfold interpret, push, trimHistoryM.
  unfold bind, orThrow, ret, throw, emit, await, modify.
  destruct (JSON_parse text) as [parsed|]; [|discriminate].
  destruct (getProperty parsed (js "done")) as [done|]; [|discriminate].
  destruct (isTrue done).
  - destruct (getProperty parsed (js "message")); [|discriminate].
    now intros [= <- _ _].
  - destruct (getProperty parsed (js "tool")) as [[name|]|];
      destruct (getProperty parsed (js "arguments")) as [[args|]|];
      try discriminate; try (now intros [= <- _ _]).
    destruct (truthy (Some name) && truthy (Some args));
      [|now intros [= <- _ _]].
    destruct (ToString w name); [|discriminate].
    destruct (callTool w (iteration l) 0 name args); [|discriminate].
    now intros [= <- _ _].
Qed.

Lemma iterate_iteration (w : World) (l l' : Locals) (st st' : State)
    (ev : list Event) :
  iterate w l st = (Returned l', st', ev) -> iteration l' = S (iteration l).
Proof.
  unfold iterate, push.
  unfold bind, gets, emit, await, modify, tryCatch, ret, throw. cbv zeta.
  destruct (createCompletion w _ _ _) as [message|e]; [|discriminate].
  cbv beta iota.
  destruct (interpret w (next l) (llmOutputOf message) _)
    as [[[l2|e] st2] ev2] eqn:Hint.
  - intros [= <- _ _]. now apply interpret_iteration in Hint.
  - now intros [= <- _ _].
Qed.

(** The loop leaves only when its test fails. *)
Lemma agentLoop_exit (w : World) (fuel : nat) (l l' : Locals) (st st' : State)
    (ev : list Event) :
  (MAX_ITERATIONS <= iteration l + fuel)%nat ->
  agentLoop w fuel l st = (Returned l', st', ev) ->
  taskComplete l' = true \/ (MAX_ITERATIONS <= iteration l')%nat.
Proof.
  revert l st ev. induction fuel as [|fuel IH]; intros l st ev Hfuel Hrun.
  - simpl in Hrun. injection Hrun as <- _ _. right. lia.
  - simpl in Hrun. destruct (taskComplete l) eqn:Hc.
    + simpl in Hrun. injection Hrun as <- _ _. now left.
    + destruct (iteration l <? MAX_ITERATIONS)%nat eqn:Hi.
      * simpl in Hrun. unfold bind in Hrun.
        destruct (iterate w l st) as [[[l1|e] st1] ev1] eqn:Hit; [|discriminate].
        destruct (agentLoop w fuel l1 st1) as [[r st2] ev2] eqn:Hrest.
        injection Hrun as -> <- _.
        apply iterate_iteration in Hit.
        eapply IH; [|exact Hrest]. rewrite Hit. lia.
      * simpl in Hrun. injection Hrun as <- _ _. right.
        apply Nat.ltb_ge in Hi. exact Hi.
Qed.

(** From a ready state, a command is its prologue, the loop, and the
    choice of the answer. *)
Lemma executeCommand_eq (w : World) (userCommand : jsstring) (st : State) :
  isInitialized st = true \/ canSetUp w ->
  exists h0 ev0,
    executeCommand w userCommand st
    = match agentLoop w MAX_ITERATIONS
              {| iteration := 0; taskComplete := false; finalMessage := JString [] |}
              {| chatHistory := h0; isInitialized := true |} with
      | (Returned l, st', ev) =>
          (Returned (if (MAX_ITERATIONS <=? iteration l)%nat && negb (taskComplete l)
                     then JString cannedMessage else finalMessage l),
           st', ev0 ++ ev)
      | (Threw e, st', ev) => (Threw e, st', ev0 ++ ev)
      end /\
    chatRequests ev0 = 0%nat /\ toolCallsOf ev0 = [] /\ trimChecks ev0 = 1%nat /\
    exists before, pushedBy ev0 = before ++ [plainMessage user userCommand].
Proof.
  intros Hready.
  destruct (prologue w userCommand st Hready) as (h0 & ev0 & Hrun & Hev).
  exists h0, ev0. split; [|exact Hev].
  unfold executeCommand. rewrite Hrun. unfold bind, ret.
  destruct (agentLoop w MAX_ITERATIONS _ _) as [[[l|e] st'] ev]; [|reflexivity].
  destruct ((MAX_ITERATIONS <=? iteration l)%nat && negb (taskComplete l));
    now rewrite app_nil_r.
Qed.


(** A run of [k] rounds that all ask for a tool the provider serves. *)
Lemma tool_rounds (w : World) (k : nat) :
  forall (fuel : nat) (l : Locals) (st : State),
    taskComplete l = false ->
    (iteration l + k <= MAX_ITERATIONS)%nat ->
    (forall i messages, (iteration l < i <= iteration l + k)%nat ->
                        freeTextToolRound w i messages) ->
    exists st1 ev1,
      agentLoop w (k + fuel) l st
      = match agentLoop w fuel
                {| iteration := iteration l + k; taskComplete := false;
                   finalMessage := finalMessage l |} st1 with
        | (r, st2, ev2) => (r, st2, ev1 ++ ev2)
        end /\
      chatRequests ev1 = k /\
      isInitialized st1 = isInitialized st.
Proof.
  induction k as [|k IH]; intros fuel l st Hc Hcap Hrounds.
  - exists st, []. rewrite Nat.add_0_r. simpl.
    destruct l as [it tc fm]. simpl in Hc. subst tc.
    destruct (agentLoop w fuel _ st) as [[r st2] ev2]. auto.
  - destruct (Hrounds (S (iteration l)) (chatHistory st) ltac:(lia))
      as (message & parsed & done & name & args & mcpResult & toolText &
          Hreply & Hparse & Hdone & Hnot & Hname & Hargs & Htn & Hta & Hcall & Hstr).
    change (S k + fuel)%nat with (S (k + fuel)).
    rewrite agentLoop_step by (auto; lia).
    rewrite (iterate_eq w l st message Hreply). cbv zeta.
    rewrite (interpret_tool w (next l) _ _ parsed done name args mcpResult toolText)
      by assumption.
    cbv zeta.
    match goal with
    | |- context [agentLoop w (k + fuel) (next l) ?st1] =>
        destruct (IH fuel (next l) st1) as (st2 & ev2 & Hrun & Hcount & Hinit)
    end.
    + exact Hc.
    + simpl. lia.
    + intros i messages Hi. apply Hrounds. simpl in Hi. lia.
    + rewrite Hrun. exists st2.
      exists (([EvChat (chatHistory st) None;
                EvPush (plainMessage assistant (llmOutputOf message))]
               ++ [EvCallTool name args;
                   EvPush (plainMessage system
                             (toolResultText toolText (JSON_stringify w mcpResult 2)));
                   EvTrim]) ++ ev2).
      split; [|split].
      * simpl iteration. simpl finalMessage.
        replace (S (iteration l) + k)%nat with (iteration l + S k)%nat by lia.
        match goal with
        | |- context [agentLoop w fuel ?l' st2] =>
            destruct (agentLoop w fuel l' st2) as [[r st3] ev3]
        end.
        now rewrite <- !app_assoc.
      * rewrite !chatRequests_app, Hcount. reflexivity.
      * rewrite Hinit. reflexivity.
Qed.


(** A round that ends the task: what the command returns. *)
Lemma first_round_ends (w : World) (userCommand : jsstring) (st : State)
    (message : option AssistantMessage) (answer : json) (ev : list Event) :
  isInitialized st = true \/ canSetUp w ->
  (forall messages, createCompletion w 1 messages None = Resolves message) ->
  chatRequests ev = 0%nat ->
  (forall st1, exists st2,
     interpret w (next {| iteration := 0; taskComplete := false;
                          finalMessage := JString [] |})
       (llmOutputOf message) st1
     = (Returned (finished {| iteration := 0; taskComplete := false;
                              finalMessage := JString [] |} answer), st2, ev)
     \/ (answer = JString (llmOutputOf message) /\
         exists e,
           interpret w (next {| iteration := 0; taskComplete := false;
                                finalMessage := JString [] |})
             (llmOutputOf message) st1 = (Threw e, st2, ev))) ->
  exists st' events before,
    executeCommand w userCommand st = (Returned answer, st', events) /\
    chatRequests events = 1%nat /\
    toolCallsOf events = toolCallsOf ev /\
    pushedBy events
    = before ++ [plainMessage user userCommand;
                 plainMessage assistant (llmOutputOf message)] ++ pushedBy ev.
Proof.
  intros Hready Hreply Hquiet Hint.
  destruct (executeCommand_eq w userCommand st Hready)
    as (h0 & ev0 & -> & Hchat & Htools & _ & before & Hpush).
  set (l0 := {| iteration := 0; taskComplete := false; finalMessage := JString [] |}) in *.
  set (st0 := {| chatHistory := h0; isInitialized := true |}).
  unfold MAX_ITERATIONS at 1.
  rewrite agentLoop_step by (reflexivity || (unfold MAX_ITERATIONS; simpl; lia)).
  rewrite (iterate_eq w l0 st0 message (Hreply _)). cbv zeta.
  destruct (Hint (pushed (plainMessage assistant (llmOutputOf message)) st0))
    as (st2 & [Hrun|(-> & e & Hrun)]); rewrite Hrun.
  - rewrite agentLoop_stop by reflexivity.
    exists st2. eexists. exists before. split; [reflexivity|].
    rewrite !chatRequests_app, !toolCallsOf_app, !pushedBy_app, Hchat, Htools, Hpush.
    rewrite Hquiet. simpl. rewrite !app_nil_r, <- !app_assoc. auto.
  - rewrite agentLoop_stop by reflexivity.
    exists st2. eexists. exists before. split; [reflexivity|].
    rewrite !chatRequests_app, !toolCallsOf_app, !pushedBy_app, Hchat, Htools, Hpush.
    rewrite Hquiet. simpl. rewrite !app_nil_r, <- !app_assoc. auto.
Qed.

End FreeTextFacts.

(** ** The free-text protocol: what a command returns *)

Lemma parse_null : JSON_parse (FreeText.llmOutputOf (assistantText (js "null"))) = Some JNull.
Proof. vm_compute. reflexivity. Qed.

Lemma parse_doneHello :
  JSON_parse (FreeText.llmOutputOf (assistantText Scenarios.doneHello))
  = Some (JObject [ (js "done", JBool true); (js "message", JString (js "hello")) ]).
Proof. vm_compute. reflexivity. Qed.

Lemma parse_searchX :
  JSON_parse (FreeText.llmOutputOf (assistantText Scenarios.searchX))
  = Some (JObject [ (js "tool", JString (js "search"));
                    (js "arguments", JObject [ (js "q", JString (js "x")) ]) ]).
Proof. vm_compute. reflexivity. Qed.

Lemma parse_doneFound :
  JSON_parse (FreeText.llmOutputOf (assistantText Scenarios.doneFound))
  = Some (JObject [ (js "done", JBool true); (js "message", JString (js "found it")) ]).
Proof. vm_compute. reflexivity. Qed.

(** C10 (the code departs from it): when the assistant text is the JSON
    value [null], which has neither a completion nor a tool shape, the
    command does not return the empty string: reading [parsed.done]
    throws, the [catch] written for text that is not JSON takes over, and
    the text [null] itself is returned. *)
Theorem freetext_null_text_is_returned (w : World) (st : FreeText.State)
    (userCommand : jsstring) :
  FreeText.isInitialized st = true \/ canSetUp w ->
  (forall messages,
     createCompletion w 1 messages None = Resolves (assistantText (js "null"))) ->
  JSON_parse (js "null") = Some JNull /\
  exists st' events,
    FreeText.executeCommand w userCommand st
    = (Returned (JString (js "null")), st', events) /\
    JString (js "null") <> JString [].
Proof.
  intros Hready Hreply. split; [vm_compute; reflexivity|].
  destruct (FreeTextFacts.first_round_ends w userCommand st
              (assistantText (js "null")) (JString (js "null")) []
              Hready Hreply eq_refl)
    as (st' & events & _ & Hrun & _).
  - intros st1. exists st1. right. split; [reflexivity|].
    exists TypeError. apply FreeTextFacts.interpret_null. exact parse_null.
  - exists st', events. split; [exact Hrun|discriminate].
Qed.

Lemma freetext_null_text_is_returned_run :
  JSON_parse (js "null") = Some JNull /\
  exists st' events,
    FreeText.executeCommand Scenarios.saysNull (js "hi") FreeText.loaded
    = (Returned (JString (js "null")), st', events) /\
    JString (js "null") <> JString [].
Proof.
  apply (freetext_null_text_is_returned Scenarios.saysNull FreeText.loaded (js "hi")).
  - right. split; [reflexivity|]. exists []. reflexivity.
  - intros messages. reflexivity.
Defined.

(** C1 (the code departs from it): in the free-text variant a tool
    invocation that the provider rejects is swallowed by the [catch]
    around the directive.  The tool is one the code delegates: its name
    can be written as a string, which the log line before the call
    requires.  No tool-result message is appended, no further request
    goes to the LLM, and the command returns the raw directive. *)
Theorem freetext_tool_failure_ends_command (w : World) (st : FreeText.State)
    (userCommand : jsstring) (message : option AssistantMessage)
    (parsed : json) (done : option json) (name args : json)
    (toolText : jsstring) (e : ExternalError) :
  FreeText.isInitialized st = true \/ canSetUp w ->
  (forall messages, createCompletion w 1 messages None = Resolves message) ->
  JSON_parse (FreeText.llmOutputOf message) = Some parsed ->
  getProperty parsed (js "done") = Some done ->
  isTrue done = false ->
  getProperty parsed (js "tool") = Some (Some name) ->
  getProperty parsed (js "arguments") = Some (Some args) ->
  truthy (Some name) = true ->
  truthy (Some args) = true ->
  ToString w name = Some toolText ->
  callTool w 1 0 name args = Rejects e ->
  exists st' events before,
    FreeText.executeCommand w userCommand st
    = (Returned (JString (FreeText.llmOutputOf message)), st', events) /\
    chatRequests events = 1%nat /\
    toolCallsOf events = [(name, args)] /\
    pushedBy events
    = before ++ [plainMessage user userCommand;
                 plainMessage assistant (FreeText.llmOutputOf message)].
Proof.
  intros Hready Hreply Hp Hd Hnot Hn Ha Htn Hta Hs Hcall.
  destruct (FreeTextFacts.first_round_ends w userCommand st message
              (JString (FreeText.llmOutputOf message)) [EvCallTool name args]
              Hready Hreply eq_refl)
    as (st' & events & before & Hrun & Hchat & Htools & Hpush).
  - intros st1. exists st1. right. split; [reflexivity|].
    exists (Failure e).
    now apply (FreeTextFacts.interpret_tool_failure w _ st1 _ parsed done name args
                 toolText e).
  - exists st', events, before. simpl in Hpush. auto.
Qed.

Lemma freetext_tool_failure_ends_command_run :
  exists st' events before,
    FreeText.executeCommand Scenarios.searchFails (js "find x") FreeText.loaded
    = (Returned (JString Scenarios.searchX), st', events) /\
    chatRequests events = 1%nat /\
    toolCallsOf events
    = [(JString (js "search"), JObject [ (js "q", JString (js "x")) ])] /\
    pushedBy events
    = before ++ [plainMessage user (js "find x");
                 plainMessage assistant Scenarios.searchX].
Proof.
  apply (freetext_tool_failure_ends_command Scenarios.searchFails FreeText.loaded
           (js "find x") (assistantText Scenarios.searchX)
           (JObject [ (js "tool", JString (js "search"));
                      (js "arguments", JObject [ (js "q", JString (js "x")) ]) ])
           None
           (JString (js "search")) (JObject [ (js "q", JString (js "x")) ])
           (js "search")
           {| error_message := js "Tool not found: search" |}).
  - right. split; [reflexivity|]. exists []. reflexivity.
  - intros messages. reflexivity.
  - exact parse_searchX.
  - reflexivity.
  - reflexivity.
  - reflexivity.
  - reflexivity.
  - reflexivity.
  - reflexivity.
  - reflexivity.
  - reflexivity.
Defined.

(** C9: the two runs of the free-text protocol.  A completion directive
    in the first round is answered with its message and no tool is
    invoked; a [search] directive followed, once the provider has served
    it, by a completion directive invokes exactly that tool once and is
    answered with the second message. *)
Theorem freetext_protocol_examples :
  (forall (w : World) (st : FreeText.State) (userCommand : jsstring),
     FreeText.isInitialized st = true \/ canSetUp w ->
     (forall messages,
        createCompletion w 1 messages None
        = Resolves (assistantText (jsq "{'done': true, 'message': 'hello'}"))) ->
     exists st' events,
       FreeText.executeCommand w userCommand st
       = (Returned (JString (js "hello")), st', events) /\
       toolCallsOf events = []) /\
  (forall (w : World) (st : FreeText.State) (userCommand : jsstring)
          (mcpResult : json),
     FreeText.isInitialized st = true \/ canSetUp w ->
     (forall messages,
        createCompletion w 1 messages None
        = Resolves (assistantText (jsq "{'tool': 'search', 'arguments': {'q': 'x'}}"))) ->
     (forall messages,
        createCompletion w 2 messages None
        = Resolves (assistantText (jsq "{'done': true, 'message': 'found it'}"))) ->
     callTool w 1 0 (JString (js "search")) (JObject [ (js "q", JString (js "x")) ])
     = Resolves mcpResult ->
     exists st' events,
       FreeText.executeCommand w userCommand st
       = (Returned (JString (js "found it")), st', events) /\
       toolCallsOf events
       = [(JString (js "search"), JObject [ (js "q", JString (js "x")) ])] /\
       chatRequests events = 2%nat).
Proof.
  split.
  - intros w st userCommand Hready Hreply.
    destruct (FreeTextFacts.first_round_ends w userCommand st
                (assistantText Scenarios.doneHello) (JString (js "hello")) []
                Hready Hreply eq_refl)
      as (st' & events & _ & Hrun & _ & Htools & _).
    + intros st1. exists st1. left.
      now rewrite (FreeTextFacts.interpret_done w _ st1 _ _ (Some (JBool true))
                     (Some (JString (js "hello"))) parse_doneHello).
    + now exists st', events.
  - intros w st userCommand mcpResult Hready Hfirst Hsecond Hcall.
    destruct (FreeTextFacts.executeCommand_eq w userCommand st Hready)
      as (h0 & ev0 & -> & Hchat & Htools & _).
    unfold FreeText.MAX_ITERATIONS at 1.
    match goal with
    | |- context [FreeText.agentLoop w _ ?l ?s] =>
        rewrite (FreeTextFacts.agentLoop_step w _ l s)
          by (reflexivity || (unfold FreeText.MAX_ITERATIONS; simpl; lia));
        rewrite (FreeTextFacts.iterate_eq w l s _ (Hfirst _))
    end.
    cbv zeta.
    rewrite (FreeTextFacts.interpret_tool w _ _ _ _ None
               (JString (js "search")) (JObject [ (js "q", JString (js "x")) ])
               mcpResult (js "search") parse_searchX)
      by (reflexivity || exact Hcall).
    cbv zeta.
    match goal with
    | |- context [FreeText.agentLoop w _ ?l ?s] =>
        rewrite (FreeTextFacts.agentLoop_step w _ l s)
          by (reflexivity || (unfold FreeText.MAX_ITERATIONS; simpl; lia));
        rewrite (FreeTextFacts.iterate_eq w l s _ (Hsecond _))
    end.
    cbv zeta.
    rewrite (FreeTextFacts.interpret_done w _ _ _ _ (Some (JBool true))
               (Some (JString (js "found it"))) parse_doneFound)
      by reflexivity.
    rewrite FreeTextFacts.agentLoop_stop by reflexivity.
    eexists. eexists. split; [reflexivity|].
    rewrite !chatRequests_app, !toolCallsOf_app, Hchat, Htools.
    split; reflexivity.
Qed.

Lemma freetext_protocol_examples_run :
  (exists st' events,
     FreeText.executeCommand Scenarios.sayHello (js "hi") FreeText.loaded
     = (Returned (JString (js "hello")), st', events) /\
     toolCallsOf events = []) /\
  (exists st' events,
     FreeText.executeCommand Scenarios.searchThenDone (js "find x") FreeText.loaded
     = (Returned (JString (js "found it")), st', events) /\
     toolCallsOf events
     = [(JString (js "search"), JObject [ (js "q", JString (js "x")) ])] /\
     chatRequests events = 2%nat).
Proof.
  split.
  - apply (proj1 freetext_protocol_examples Scenarios.sayHello FreeText.loaded (js "hi")).
    + right. split; [reflexivity|]. exists []. reflexivity.
    + intros messages. reflexivity.
  - apply (proj2 freetext_protocol_examples Scenarios.searchThenDone FreeText.loaded
             (js "find x") (JObject [])).
    + right. split; [reflexivity|]. exists []. reflexivity.
    + intros messages. reflexivity.
    + intros messages. reflexivity.
    + reflexivity.
Defined.

(** The free-text half of C8: ten rounds that all ask for a tool. *)
Lemma freetext_cap_reached (w : World) (st : FreeText.State) (userCommand : jsstring) :
  FreeText.isInitialized st = true \/ canSetUp w ->
  (forall i messages, (1 <= i <= FreeText.MAX_ITERATIONS)%nat ->
                      freeTextToolRound w i messages) ->
  exists st' events,
    FreeText.executeCommand w userCommand st
    = (Returned (JString cannedMessage), st', events) /\
    chatRequests events = FreeText.MAX_ITERATIONS.
Proof.
  intros Hready Hrounds.
  destruct (FreeTextFacts.executeCommand_eq w userCommand st Hready)
    as (h0 & ev0 & -> & Hchat & _).
  destruct (FreeTextFacts.tool_rounds w FreeText.MAX_ITERATIONS 0
              {| FreeText.iteration := 0; FreeText.taskComplete := false;
                 FreeText.finalMessage := JString [] |}
              {| FreeText.chatHistory := h0; FreeText.isInitialized := true |})
    as (st1 & ev1 & Hrun & Hcount & _).
  - reflexivity.
  - simpl. lia.
  - intros i messages Hi. apply Hrounds. simpl in Hi. lia.
  - rewrite Nat.add_0_r in Hrun. rewrite Hrun. simpl.
    exists st1, (ev0 ++ ev1 ++ []). split; [reflexivity|].
    rewrite !chatRequests_app, Hchat, Hcount. reflexivity.
Qed.

(** ** Computations that never run the trimming check *)

Lemma untrimmed_ret {S A} (a : A) : untrimmed (@ret S A a).
Proof. intro st. reflexivity. Qed.

Lemma untrimmed_throw {S A} (e : Thrown) : untrimmed (@throw S A e).
Proof. intro st. reflexivity. Qed.

Lemma untrimmed_gets {S A} (f : S -> A) : untrimmed (gets f).
Proof. intro st. reflexivity. Qed.

Lemma untrimmed_modify {S} (f : S -> S) : untrimmed (modify f).
Proof. intro st. reflexivity. Qed.

Lemma untrimmed_emit {S} (ev : Event) : isTrim ev = false -> untrimmed (@emit S ev).
Proof. intros H st. unfold emit, eventsOf, trimChecks. simpl. now rewrite H. Qed.

Lemma untrimmed_await {S A} (o : Outcome A) : untrimmed (@await S A o).
Proof. intro st. now destruct o. Qed.

Lemma untrimmed_orThrow {S A} (e : Thrown) (o : option A) :
  untrimmed (@orThrow S A e o).
Proof. intro st. now destruct o. Qed.

Lemma untrimmed_bind {S A B} (m : M S A) (k : A -> M S B) :
  untrimmed m -> (forall a, untrimmed (k a)) -> untrimmed (bind m k).
Proof.
  intros Hm Hk st. unfold bind. specialize (Hm st).
  destruct (m st) as [[[a|e] st1] ev1]; [|exact Hm].
  specialize (Hk a st1). destruct (k a st1) as [[r st2] ev2].
  unfold eventsOf in *. simpl in *. rewrite trimChecks_app. lia.
Qed.

Lemma trimmedOnce_after {S A B} (m : M S A) (k : A -> M S B) :
  untrimmed m -> (forall a, trimmedOnce (k a)) -> trimmedOnce (bind m k).
Proof.
  intros Hm Hk st. unfold bind. specialize (Hm st).
  destruct (m st) as [[[a|e] st1] ev1]; unfold eventsOf in *; simpl in *; [|lia].
  specialize (Hk a st1). destruct (k a st1) as [[r st2] ev2].
  unfold eventsOf in *. simpl in *. rewrite trimChecks_app. lia.
Qed.

Lemma trimmedOnce_before {S A B} (m : M S A) (k : A -> M S B) :
  trimmedOnce m -> (forall a, untrimmed (k a)) -> trimmedOnce (bind m k).
Proof.
  intros Hm Hk st. unfold bind. specialize (Hm st).
  destruct (m st) as [[[a|e] st1] ev1]; unfold eventsOf in *; simpl in *; [|lia].
  specialize (Hk a st1). destruct (k a st1) as [[r st2] ev2].
  unfold eventsOf in *. simpl in *. rewrite trimChecks_app. lia.
Qed.

(** ** The structured loop, step by step *)

Module StructuredFacts.

Import Structured.

(** Setup replaces the advertised tools by the converted remote ones. *)
Lemma initialize_fresh (w : World) (st : State) (mcpTools : list McpTool) :
  isInitialized st = false ->
  connect w = Resolves tt ->
  getAllTools w = Resolves mcpTools ->
  initialize w st
  = (Returned tt,
     {| chatHistory := chatHistory st ++ [plainMessage system Prompts.structured];
        isInitialized := true;
        openAITools := map convertMCPToolToOpenAIFunction mcpTools |},
     [EvConnect; EvGetAllTools; EvPush (plainMessage system Prompts.structured)]).
Proof.
  intros Hinit Hconn Htools. unfold initialize, push.
  unfold bind, gets, emit, await, modify, ret.
  rewrite Hinit, Hconn, Htools. reflexivity.
Qed.

Lemma initialize_again (w : World) (st : State) :
  isInitialized st = true -> initialize w st = (Returned tt, st, []).
Proof.
  intros Hinit. unfold initialize, bind, gets, ret. now rewrite Hinit.
Qed.

(** Setup, the user message and the only trimming check of a command. *)
Lemma command_prologue (w : World) (userCommand : jsstring) (st : State) :
  isInitialized st = true \/ canSetUp w ->
  exists st0 ev0,
    (forall (A : Type) (k : M State A),
       (initialize w ;; push (plainMessage user userCommand) ;; trimHistoryM ;; k)%agent st
       = match k st0 with
         | (r, st', ev) => (r, st', ev0 ++ ev)
         end) /\
    chatRequests ev0 = 0%nat /\ toolCallsOf ev0 = [] /\ trimChecks ev0 = 1%nat.
Proof.
  intros Hready.
  assert (Hinit : exists st1 ev1,
             initialize w st = (Returned tt, st1, ev1) /\
             chatRequests ev1 = 0%nat /\ toolCallsOf ev1 = [] /\
             trimChecks ev1 = 0%nat).
  { destruct (isInitialized st) eqn:Hinit.
    - exists st, []. rewrite initialize_again by exact Hinit. auto.
    - destruct Hready as [?|(Hconn & tools & Htools)]; [discriminate|].
      eexists. eexists. rewrite (initialize_fresh w st tools) by assumption.
      auto. }
  destruct Hinit as (st1 & ev1 & Hrun & Hc & Ht & Htr).
  exists {| chatHistory := trimHistory (chatHistory st1 ++ [plainMessage user userCommand]);
            isInitialized := isInitialized st1; openAITools := openAITools st1 |},
    (ev1 ++ [EvPush (plainMessage user userCommand); EvTrim]).
  split.
  - intros A k. unfold bind at 1. rewrite Hrun.
    unfold push, trimHistoryM, bind, modify, emit, pushed. cbv beta iota.
    simpl chatHistory. simpl isInitialized. simpl openAITools.
    destruct (k _) as [[r st'] ev]. cbn [app]. rewrite <- app_assoc. reflexivity.
  - rewrite chatRequests_app, toolCallsOf_app, trimChecks_app, Hc, Ht, Htr. auto.
Qed.


Lemma untrimmed_push (msg : ChatMessage) : untrimmed (push msg).
Proof.
  unfold push. apply untrimmed_bind; [apply untrimmed_modify|].
  intros _. now apply untrimmed_emit.
Qed.

Lemma untrimmed_initialize (w : World) : untrimmed (initialize w).
Proof.
  unfold initialize. apply untrimmed_bind; [apply untrimmed_gets|].
  intros [|]; [apply untrimmed_ret|].
  repeat (apply untrimmed_bind;
          [first [now apply untrimmed_emit | apply untrimmed_await
                 | apply untrimmed_modify | apply untrimmed_push]|intros ?]).
  apply untrimmed_modify.
Qed.

Lemma untrimmed_executeCustomFunction (w : World) (i k : nat)
    (functionName : jsstring) (functionArgs : json) (toolCallId : jsstring) :
  untrimmed (executeCustomFunction w i k functionName functionArgs toolCallId).
Proof.
  unfold executeCustomFunction.
  destruct (jsstring_eqb functionName (js "describe_image")); [|apply untrimmed_ret].
  apply untrimmed_bind; [apply untrimmed_orThrow|]. intros imageUrl.
  destruct (templateText w imageUrl) as [urlText|]; [|apply untrimmed_push].
  apply untrimmed_bind; [now apply untrimmed_emit|]. intros _.
  destruct (describeImage w i k imageUrl); apply untrimmed_push.
Qed.

Lemma untrimmed_runToolCall (w : World) (i k : nat) (toolCall : ToolCall) :
  untrimmed (runToolCall w i k toolCall).
Proof.
  unfold runToolCall. destruct (call_type toolCall); [|apply untrimmed_ret].
  apply untrimmed_bind; [apply untrimmed_orThrow|]. intros functionArgs.
  destruct (isCustomFunction (fn_name toolCall));
    [apply untrimmed_executeCustomFunction|].
  apply untrimmed_bind; [now apply untrimmed_emit|]. intros _.
  destruct (callTool w i k _ functionArgs); apply untrimmed_push.
Qed.

Lemma untrimmed_runToolCalls (w : World) (i : nat) (calls : list ToolCall) :
  forall k, untrimmed (runToolCalls w i k calls).
Proof.
  induction calls as [|toolCall rest IH]; intro k; simpl.
  - apply untrimmed_ret.
  - apply untrimmed_bind; [apply untrimmed_runToolCall|]. intros _. apply IH.
Qed.

Lemma untrimmed_iterate (w : World) (l : Locals) : untrimmed (iterate w l).
Proof.
  unfold iterate. cbv zeta.
  apply untrimmed_bind; [apply untrimmed_gets|]. intros messages.
  apply untrimmed_bind; [apply untrimmed_gets|]. intros tools.
  apply untrimmed_bind; [now apply untrimmed_emit|]. intros _.
  apply untrimmed_bind; [apply untrimmed_await|]. intros [message|];
    [|apply untrimmed_ret].
  apply untrimmed_bind; [apply untrimmed_push|]. intros _.
  destruct (am_tool_calls message).
  - destruct (am_content message) as [[|c s]|]; apply untrimmed_ret.
  - apply untrimmed_bind; [apply untrimmed_runToolCalls|]. intros _.
    apply untrimmed_ret.
Qed.

Lemma untrimmed_agentLoop (w : World) (fuel : nat) :
  forall l, untrimmed (agentLoop w fuel l).
Proof.
  induction fuel as [|fuel IH]; intro l; simpl; [apply untrimmed_ret|].
  destruct (iteration l <? MAX_ITERATIONS)%nat; [|apply untrimmed_ret].
  apply untrimmed_bind; [apply untrimmed_iterate|].
  intros [[|] l']; [apply untrimmed_ret|apply IH].
Qed.

(** A command of the structured variant runs the trimming check at most
    once: after the user message, and never after a tool result. *)
Lemma executeCommand_trims_once (w : World) (userCommand : jsstring) :
  trimmedOnce (executeCommand w userCommand).
Proof.
  unfold executeCommand.
  apply trimmedOnce_after; [apply untrimmed_initialize|]. intros _.
  apply trimmedOnce_after; [apply untrimmed_push|]. intros _.
  apply trimmedOnce_before.
  - intro st. unfold trimHistoryM, bind, emit, modify, eventsOf, trimChecks.
    cbn. lia.
  - intros _. apply untrimmed_bind; [apply untrimmed_agentLoop|].
    intros l. destruct ((MAX_ITERATIONS <=? iteration l)%nat); apply untrimmed_ret.
Qed.


Lemma unasked_bind {S A B} (m : M S A) (k : A -> M S B) :
  unasked m -> (forall a, unasked (k a)) -> unasked (bind m k).
Proof.
  intros Hm Hk st. unfold bind. specialize (Hm st).
  destruct (m st) as [[[a|e] st1] ev1]; [|exact Hm].
  specialize (Hk a st1). destruct (k a st1) as [[r st2] ev2].
  unfold eventsOf in *. simpl in *. rewrite chatRequests_app. lia.
Qed.

Lemma unasked_push (msg : ChatMessage) : unasked (push msg).
Proof. intro st. reflexivity. Qed.

Lemma unasked_runToolCall (w : World) (i k : nat) (toolCall : ToolCall) :
  unasked (runToolCall w i k toolCall).
Proof.
  unfold runToolCall. destruct (call_type toolCall); [|intro; reflexivity].
  apply unasked_bind; [intro; now destruct (JSON_parse _)|]. intros functionArgs.
  destruct (isCustomFunction (fn_name toolCall)).
  - unfold executeCustomFunction.
    destruct (jsstring_eqb _ _); [|intro; reflexivity].
    apply unasked_bind; [intro; now destruct (getProperty _ _)|]. intros imageUrl.
    destruct (templateText w imageUrl) as [urlText|]; [|apply unasked_push].
    apply unasked_bind; [intro; reflexivity|]. intros _.
    destruct (describeImage w i k imageUrl); apply unasked_push.
  - apply unasked_bind; [intro; reflexivity|]. intros _.
    destruct (callTool w i k _ functionArgs); apply unasked_push.
Qed.

Lemma unasked_runToolCalls (w : World) (i : nat) (calls : list ToolCall) :
  forall k, unasked (runToolCalls w i k calls).
Proof.
  induction calls as [|toolCall rest IH]; intro k; simpl.
  - intro; reflexivity.
  - apply unasked_bind; [apply unasked_runToolCall|]. intros _. apply IH.
Qed.

(** A tool call that can be handed on never throws: whatever the provider
    does with it ends up in the history. *)
Lemma runToolCall_returns (w : World) (i k : nat) (toolCall : ToolCall) (st : State) :
  callCanRun toolCall = true ->
  exists st' ev, runToolCall w i k toolCall st = (Returned tt, st', ev).
Proof.
  unfold callCanRun, runToolCall.
  destruct (call_type toolCall); [|intros _; eexists; eexists; reflexivity].
  destruct (JSON_parse (fn_arguments toolCall)) as [functionArgs|]; [|discriminate].
  intros Hcan. unfold bind at 1, orThrow, ret. cbv beta iota.
  destruct (isCustomFunction (fn_name toolCall)).
  - assert (Hargs : exists imageUrl,
               getProperty functionArgs (js "imageUrl") = Some imageUrl).
    { destruct functionArgs; simpl; try discriminate; eauto. }
    destruct Hargs as (imageUrl & Hurl).
    unfold executeCustomFunction.
    destruct (jsstring_eqb _ _); [|eexists; eexists; reflexivity].
    unfold bind, orThrow, ret, emit. rewrite Hurl. cbv beta iota.
    destruct (templateText w imageUrl) as [urlText|];
      [destruct (describeImage w i k imageUrl)|];
      unfold push, bind, modify, emit; eexists; eexists; reflexivity.
  - unfold bind, emit. cbv beta iota.
    destruct (callTool w i k _ functionArgs); unfold push, bind, modify, emit;
      eexists; eexists; reflexivity.
Qed.

Lemma runToolCalls_returns (w : World) (i : nat) (calls : list ToolCall) :
  forall k st,
    forallb callCanRun calls = true ->
    exists st' ev, runToolCalls w i k calls st = (Returned tt, st', ev).
Proof.
  induction calls as [|toolCall rest IH]; intros k st Hcan; simpl.
  - eexists; eexists; reflexivity.
  - simpl in Hcan. apply andb_true_iff in Hcan as [Hone Hrest].
    destruct (runToolCall_returns w i k toolCall st Hone) as (st1 & ev1 & Hrun).
    destruct (IH (S k) st1 Hrest) as (st2 & ev2 & Hrun2).
    unfold bind. rewrite Hrun, Hrun2. eexists; eexists; reflexivity.
Qed.

(** A failed invocation is captured on this path: a call the provider
    rejects is answered with an error payload keyed to the call, and the
    loop goes on. *)
Lemma runToolCall_rejected (w : World) (i k : nat) (toolCall : ToolCall)
    (st : State) (functionArgs : json) (error : ExternalError) :
  call_type toolCall = tc_function ->
  JSON_parse (fn_arguments toolCall) = Some functionArgs ->
  isCustomFunction (fn_name toolCall) = false ->
  callTool w i k (JString (fn_name toolCall)) functionArgs = Rejects error ->
  runToolCall w i k toolCall st
  = (Returned tt,
     pushed (toolMessage (call_id toolCall)
               (JSON_stringify w (errorPayload error) 0)) st,
     [EvCallTool (JString (fn_name toolCall)) functionArgs;
      EvPush (toolMessage (call_id toolCall)
                (JSON_stringify w (errorPayload error) 0))]).
Proof.
  intros Hty Hparse Hcustom Hcall. unfold runToolCall.
  rewrite Hty. unfold bind at 1, orThrow, ret. rewrite Hparse. cbv beta iota.
  rewrite Hcustom. unfold bind at 1, emit. cbv beta iota. rewrite Hcall.
  reflexivity.
Qed.

Lemma iterate_counts (w : World) (l l' : Locals) (stop : bool)
    (st st' : State) (ev : list Event) :
  iterate w l st = (Returned (stop, l'), st', ev) -> iteration l' = S (iteration l).
Proof.
  unfold iterate. cbv zeta. unfold bind at 1, gets. cbv beta iota.
  unfold bind at 1. cbv beta iota. unfold bind at 1, emit. cbv beta iota.
  unfold bind at 1, await.
  destruct (createCompletion w _ _ _) as [[message|]|e];
    unfold ret at 1, throw; cbv beta iota; try discriminate.
  - unfold bind at 1. destruct (push _ st) as [[[[]|e] st1] ev1]; [|discriminate].
    destruct (am_tool_calls message).
    + destruct (am_content message) as [[|c s]|]; unfold ret;
        now intros [= _ <- _ _].
    + unfold bind. destruct (runToolCalls w _ 0 _ st1) as [[[[]|e] st2] ev2];
        [|discriminate].
      unfold ret. now intros [= _ <- _ _].
  - now intros [= _ <- _ _].
Qed.

(** The loop is never cut short: fuel beyond what separates [iteration]
    from the cap changes nothing. *)
Lemma agentLoop_fuel (w : World) (fuel : nat) :
  forall l st,
    (MAX_ITERATIONS <= iteration l + fuel)%nat ->
    agentLoop w (S fuel) l st = agentLoop w fuel l st.
Proof.
  induction fuel as [|fuel IH]; intros l st Hfuel.
  - simpl. assert (H : (iteration l <? MAX_ITERATIONS)%nat = false)
      by (apply Nat.ltb_ge; lia).
    now rewrite H.
  - change (agentLoop w (S (S fuel)) l st)
      with ((if (iteration l <? MAX_ITERATIONS)%nat
             then (r <- iterate w l ;;
                   match r with
                   | (true, l') => ret l'
                   | (false, l') => agentLoop w (S fuel) l'
                   end)%agent
             else ret l) st).
    change (agentLoop w (S fuel) l st)
      with ((if (iteration l <? MAX_ITERATIONS)%nat
             then (r <- iterate w l ;;
                   match r with
                   | (true, l') => ret l'
                   | (false, l') => agentLoop w fuel l'
                   end)%agent
             else ret l) st).
    destruct (iteration l <? MAX_ITERATIONS)%nat; [|reflexivity].
    unfold bind.
    destruct (iterate w l st) as [[[[stop l']|e] st1] ev1] eqn:Hit; [|reflexivity].
    apply iterate_counts in Hit.
    destruct stop; [reflexivity|].
    rewrite IH by lia. reflexivity.
Qed.

(** One round that asks for tools. *)
Lemma iterate_tool_round (w : World) (l : Locals) (st : State) :
  structuredToolRound w (S (iteration l)) (chatHistory st) (openAITools st) ->
  exists st' ev,
    iterate w l st = (Returned (false, next l), st', ev) /\
    chatRequests ev = 1%nat.
Proof.
  intros (message & Hreply & Hcalls & Hcan).
  unfold iterate. cbv zeta. unfold bind at 1, gets. cbv beta iota.
  unfold bind at 1. cbv beta iota. unfold bind at 1, emit. cbv beta iota.
  unfold bind at 1, await.
  change (iteration (next l)) with (S (iteration l)).
  rewrite Hreply. unfold ret at 1. cbv beta iota.
  destruct (am_tool_calls message) as [|toolCall rest] eqn:Hlist; [congruence|].
  unfold bind at 1.
  pose proof (unasked_push (asChatMessage message) st) as Hquiet.
  destruct (push (asChatMessage message) st) as [[[[]|e] st1] ev1] eqn:Hpush;
    [|discriminate].
  destruct (runToolCalls_returns w (S (iteration l)) (toolCall :: rest) 0 st1 Hcan)
    as (st2 & ev2 & Hrun).
  pose proof (unasked_runToolCalls w (S (iteration l)) (toolCall :: rest) 0 st1) as Hq2.
  unfold bind. rewrite Hrun in *. unfold ret.
  eexists; eexists. split; [reflexivity|].
  unfold eventsOf in *. simpl in Hquiet, Hq2.
  rewrite !chatRequests_app, Hquiet, Hq2. reflexivity.
Qed.

(** A run of rounds that all ask for tools, up to the cap. *)
Lemma rounds_to_cap (w : World) (fuel : nat) :
  forall (l : Locals) (st : State),
    (iteration l + fuel = MAX_ITERATIONS)%nat ->
    (forall i messages tools, (iteration l < i <= MAX_ITERATIONS)%nat ->
                              structuredToolRound w i messages tools) ->
    exists st' ev,
      agentLoop w fuel l st
      = (Returned {| iteration := MAX_ITERATIONS; finalMessage := finalMessage l |},
         st', ev) /\
      chatRequests ev = fuel.
Proof.
  induction fuel as [|fuel IH]; intros l st Hfuel Hrounds.
  - exists st, []. simpl. rewrite Nat.add_0_r in Hfuel. rewrite <- Hfuel.
    now destruct l.
  - simpl. assert (Hlt : (iteration l <? MAX_ITERATIONS)%nat = true)
      by (apply Nat.ltb_lt; lia).
    rewrite Hlt.
    destruct (iterate_tool_round w l st) as (st1 & ev1 & Hrun & Hcount).
    { apply Hrounds. lia. }
    destruct (IH (next l) st1) as (st2 & ev2 & Hrest & Hcount2).
    { simpl. lia. }
    { intros i messages tools Hi. apply Hrounds. simpl in Hi. lia. }
    unfold bind. rewrite Hrun, Hrest.
    eexists; eexists. split; [reflexivity|].
    rewrite chatRequests_app, Hcount, Hcount2. reflexivity.
Qed.

End StructuredFacts.

(** The structured half of C8: twenty rounds that all ask for tools. *)
Lemma structured_cap_reached (w : World) (st : Structured.State)
    (userCommand : jsstring) :
  Structured.isInitialized st = true \/ canSetUp w ->
  (forall i messages tools, (1 <= i <= Structured.MAX_ITERATIONS)%nat ->
                            structuredToolRound w i messages tools) ->
  exists st' events,
    Structured.executeCommand w userCommand st
    = (Returned cannedMessage, st', events) /\
    chatRequests events = Structured.MAX_ITERATIONS.
Proof.
  intros Hready Hrounds. unfold Structured.executeCommand.
  destruct (StructuredFacts.command_prologue w userCommand st Hready)
    as (st0 & ev0 & -> & Hchat & _).
  destruct (StructuredFacts.rounds_to_cap w Structured.MAX_ITERATIONS
              {| Structured.iteration := 0; Structured.finalMessage := [] |} st0)
    as (st1 & ev1 & Hrun & Hcount).
  - reflexivity.
  - intros i messages tools Hi. apply Hrounds. simpl in Hi. lia.
  - unfold bind. rewrite Hrun. simpl.
    eexists; eexists. split; [reflexivity|].
    rewrite !chatRequests_app, Hchat, Hcount. reflexivity.
Qed.

(** C8, amended: a command whose every round, up to the cap, asks for
    tools that are run comes back with the canned message; ten requests
    in the free-text variant, twenty in the structured one. *)
Theorem cap_reached_returns_canned_message :
  (forall (w : World) (st : FreeText.State) (userCommand : jsstring),
     FreeText.isInitialized st = true \/ canSetUp w ->
     (forall i messages, (1 <= i <= 10)%nat -> freeTextToolRound w i messages) ->
     exists st' events,
       FreeText.executeCommand w userCommand st
       = (Returned (JString (js "Maximum iterations reached. Task may be incomplete.")),
          st', events) /\
       chatRequests events = 10%nat) /\
  (forall (w : World) (st : Structured.State) (userCommand : jsstring),
     Structured.isInitialized st = true \/ canSetUp w ->
     (forall i messages tools, (1 <= i <= 20)%nat ->
                               structuredToolRound w i messages tools) ->
     exists st' events,
       Structured.executeCommand w userCommand st
       = (Returned (js "Maximum iterations reached. Task may be incomplete."),
          st', events) /\
       chatRequests events = 20%nat).
Proof.
  split.
  - intros w st userCommand Hready Hrounds.
    exact (freetext_cap_reached w st userCommand Hready Hrounds).
  - intros w st userCommand Hready Hrounds.
    exact (structured_cap_reached w st userCommand Hready Hrounds).
Qed.

Lemma cap_reached_returns_canned_message_run :
  (exists st' events,
     FreeText.executeCommand Scenarios.keepsSearching (js "find x") FreeText.loaded
     = (Returned (JString (js "Maximum iterations reached. Task may be incomplete.")),
        st', events) /\
     chatRequests events = 10%nat) /\
  (exists st' events,
     Structured.executeCommand Scenarios.keepsNavigating (js "open it") Structured.loaded
     = (Returned (js "Maximum iterations reached. Task may be incomplete."),
        st', events) /\
     chatRequests events = 20%nat).
Proof.
  split.
  - apply (proj1 cap_reached_returns_canned_message).
    + right. split; [reflexivity|]. exists []. reflexivity.
    + intros i messages _.
      exists (assistantText Scenarios.searchX),
        (JObject [ (js "tool", JString (js "search"));
                   (js "arguments", JObject [ (js "q", JString (js "x")) ]) ]),
        None, (JString (js "search")), (JObject [ (js "q", JString (js "x")) ]),
        (JObject []), (js "search").
      repeat split; first [exact parse_searchX | reflexivity].
  - apply (proj2 cap_reached_returns_canned_message).
    + right. split; [reflexivity|]. exists [Scenarios.navigate]. reflexivity.
    + intros i messages tools _.
      exists {| am_content := None; am_tool_calls := [Scenarios.callNavigate] |}.
      split; [reflexivity|]. split; [discriminate|vm_compute; reflexivity].
Defined.

(** Reaching the cap is not enough.  In the free-text variant nine
    searches that are served, then JSON that is no directive: ten
    requests, no answer produced, and the command returns the empty
    string.  In the structured variant nineteen navigations that are
    served, then a call whose arguments are cut short: twenty requests,
    and the command throws. *)
Lemma cap_reached_without_canned_message :
  (resultOf (FreeText.executeCommand MoreScenarios.searchesThenStops (js "find x")
               FreeText.loaded)
   = Returned (JString []) /\
   JString [] <> JString cannedMessage /\
   chatRequests (eventsOf (FreeText.executeCommand MoreScenarios.searchesThenStops
                             (js "find x") FreeText.loaded)) = 10%nat) /\
  (resultOf (Structured.executeCommand MoreScenarios.navigatesThenBreaks
               (js "open it") Structured.loaded)
   = Threw SyntaxError /\
   chatRequests (eventsOf (Structured.executeCommand MoreScenarios.navigatesThenBreaks
                             (js "open it") Structured.loaded)) = 20%nat).
Proof.
  split; [split; [|split]|split]; try discriminate; vm_compute; reflexivity.
Qed.

(** C2 (the code departs from it): setup assigns the converted remote
    descriptors to [openAITools], over the local ones pushed when the
    module was loaded.  Unless the provider itself lists a tool of that
    name, no descriptor of a local function is advertised afterwards. *)
Theorem initialize_drops_local_descriptors (w : World) (st : Structured.State)
    (mcpTools : list McpTool) :
  Structured.isInitialized st = false ->
  connect w = Resolves tt ->
  getAllTools w = Resolves mcpTools ->
  Structured.openAITools (stateOf (Structured.initialize w st))
  = map Structured.convertMCPToolToOpenAIFunction mcpTools /\
  (Forall (fun t => mcp_name t <> js "describe_image") mcpTools ->
   forall local, In local Structured.customFunctions ->
                 ~ In local (Structured.openAITools
                               (stateOf (Structured.initialize w st)))).
Proof.
  intros Hinit Hconn Htools.
  rewrite (StructuredFacts.initialize_fresh w st mcpTools Hinit Hconn Htools).
  unfold stateOf. simpl. split; [reflexivity|].
  intros Hnames local [<-|[]] Hin.
  apply in_map_iff in Hin as (t & Hconv & Ht).
  rewrite Forall_forall in Hnames. apply (Hnames t Ht).
  apply (f_equal tool_name) in Hconv. exact Hconv.
Qed.

Lemma initialize_drops_local_descriptors_run :
  Structured.openAITools
    (stateOf (Structured.initialize Scenarios.navigateThenDone Structured.loaded))
  = map Structured.convertMCPToolToOpenAIFunction [Scenarios.navigate] /\
  (Forall (fun t => mcp_name t <> js "describe_image") [Scenarios.navigate] ->
   forall local, In local Structured.customFunctions ->
                 ~ In local (Structured.openAITools
                               (stateOf (Structured.initialize
                                           Scenarios.navigateThenDone
                                           Structured.loaded)))).
Proof.
  apply (initialize_drops_local_descriptors Scenarios.navigateThenDone
           Structured.loaded [Scenarios.navigate]); reflexivity.
Defined.

(** C4 (the code departs from it): the structured variant runs the
    trimming check once per command, after the user message.  In the run
    below a tool result is appended and the next event is the following
    request to the LLM, not the check. *)
Theorem structured_skips_trim_after_tool_result :
  (forall (w : World) (userCommand : jsstring) (st : Structured.State),
     (trimChecks (eventsOf (Structured.executeCommand w userCommand st)) <= 1)%nat) /\
  resultOf (Structured.executeCommand Scenarios.navigateThenDone
              (js "open example.com") Structured.loaded)
  = Returned (js "Done.") /\
  pushedBy (eventsOf (Structured.executeCommand Scenarios.navigateThenDone
                        (js "open example.com") Structured.loaded))
  = [ plainMessage system Prompts.structured;
      plainMessage user (js "open example.com");
      asChatMessage {| am_content := None;
                       am_tool_calls := [Scenarios.callNavigate] |};
      toolMessage (js "call_1") (js "{}");
      plainMessage assistant (js "Done.") ] /\
  trimChecks (eventsOf (Structured.executeCommand Scenarios.navigateThenDone
                          (js "open example.com") Structured.loaded)) = 1%nat /\
  resultsChecked isToolMessage
    (eventsOf (Structured.executeCommand Scenarios.navigateThenDone
                 (js "open example.com") Structured.loaded)) = false.
Proof.
  split; [intros w userCommand st; apply StructuredFacts.executeCommand_trims_once|].
  repeat split; vm_compute; reflexivity.
Qed.

(** ** Replies that end a command with the empty string, or with the text *)

(** Valid JSON other than [null] with neither shape: the empty string. *)
Lemma freetext_other_json_returns_empty (w : World) (st : FreeText.State)
    (userCommand : jsstring) (message : option AssistantMessage) (parsed : json)
    (done toolName arguments : option json) :
  FreeText.isInitialized st = true \/ canSetUp w ->
  (forall messages, createCompletion w 1 messages None = Resolves message) ->
  JSON_parse (FreeText.llmOutputOf message) = Some parsed ->
  getProperty parsed (js "done") = Some done ->
  isTrue done = false ->
  getProperty parsed (js "tool") = Some toolName ->
  getProperty parsed (js "arguments") = Some arguments ->
  truthy toolName && truthy arguments = false ->
  exists st' events,
    FreeText.executeCommand w userCommand st = (Returned (JString []), st', events).
Proof.
  intros Hready Hreply Hp Hd Hnot Hn Ha Hfalsy.
  destruct (FreeTextFacts.first_round_ends w userCommand st message (JString []) []
              Hready Hreply eq_refl)
    as (st' & events & _ & Hrun & _).
  - intros st1. exists st1. left.
    now rewrite (FreeTextFacts.interpret_other w _ st1 _ parsed done toolName arguments).
  - now exists st', events.
Qed.

(** A completion directive without a truthy message: the empty string. *)
Lemma freetext_done_without_message_returns_empty (w : World) (st : FreeText.State)
    (userCommand : jsstring) (message : option AssistantMessage) (parsed : json)
    (done text : option json) :
  FreeText.isInitialized st = true \/ canSetUp w ->
  (forall messages, createCompletion w 1 messages None = Resolves message) ->
  JSON_parse (FreeText.llmOutputOf message) = Some parsed ->
  getProperty parsed (js "done") = Some done ->
  isTrue done = true ->
  getProperty parsed (js "message") = Some text ->
  truthy text = false ->
  exists st' events,
    FreeText.executeCommand w userCommand st = (Returned (JString []), st', events).
Proof.
  intros Hready Hreply Hp Hd Hdone Hm Hfalsy.
  destruct (FreeTextFacts.first_round_ends w userCommand st message (JString []) []
              Hready Hreply eq_refl)
    as (st' & events & _ & Hrun & _).
  - intros st1. exists st1. left.
    rewrite (FreeTextFacts.interpret_done w _ st1 _ parsed done text) by assumption.
    rewrite Hfalsy. now destruct text.
  - now exists st', events.
Qed.

(** A text that is not JSON is the answer. *)
Lemma freetext_plain_text_is_answer (w : World) (st : FreeText.State)
    (userCommand : jsstring) (message : option AssistantMessage) :
  FreeText.isInitialized st = true \/ canSetUp w ->
  (forall messages, createCompletion w 1 messages None = Resolves message) ->
  JSON_parse (FreeText.llmOutputOf message) = None ->
  exists st' events,
    FreeText.executeCommand w userCommand st
    = (Returned (JString (FreeText.llmOutputOf message)), st', events).
Proof.
  intros Hready Hreply Hp.
  destruct (FreeTextFacts.first_round_ends w userCommand st message
              (JString (FreeText.llmOutputOf message)) [] Hready Hreply eq_refl)
    as (st' & events & _ & Hrun & _).
  - intros st1. exists st1. right. split; [reflexivity|].
    exists SyntaxError. now apply FreeTextFacts.interpret_not_json.
  - now exists st', events.
Qed.

(** A structured reply with no message, or with neither tool calls nor
    text, in the first round: the empty string. *)
Lemma structured_degenerate_reply_returns_empty (w : World) (st : Structured.State)
    (userCommand : jsstring) (choice : option AssistantMessage) :
  Structured.isInitialized st = true \/ canSetUp w ->
  (forall messages tools,
     createCompletion w 1 messages (Some tools) = Resolves choice) ->
  (choice = None \/
   exists message, choice = Some message /\ am_tool_calls message = [] /\
                   (am_content message = None \/ am_content message = Some [])) ->
  exists st' events,
    Structured.executeCommand w userCommand st = (Returned [], st', events).
Proof.
  intros Hready Hreply Hshape. unfold Structured.executeCommand.
  destruct (StructuredFacts.command_prologue w userCommand st Hready)
    as (st0 & ev0 & -> & _).
  unfold Structured.MAX_ITERATIONS at 1. cbn [Structured.agentLoop].
  change ((Structured.iteration {| Structured.iteration := 0;
                                   Structured.finalMessage := [] |}
           <? Structured.MAX_ITERATIONS)%nat) with true.
  cbv iota. unfold Structured.iterate. cbv zeta.
  unfold bind, gets, emit, await. cbn [Structured.iteration Structured.next].
  rewrite Hreply.
  destruct Hshape as [->|(message & -> & Hcalls & Hcontent)].
  - unfold ret. cbv beta iota. eexists; eexists; reflexivity.
  - unfold ret, Structured.push, bind, modify, emit. cbv beta iota.
    rewrite Hcalls. destruct Hcontent as [->| ->]; cbv beta iota;
      eexists; eexists; reflexivity.
Qed.

(** ** The free-text variant checks the budget after every tool result *)

Lemma resultsChecked_app (isResult : ChatMessage -> bool) (a b : list Event)
    (next : Event) :
  isTrim next = false ->
  resultsChecked isResult (a ++ [next]) = true ->
  resultsChecked isResult (b ++ [next]) = true ->
  resultsChecked isResult ((a ++ b) ++ [next]) = true.
Proof.
  intros Hnext Ha Hb. induction a as [|e a IH]; [exact Hb|].
  destruct e; simpl in *; auto.
  apply andb_true_iff in Ha as [Hhead Htail].
  rewrite (IH Htail), andb_true_r.
  destruct (isResult msg); [|reflexivity].
  destruct a as [|e' a']; [|exact Hhead].
  simpl in Hhead. destruct next; discriminate.
Qed.

Lemma checked_bind {S A B} (m : M S A) (k : A -> M S B) :
  checkedAfterResults isFreeTextResult m ->
  (forall a, checkedAfterResults isFreeTextResult (k a)) ->
  checkedAfterResults isFreeTextResult (bind m k).
Proof.
  intros Hm Hk st. unfold bind. specialize (Hm st).
  destruct (m st) as [[[a|e] st1] ev1]; [|exact Hm].
  specialize (Hk a st1). destruct (k a st1) as [[r st2] ev2].
  unfold eventsOf in *. simpl in *. now apply resultsChecked_app.
Qed.

Lemma checked_tryCatch {S A} (m : M S A) (handler : Thrown -> M S A) :
  checkedAfterResults isFreeTextResult m ->
  (forall e, checkedAfterResults isFreeTextResult (handler e)) ->
  checkedAfterResults isFreeTextResult (tryCatch m handler).
Proof.
  intros Hm Hk st. unfold tryCatch. specialize (Hm st).
  destruct (m st) as [[[a|e] st1] ev1]; [exact Hm|].
  specialize (Hk e st1). destruct (handler e st1) as [[r st2] ev2].
  unfold eventsOf in *. simpl in *. now apply resultsChecked_app.
Qed.

Lemma checked_quiet {S A} (m : M S A) :
  (forall st, eventsOf (m st) = []) -> checkedAfterResults isFreeTextResult m.
Proof. intros H st. now rewrite H. Qed.

Lemma checked_ret {S A} (a : A) : checkedAfterResults isFreeTextResult (@ret S A a).
Proof. now apply checked_quiet. Qed.

Lemma checked_orThrow {S A} (e : Thrown) (o : option A) :
  checkedAfterResults isFreeTextResult (@orThrow S A e o).
Proof. apply checked_quiet. intro st. now destruct o. Qed.

Lemma checked_await {S A} (o : Outcome A) :
  checkedAfterResults isFreeTextResult (@await S A o).
Proof. apply checked_quiet. intro st. now destruct o. Qed.

Lemma checked_emit {S} (ev : Event) :
  (forall msg, ev <> EvPush msg) -> checkedAfterResults isFreeTextResult (@emit S ev).
Proof.
  intros H st. unfold emit, eventsOf. simpl.
  destruct ev; try reflexivity. now destruct (H msg).
Qed.

Lemma checked_push (msg : ChatMessage) :
  isFreeTextResult msg = false -> checkedAfterResults isFreeTextResult (FreeText.push msg).
Proof.
  intros H st. unfold FreeText.push, bind, modify, emit, eventsOf. simpl.
  now rewrite H.
Qed.

Lemma checked_interpret (w : World) (l : FreeText.Locals) (text : jsstring) :
  checkedAfterResults isFreeTextResult (FreeText.interpret w l text).
Proof.
  unfold FreeText.interpret.
  apply checked_bind; [apply checked_orThrow|]. intros parsed.
  apply checked_bind; [apply checked_orThrow|]. intros done.
  destruct (isTrue done).
  - apply checked_bind; [apply checked_orThrow|]. intros message. apply checked_ret.
  - apply checked_bind; [apply checked_orThrow|]. intros toolName.
    apply checked_bind; [apply checked_orThrow|]. intros arguments.
    destruct toolName as [name|], arguments as [args|]; try apply checked_ret.
    destruct (truthy (Some name) && truthy (Some args)); [|apply checked_ret].
    apply checked_bind; [apply checked_orThrow|]. intros toolText.
    apply checked_bind; [apply checked_emit; discriminate|]. intros _.
    apply checked_bind; [apply checked_await|]. intros mcpResult. cbv zeta.
    (* the result is appended and the check follows at once *)
    intros st. unfold FreeText.push, FreeText.trimHistoryM.
    unfold bind, modify, emit, ret, eventsOf. simpl.
    reflexivity.
Qed.

Lemma checked_iterate (w : World) (l : FreeText.Locals) :
  checkedAfterResults isFreeTextResult (FreeText.iterate w l).
Proof.
  unfold FreeText.iterate. cbv zeta.
  apply checked_bind; [now apply checked_quiet|]. intros messages.
  apply checked_bind; [apply checked_emit; discriminate|]. intros _.
  apply checked_bind; [apply checked_await|]. intros message.
  apply checked_bind; [now apply checked_push|]. intros _.
  apply checked_tryCatch; [apply checked_interpret|]. intros _. apply checked_ret.
Qed.

Lemma checked_agentLoop (w : World) (fuel : nat) :
  forall l, checkedAfterResults isFreeTextResult (FreeText.agentLoop w fuel l).
Proof.
  induction fuel as [|fuel IH]; intro l; simpl; [apply checked_ret|].
  destruct (negb (FreeText.taskComplete l)
            && (FreeText.iteration l <? FreeText.MAX_ITERATIONS)%nat);
    [|apply checked_ret].
  apply checked_bind; [apply checked_iterate|]. exact IH.
Qed.

(** In the free-text variant the trimming check follows every tool
    result that a command appends. *)
Lemma freetext_checks_after_tool_results (w : World) (userCommand : jsstring) :
  checkedAfterResults isFreeTextResult (FreeText.executeCommand w userCommand).
Proof.
  unfold FreeText.executeCommand.
  apply checked_bind.
  - unfold FreeText.initialize.
    apply checked_bind; [now apply checked_quiet|]. intros [|]; [apply checked_ret|].
    apply checked_bind; [apply checked_emit; discriminate|]. intros _.
    apply checked_bind; [apply checked_await|]. intros _.
    apply checked_bind; [apply checked_emit; discriminate|]. intros _.
    apply checked_bind; [apply checked_await|]. intros tools.
    apply checked_bind; [now apply checked_push|]. intros _.
    now apply checked_quiet.
  - intros _. apply checked_bind; [now apply checked_push|]. intros _.
    apply checked_bind.
    + intro st. reflexivity.
    + intros _. apply checked_bind; [apply checked_agentLoop|]. intros l.
      destruct ((FreeText.MAX_ITERATIONS <=? FreeText.iteration l)%nat
                && negb (FreeText.taskComplete l)); apply checked_ret.
Qed.


(** * Further properties of the agent *)

(** ** Running a sequence *)

Lemma eventsOf_bind {S A B} (m : M S A) (k : A -> M S B) (st : S) :
  eventsOf (bind m k st)
  = eventsOf (m st)
    ++ match resultOf (m st) with
       | Returned a => eventsOf (k a (stateOf (m st)))
       | Threw _ => []
       end.
Proof.
  unfold bind, eventsOf, resultOf, stateOf.
  destruct (m st) as [[[a|e] st1] ev1]; simpl; [|now rewrite app_nil_r].
  now destruct (k a st1) as [[r st2] ev2].
Qed.

Lemma stateOf_bind {S A B} (m : M S A) (k : A -> M S B) (st : S) :
  stateOf (bind m k st)
  = match resultOf (m st) with
    | Returned a => stateOf (k a (stateOf (m st)))
    | Threw _ => stateOf (m st)
    end.
Proof.
  unfold bind, resultOf, stateOf.
  destruct (m st) as [[[a|e] st1] ev1]; simpl; [|reflexivity].
  now destruct (k a st1) as [[r st2] ev2].
Qed.

Lemma resultOf_bind {S A B} (m : M S A) (k : A -> M S B) (st : S) :
  resultOf (bind m k st)
  = match resultOf (m st) with
    | Returned a => resultOf (k a (stateOf (m st)))
    | Threw e => Threw e
    end.
Proof.
  unfold bind, resultOf, stateOf.
  destruct (m st) as [[[a|e] st1] ev1]; simpl; [|reflexivity].
  now destruct (k a st1) as [[r st2] ev2].
Qed.

(** ** More on trimming *)

(** X1: once the trimming check fires on a history with a system
    message, what is left weighs at most that message plus the target;
    with a system message under 240000 code units the history is back
    below the trigger. *)
Theorem trimHistory_bound (h : list ChatMessage) (sys : ChatMessage) :
  TRIM_THRESHOLD <= calculateHistoryLength h ->
  find isSystem h = Some sys ->
  calculateHistoryLength (trimHistory h) <= contentLength sys + targetLength /\
  (contentLength sys < TRIM_THRESHOLD - targetLength ->
   calculateHistoryLength (trimHistory h) < TRIM_THRESHOLD).
Proof.
  intros Hbig Hfind. unfold trimHistory.
  apply Z.ltb_ge in Hbig. rewrite Hbig, Hfind. cbv zeta.
  destruct (collectRecent_suffix (filter notSystem h))
    as (dropped & kept & _ & -> & Hle & _).
  rewrite total_cons. split; lia.
Qed.

Lemma trimHistory_bound_crowded :
  calculateHistoryLength (trimHistory Samples.crowded)
  <= contentLength Samples.sys0 + targetLength /\
  (contentLength Samples.sys0 < TRIM_THRESHOLD - targetLength ->
   calculateHistoryLength (trimHistory Samples.crowded) < TRIM_THRESHOLD).
Proof.
  apply (trimHistory_bound Samples.crowded Samples.sys0).
  - rewrite crowded_total. vm_compute. discriminate.
  - reflexivity.
Defined.

(** X2: trimming invents nothing: every message of the result is a
    message of the history, and there are no more of them. *)
Theorem trimHistory_incl (h : list ChatMessage) :
  incl (trimHistory h) h /\
  (List.length (trimHistory h) <= List.length h)%nat.
Proof.
  destruct (trimHistory_cases h)
    as [->|(sys & dropped & kept & _ & Hfind & Hsplit & -> & _)].
  - split; [apply incl_refl|lia].
  - assert (Hkept : incl kept h).
    { intros m Hm. assert (Hin : In m (filter notSystem h))
        by (rewrite Hsplit; apply in_or_app; now right).
      now apply filter_In in Hin. }
    split.
    + intros m [<-|Hm]; [now apply find_some in Hfind|now apply Hkept].
    + assert (Hlen : (List.length (filter notSystem h) + 1 <= List.length h)%nat).
      { clear - Hfind. induction h as [|m h IH]; [discriminate|].
        simpl in *. unfold notSystem at 1.
        destruct (isSystem m); simpl.
        - pose proof (filter_length_le notSystem h). lia.
        - specialize (IH Hfind). lia. }
      rewrite Hsplit, length_app in Hlen. simpl. lia.
Qed.

(** The newest message alone is over the target: nothing but the system
    message survives. *)
Lemma trimHistory_oversized_newest (h older : list ChatMessage)
    (sys newest : ChatMessage) :
  TRIM_THRESHOLD <= calculateHistoryLength h ->
  find isSystem h = Some sys ->
  filter notSystem h = older ++ [newest] ->
  targetLength < contentLength newest ->
  trimHistory h = [sys].
Proof.
  intros Hbig Hfind Hsplit Hlong. unfold trimHistory.
  apply Z.ltb_ge in Hbig. rewrite Hbig, Hfind. cbv zeta.
  rewrite Hsplit, rev_app_distr. cbn [rev app collectRecent]. cbv zeta.
  assert (H : (0 + contentLength newest >? targetLength) = true)
    by (apply Z.gtb_lt; lia).
  now rewrite H.
Qed.

(** A history that starts with a system message and ends with a user
    message of at least the trigger threshold is trimmed down to the
    system message. *)
Lemma trimHistory_long_command (sys : ChatMessage) (rest : list ChatMessage)
    (userCommand : jsstring) :
  isSystem sys = true ->
  TRIM_THRESHOLD <= jslength userCommand ->
  trimHistory ((sys :: rest) ++ [plainMessage user userCommand]) = [sys].
Proof.
  intros Hsys Hlong.
  apply (trimHistory_oversized_newest _ (filter notSystem rest) sys
           (plainMessage user userCommand)).
  - rewrite total_app, total_cons, total_cons, total_nil, contentLength_plain.
    pose proof (contentLength_nonneg sys). pose proof (total_nonneg rest). lia.
  - simpl. now rewrite Hsys.
  - simpl. unfold notSystem at 1. rewrite Hsys. simpl.
    now rewrite filter_app.
  - rewrite contentLength_plain.
    assert (targetLength < TRIM_THRESHOLD) by (vm_compute; reflexivity). lia.
Qed.

(** ** Invariants of computations *)

Lemma keepsWith_bind {S A B} (inv : S -> Prop) (ok : Event -> Prop)
    (m : M S A) (k : A -> M S B) :
  keepsWith inv ok m -> (forall a, keepsWith inv ok (k a)) ->
  keepsWith inv ok (bind m k).
Proof.
  intros Hm Hk st Hinv. destruct (Hm st Hinv) as [Hst Hev].
  rewrite stateOf_bind, eventsOf_bind.
  destruct (resultOf (m st)) as [a|e].
  - destruct (Hk a _ Hst) as [Hst' Hev']. split; [exact Hst'|].
    apply Forall_app. now split.
  - split; [exact Hst|]. now rewrite app_nil_r.
Qed.

Lemma keepsWith_tryCatch {S A} (inv : S -> Prop) (ok : Event -> Prop)
    (m : M S A) (handler : Thrown -> M S A) :
  keepsWith inv ok m -> (forall e, keepsWith inv ok (handler e)) ->
  keepsWith inv ok (tryCatch m handler).
Proof.
  intros Hm Hk st Hinv. destruct (Hm st Hinv) as [Hst Hev].
  unfold tryCatch, stateOf, eventsOf in *.
  destruct (m st) as [[[a|e] st1] ev1]; simpl in *; [now split|].
  destruct (Hk e st1 Hst) as [Hst' Hev'].
  unfold stateOf, eventsOf in *.
  destruct (handler e st1) as [[r st2] ev2]. simpl in *.
  split; [exact Hst'|]. apply Forall_app. now split.
Qed.

Lemma keepsWith_still {S A} (inv : S -> Prop) (ok : Event -> Prop) (m : M S A) :
  (forall st, stateOf (m st) = st /\ eventsOf (m st) = []) ->
  keepsWith inv ok m.
Proof.
  intros H st Hinv. destruct (H st) as [-> ->]. now split.
Qed.

Lemma keepsWith_ret {S A} (inv : S -> Prop) (ok : Event -> Prop) (a : A) :
  keepsWith inv ok (@ret S A a).
Proof. now apply keepsWith_still. Qed.

Lemma keepsWith_gets {S A} (inv : S -> Prop) (ok : Event -> Prop) (f : S -> A) :
  keepsWith inv ok (gets f).
Proof. now apply keepsWith_still. Qed.

Lemma keepsWith_await {S A} (inv : S -> Prop) (ok : Event -> Prop) (o : Outcome A) :
  keepsWith inv ok (@await S A o).
Proof. apply keepsWith_still. intro st. now destruct o. Qed.

Lemma keepsWith_orThrow {S A} (inv : S -> Prop) (ok : Event -> Prop)
    (e : Thrown) (o : option A) :
  keepsWith inv ok (@orThrow S A e o).
Proof. apply keepsWith_still. intro st. now destruct o. Qed.

Lemma keepsWith_emit {S} (inv : S -> Prop) (ok : Event -> Prop) (ev : Event) :
  ok ev -> keepsWith inv ok (@emit S ev).
Proof. intros H st Hinv. split; [exact Hinv|]. now constructor. Qed.

Lemma keepsWith_modify {S} (inv : S -> Prop) (ok : Event -> Prop) (f : S -> S) :
  (forall st, inv st -> inv (f st)) -> keepsWith inv ok (modify f).
Proof. intros H st Hinv. split; [now apply H|constructor]. Qed.

Lemma keepsWith_gets_known {S A B} (inv : S -> Prop) (ok : Event -> Prop)
    (f : S -> A) (v : A) (k : A -> M S B) :
  (forall st, inv st -> f st = v) ->
  keepsWith inv ok (k v) ->
  keepsWith inv ok (bind (gets f) k).
Proof.
  intros Hf Hk st Hinv. specialize (Hk st Hinv).
  unfold bind, gets, stateOf, eventsOf in *. rewrite (Hf st Hinv).
  now destruct (k v st) as [[r st'] ev].
Qed.

Lemma startsWithSystem_push (sys msg : ChatMessage) (h : list ChatMessage) :
  startsWithSystem sys h -> startsWithSystem sys (h ++ [msg]).
Proof.
  intros [Hsys [rest ->]]. split; [exact Hsys|]. now exists (rest ++ [msg]).
Qed.

Lemma startsWithSystem_trim (sys : ChatMessage) (h : list ChatMessage) :
  startsWithSystem sys h -> startsWithSystem sys (trimHistory h).
Proof.
  intros [Hsys [rest ->]]. split; [exact Hsys|].
  exact (applyOp_head sys rest Trim Hsys).
Qed.

Lemma startsWithSystem_invariant (sys : ChatMessage) :
  storeInvariant (startsWithSystem sys).
Proof.
  split; [intros h msg; apply startsWithSystem_push|apply startsWithSystem_trim].
Qed.

Lemma trivial_invariant : storeInvariant (fun _ => True).
Proof. now split. Qed.

(** ** The structured variant after setup *)

Module StructuredMore.

Import Structured.

Section Settled.

Variable w : World.
Variable P : list ChatMessage -> Prop.
Variable tools : list ChatCompletionTool.
Hypothesis HP : storeInvariant P.

Lemma structured_push_settled (msg : ChatMessage) : keepsWith (structuredSettled P tools) (afterSetup (Some tools)) (push msg).
Proof.
  unfold push. apply keepsWith_bind.
  - apply keepsWith_modify. intros st (Hi & Hs & Ht).
    split; [exact Hi|]. split; [|exact Ht]. now apply (proj1 HP).
  - intros _. apply keepsWith_emit. now split.
Qed.

Lemma structured_trimHistoryM_settled : keepsWith (structuredSettled P tools) (afterSetup (Some tools)) trimHistoryM.
Proof.
  unfold trimHistoryM. apply keepsWith_bind.
  - apply keepsWith_emit. now split.
  - intros _. apply keepsWith_modify. intros st (Hi & Hs & Ht).
    split; [exact Hi|]. split; [|exact Ht]. now apply (proj2 HP).
Qed.

Lemma structured_initialize_settled : keepsWith (structuredSettled P tools) (afterSetup (Some tools)) (initialize w).
Proof.
  intros st Hinv. destruct Hinv as (Hi & Hs & Ht).
  rewrite (StructuredFacts.initialize_again w st Hi).
  split; [now split|constructor].
Qed.

Lemma structured_runToolCall_settled (i k : nat) (toolCall : ToolCall) :
  keepsWith (structuredSettled P tools) (afterSetup (Some tools)) (runToolCall w i k toolCall).
Proof.
  unfold runToolCall. destruct (call_type toolCall); [|apply keepsWith_ret].
  apply keepsWith_bind; [apply keepsWith_orThrow|]. intros functionArgs.
  destruct (isCustomFunction (fn_name toolCall)).
  - unfold executeCustomFunction.
    destruct (jsstring_eqb _ _); [|apply keepsWith_ret].
    apply keepsWith_bind; [apply keepsWith_orThrow|]. intros imageUrl.
    destruct (templateText w imageUrl) as [urlText|];
      [|apply structured_push_settled].
    apply keepsWith_bind; [apply keepsWith_emit; now split|]. intros _.
    destruct (describeImage w i k imageUrl); apply structured_push_settled.
  - apply keepsWith_bind; [apply keepsWith_emit; now split|]. intros _.
    destruct (callTool w i k _ functionArgs); apply structured_push_settled.
Qed.

Lemma structured_runToolCalls_settled (i : nat) (calls : list ToolCall) :
  forall k, keepsWith (structuredSettled P tools) (afterSetup (Some tools)) (runToolCalls w i k calls).
Proof.
  induction calls as [|toolCall rest IH]; intro k; simpl.
  - apply keepsWith_ret.
  - apply keepsWith_bind; [apply structured_runToolCall_settled|]. intros _. apply IH.
Qed.

Lemma structured_iterate_settled (l : Locals) : keepsWith (structuredSettled P tools) (afterSetup (Some tools)) (iterate w l).
Proof.
  unfold iterate. cbv zeta.
  apply keepsWith_bind; [apply keepsWith_gets|]. intros messages.
  apply (keepsWith_gets_known _ _ openAITools tools);
    [now intros st (_ & _ & Ht)|].
  apply keepsWith_bind; [apply keepsWith_emit; now split|]. intros _.
  apply keepsWith_bind; [apply keepsWith_await|]. intros [message|];
    [|apply keepsWith_ret].
  apply keepsWith_bind; [apply structured_push_settled|]. intros _.
  destruct (am_tool_calls message).
  - destruct (am_content message) as [[|c s]|]; apply keepsWith_ret.
  - apply keepsWith_bind; [apply structured_runToolCalls_settled|]. intros _.
    apply keepsWith_ret.
Qed.

Lemma structured_agentLoop_settled (fuel : nat) :
  forall l, keepsWith (structuredSettled P tools) (afterSetup (Some tools)) (agentLoop w fuel l).
Proof.
  induction fuel as [|fuel IH]; intro l; simpl; [apply keepsWith_ret|].
  destruct (iteration l <? MAX_ITERATIONS)%nat; [|apply keepsWith_ret].
  apply keepsWith_bind; [apply structured_iterate_settled|].
  intros [[|] l']; [apply keepsWith_ret|apply IH].
Qed.

(** What a command does once setup is behind it. *)
Lemma structured_afterInitialize_settled (userCommand : jsstring) :
  keepsWith (structuredSettled P tools) (afterSetup (Some tools))
    (push (plainMessage user userCommand) ;;
     trimHistoryM ;;
     l <- agentLoop w MAX_ITERATIONS {| iteration := 0; finalMessage := [] |} ;;
     if (MAX_ITERATIONS <=? iteration l)%nat
     then ret (orElse (Some (finalMessage l)) cannedMessage)
     else ret (finalMessage l))%agent.
Proof.
  apply keepsWith_bind; [apply structured_push_settled|]. intros _.
  apply keepsWith_bind; [apply structured_trimHistoryM_settled|]. intros _.
  apply keepsWith_bind; [apply structured_agentLoop_settled|]. intros l.
  destruct ((MAX_ITERATIONS <=? iteration l)%nat); apply keepsWith_ret.
Qed.

Lemma structured_executeCommand_settled (userCommand : jsstring) :
  keepsWith (structuredSettled P tools) (afterSetup (Some tools))
    (executeCommand w userCommand).
Proof.
  unfold executeCommand.
  apply keepsWith_bind; [apply structured_initialize_settled|]. intros _.
  apply structured_afterInitialize_settled.
Qed.

End Settled.

End StructuredMore.

(** ** The free-text variant after setup *)

Module FreeTextMore.

Import FreeText.

Section Settled.

Variable w : World.
Variable P : list ChatMessage -> Prop.
Hypothesis HP : storeInvariant P.

Lemma freetext_push_settled (msg : ChatMessage) :
  keepsWith (freeTextSettled P) (afterSetup None) (push msg).
Proof.
  unfold push. apply keepsWith_bind.
  - apply keepsWith_modify. intros st (Hi & Hs).
    split; [exact Hi|]. now apply (proj1 HP).
  - intros _. apply keepsWith_emit. now split.
Qed.

Lemma freetext_trimHistoryM_settled :
  keepsWith (freeTextSettled P) (afterSetup None) trimHistoryM.
Proof.
  unfold trimHistoryM. apply keepsWith_bind.
  - apply keepsWith_emit. now split.
  - intros _. apply keepsWith_modify. intros st (Hi & Hs).
    split; [exact Hi|]. now apply (proj2 HP).
Qed.

Lemma freetext_initialize_settled :
  keepsWith (freeTextSettled P) (afterSetup None) (initialize w).
Proof.
  intros st (Hi & Hs).
  assert (Hrun : initialize w st = (Returned tt, st, []))
    by (unfold initialize, bind, gets, ret; now rewrite Hi).
  rewrite Hrun. split; [now split|constructor].
Qed.

Lemma freetext_interpret_settled (l : Locals) (text : jsstring) :
  keepsWith (freeTextSettled P) (afterSetup None) (interpret w l text).
Proof.
  unfold interpret.
  apply keepsWith_bind; [apply keepsWith_orThrow|]. intros parsed.
  apply keepsWith_bind; [apply keepsWith_orThrow|]. intros done.
  destruct (isTrue done).
  - apply keepsWith_bind; [apply keepsWith_orThrow|]. intros message.
    apply keepsWith_ret.
  - apply keepsWith_bind; [apply keepsWith_orThrow|]. intros toolName.
    apply keepsWith_bind; [apply keepsWith_orThrow|]. intros arguments.
    destruct toolName as [name|], arguments as [args|]; try apply keepsWith_ret.
    destruct (truthy (Some name) && truthy (Some args)); [|apply keepsWith_ret].
    apply keepsWith_bind; [apply keepsWith_orThrow|]. intros toolText.
    apply keepsWith_bind; [apply keepsWith_emit; now split|]. intros _.
    apply keepsWith_bind; [apply keepsWith_await|]. intros mcpResult. cbv zeta.
    apply keepsWith_bind; [apply freetext_push_settled|]. intros _.
    apply keepsWith_bind; [apply freetext_trimHistoryM_settled|]. intros _.
    apply keepsWith_ret.
Qed.

Lemma freetext_iterate_settled (l : Locals) :
  keepsWith (freeTextSettled P) (afterSetup None) (iterate w l).
Proof.
  unfold iterate. cbv zeta.
  apply keepsWith_bind; [apply keepsWith_gets|]. intros messages.
  apply keepsWith_bind; [apply keepsWith_emit; now split|]. intros _.
  apply keepsWith_bind; [apply keepsWith_await|]. intros message.
  apply keepsWith_bind; [apply freetext_push_settled|]. intros _.
  apply keepsWith_tryCatch; [apply freetext_interpret_settled|]. intros _.
  apply keepsWith_ret.
Qed.

Lemma freetext_agentLoop_settled (fuel : nat) :
  forall l, keepsWith (freeTextSettled P) (afterSetup None) (agentLoop w fuel l).
Proof.
  induction fuel as [|fuel IH]; intro l; simpl; [apply keepsWith_ret|].
  destruct (negb (taskComplete l) && (iteration l <? MAX_ITERATIONS)%nat);
    [|apply keepsWith_ret].
  apply keepsWith_bind; [apply freetext_iterate_settled|]. exact IH.
Qed.

(** What a command does once setup is behind it. *)
Lemma freetext_afterInitialize_settled (userCommand : jsstring) :
  keepsWith (freeTextSettled P) (afterSetup None)
    (push (plainMessage user userCommand) ;;
     trimHistoryM ;;
     l <- agentLoop w MAX_ITERATIONS
            {| iteration := 0; taskComplete := false; finalMessage := JString [] |} ;;
     if (MAX_ITERATIONS <=? iteration l)%nat && negb (taskComplete l)
     then ret (JString cannedMessage)
     else ret (finalMessage l))%agent.
Proof.
  apply keepsWith_bind; [apply freetext_push_settled|]. intros _.
  apply keepsWith_bind; [apply freetext_trimHistoryM_settled|]. intros _.
  apply keepsWith_bind; [apply freetext_agentLoop_settled|]. intros l.
  destruct ((MAX_ITERATIONS <=? iteration l)%nat && negb (taskComplete l));
    apply keepsWith_ret.
Qed.

Lemma freetext_executeCommand_settled (userCommand : jsstring) :
  keepsWith (freeTextSettled P) (afterSetup None) (executeCommand w userCommand).
Proof.
  unfold executeCommand.
  apply keepsWith_bind; [apply freetext_initialize_settled|]. intros _.
  apply freetext_afterInitialize_settled.
Qed.

End Settled.

End FreeTextMore.

(** ** After setup: once only, the instruction first, the same tools *)

Lemma afterSetup_setupSteps (sent : option (list ChatCompletionTool))
    (events : list Event) :
  Forall (afterSetup sent) events -> setupSteps events = 0%nat.
Proof.
  unfold setupSteps. induction 1 as [|ev events [Hev _] _ IH]; [reflexivity|].
  simpl. now rewrite Hev.
Qed.

Lemma afterSetup_chatTools (sent : option (list ChatCompletionTool))
    (events : list Event) :
  Forall (afterSetup sent) events -> Forall (eq sent) (chatTools events).
Proof.
  induction 1 as [|ev events [_ Hev] _ IH]; [constructor|].
  destruct ev; simpl; auto.
Qed.

(** X3: setup runs once.  A command that finds the module initialized
    neither connects nor lists the tools, whatever happens next, and
    leaves the module initialized; a command that finds it not
    initialized and a provider that answers does both exactly once and
    leaves it initialized, also when the command itself fails later. *)
Theorem setup_runs_once (w : World) (userCommand : jsstring) :
  (forall st : FreeText.State,
     FreeText.isInitialized st = true ->
     setupSteps (eventsOf (FreeText.executeCommand w userCommand st)) = 0%nat /\
     FreeText.isInitialized (stateOf (FreeText.executeCommand w userCommand st))
     = true) /\
  (forall st : Structured.State,
     Structured.isInitialized st = true ->
     setupSteps (eventsOf (Structured.executeCommand w userCommand st)) = 0%nat /\
     Structured.isInitialized (stateOf (Structured.executeCommand w userCommand st))
     = true) /\
  (canSetUp w ->
   (forall st : FreeText.State,
      FreeText.isInitialized st = false ->
      setupSteps (eventsOf (FreeText.executeCommand w userCommand st)) = 2%nat /\
      FreeText.isInitialized (stateOf (FreeText.executeCommand w userCommand st))
      = true) /\
   (forall st : Structured.State,
      Structured.isInitialized st = false ->
      setupSteps (eventsOf (Structured.executeCommand w userCommand st)) = 2%nat /\
      Structured.isInitialized (stateOf (Structured.executeCommand w userCommand st))
      = true)).
Proof.
  split; [|split].
  - intros st Hinit.
    destruct (FreeTextMore.freetext_executeCommand_settled w (fun _ => True)
                trivial_invariant userCommand st (conj Hinit I)) as [[Hi _] Hev].
    split; [now apply afterSetup_setupSteps in Hev|exact Hi].
  - intros st Hinit.
    destruct (StructuredMore.structured_executeCommand_settled w (fun _ => True)
                (Structured.openAITools st) trivial_invariant userCommand st
                (conj Hinit (conj I eq_refl))) as [[Hi _] Hev].
    split; [now apply afterSetup_setupSteps in Hev|exact Hi].
  - intros (Hconn & tools & Htools). split.
    + intros st Hinit. unfold FreeText.executeCommand.
      assert (Hrun : FreeText.initialize w st
                     = (Returned tt,
                        {| FreeText.chatHistory :=
                             FreeText.chatHistory st
                             ++ [plainMessage system (FreeText.systemPrompt tools)];
                           FreeText.isInitialized := true |},
                        [EvConnect; EvGetAllTools;
                         EvPush (plainMessage system (FreeText.systemPrompt tools))])).
      { unfold FreeText.initialize, FreeText.push.
        unfold bind, gets, emit, await, modify, ret.
        now rewrite Hinit, Hconn, Htools. }
      rewrite eventsOf_bind, stateOf_bind. unfold resultOf at 1 2.
      rewrite Hrun. cbn [fst snd eventsOf stateOf].
      match goal with
      | |- context [stateOf (?m ?s)] =>
          destruct (FreeTextMore.freetext_afterInitialize_settled w (fun _ => True)
                      trivial_invariant userCommand s (conj eq_refl I))
            as [[Hi _] Hev]
      end.
      unfold stateOf, eventsOf in *. split; [|exact Hi].
      apply (afterSetup_setupSteps None) in Hev.
      unfold setupSteps in *. rewrite filter_app, length_app, Hev. reflexivity.
    + intros st Hinit. unfold Structured.executeCommand.
      rewrite eventsOf_bind, stateOf_bind. unfold resultOf at 1 2.
      rewrite (StructuredFacts.initialize_fresh w st tools Hinit Hconn Htools).
      cbn [fst snd eventsOf stateOf].
      match goal with
      | |- context [stateOf (?m ?s)] =>
          destruct (StructuredMore.structured_afterInitialize_settled w (fun _ => True)
                      (map Structured.convertMCPToolToOpenAIFunction tools)
                      trivial_invariant userCommand s (conj eq_refl (conj I eq_refl)))
            as [[Hi _] Hev]
      end.
      unfold stateOf, eventsOf in *. split; [|exact Hi].
      apply (afterSetup_setupSteps (Some _)) in Hev.
      unfold setupSteps in *. rewrite filter_app, length_app, Hev. reflexivity.
Qed.

Lemma setup_runs_once_run :
  setupSteps (eventsOf (FreeText.executeCommand MoreScenarios.chatty (js "hi")
                          FreeText.loaded)) = 2%nat /\
  FreeText.isInitialized
    (stateOf (FreeText.executeCommand MoreScenarios.chatty (js "hi") FreeText.loaded))
  = true.
Proof.
  apply (proj2 (proj2 (setup_runs_once MoreScenarios.chatty (js "hi")))).
  - split; [reflexivity|]. exists []. reflexivity.
  - reflexivity.
Defined.

(** X4: a command never moves the system instruction.  If the module is
    initialized and its history starts with a system-role message, the
    history starts with that message after the command, whether it
    returned or threw; and a command that sets the module up on an empty
    history leaves the system prompt at index 0. *)
Theorem command_keeps_system_prompt_first (w : World) (userCommand : jsstring) :
  (forall (st : FreeText.State) sys,
     FreeText.isInitialized st = true ->
     startsWithSystem sys (FreeText.chatHistory st) ->
     startsWithSystem sys
       (FreeText.chatHistory (stateOf (FreeText.executeCommand w userCommand st)))) /\
  (forall (st : Structured.State) sys,
     Structured.isInitialized st = true ->
     startsWithSystem sys (Structured.chatHistory st) ->
     startsWithSystem sys
       (Structured.chatHistory
          (stateOf (Structured.executeCommand w userCommand st)))) /\
  (forall (st : FreeText.State) tools,
     FreeText.isInitialized st = false ->
     FreeText.chatHistory st = [] ->
     connect w = Resolves tt ->
     getAllTools w = Resolves tools ->
     startsWithSystem (plainMessage system (FreeText.systemPrompt tools))
       (FreeText.chatHistory (stateOf (FreeText.executeCommand w userCommand st)))) /\
  (forall (st : Structured.State) tools,
     Structured.isInitialized st = false ->
     Structured.chatHistory st = [] ->
     connect w = Resolves tt ->
     getAllTools w = Resolves tools ->
     startsWithSystem (plainMessage system Prompts.structured)
       (Structured.chatHistory
          (stateOf (Structured.executeCommand w userCommand st)))).
Proof.
  split; [|split; [|split]].
  - intros st sys Hinit Hsys.
    now destruct (FreeTextMore.freetext_executeCommand_settled w _
                    (startsWithSystem_invariant sys) userCommand st
                    (conj Hinit Hsys)) as [[_ H] _].
  - intros st sys Hinit Hsys.
    now destruct (StructuredMore.structured_executeCommand_settled w _
                    (Structured.openAITools st)
                    (startsWithSystem_invariant sys) userCommand st
                    (conj Hinit (conj Hsys eq_refl))) as [[_ [H _]] _].
  - intros st tools Hinit Hempty Hconn Htools. unfold FreeText.executeCommand.
    assert (Hrun : FreeText.initialize w st
                   = (Returned tt,
                      {| FreeText.chatHistory :=
                           [plainMessage system (FreeText.systemPrompt tools)];
                         FreeText.isInitialized := true |},
                      [EvConnect; EvGetAllTools;
                       EvPush (plainMessage system (FreeText.systemPrompt tools))])).
    { unfold FreeText.initialize, FreeText.push, FreeText.pushed.
      unfold bind, gets, emit, await, modify, ret.
      now rewrite Hinit, Hconn, Htools, Hempty. }
    rewrite stateOf_bind. unfold resultOf at 1. rewrite Hrun.
    cbn [fst snd stateOf].
    match goal with
    | |- context [stateOf (?m ?s)] =>
        destruct (FreeTextMore.freetext_afterInitialize_settled w _
                    (startsWithSystem_invariant
                       (plainMessage system (FreeText.systemPrompt tools)))
                    userCommand s) as [[_ H] _]
    end.
    + split; [reflexivity|]. split; [reflexivity|]. now exists [].
    + exact H.
  - intros st tools Hinit Hempty Hconn Htools. unfold Structured.executeCommand.
    rewrite stateOf_bind. unfold resultOf at 1.
    rewrite (StructuredFacts.initialize_fresh w st tools Hinit Hconn Htools).
    rewrite Hempty. cbn [fst snd stateOf app].
    match goal with
    | |- context [stateOf (?m ?s)] =>
        destruct (StructuredMore.structured_afterInitialize_settled w _
                    (map Structured.convertMCPToolToOpenAIFunction tools)
                    (startsWithSystem_invariant
                       (plainMessage system Prompts.structured))
                    userCommand s) as [[_ [H _]] _]
    end.
    + split; [reflexivity|]. split; [|reflexivity].
      split; [reflexivity|]. now exists [].
    + exact H.
Qed.

Lemma command_keeps_system_prompt_first_run :
  startsWithSystem Samples.sys0
    (FreeText.chatHistory
       (stateOf (FreeText.executeCommand MoreScenarios.chatty (js "hi")
                   MoreScenarios.freeTextReady))).
Proof.
  apply (proj1 (command_keeps_system_prompt_first MoreScenarios.chatty (js "hi"))).
  - reflexivity.
  - split; [reflexivity|]. exists [Samples.ok]. reflexivity.
Defined.

(** X5: every request of a command advertises the same tools.  With the
    module initialized they are the tools in [openAITools] when the
    command starts; on the command that sets the module up they are the
    converted tools of the provider, and only those, each with the
    default description or schema where the provider gave none or a
    falsy one. *)
Theorem requests_advertise_the_same_tools (w : World) (userCommand : jsstring)
    (st : Structured.State) :
  (Structured.isInitialized st = true ->
   Forall (eq (Some (Structured.openAITools st)))
     (chatTools (eventsOf (Structured.executeCommand w userCommand st)))) /\
  (forall mcpTools,
     Structured.isInitialized st = false ->
     connect w = Resolves tt ->
     getAllTools w = Resolves mcpTools ->
     Forall (eq (Some (map Structured.convertMCPToolToOpenAIFunction mcpTools)))
       (chatTools (eventsOf (Structured.executeCommand w userCommand st)))).
Proof.
  split.
  - intros Hinit.
    destruct (StructuredMore.structured_executeCommand_settled w (fun _ => True)
                (Structured.openAITools st) trivial_invariant userCommand st
                (conj Hinit (conj I eq_refl))) as [_ Hev].
    now apply afterSetup_chatTools.
  - intros mcpTools Hinit Hconn Htools. unfold Structured.executeCommand.
    rewrite eventsOf_bind. unfold resultOf at 1.
    rewrite (StructuredFacts.initialize_fresh w st mcpTools Hinit Hconn Htools).
    cbn [fst snd eventsOf stateOf].
    match goal with
    | |- context [eventsOf (?m ?s)] =>
        destruct (StructuredMore.structured_afterInitialize_settled w
                    (fun _ => True)
                    (map Structured.convertMCPToolToOpenAIFunction mcpTools)
                    trivial_invariant userCommand s
                    (conj eq_refl (conj I eq_refl))) as [_ Hev]
    end.
    apply afterSetup_chatTools in Hev. unfold eventsOf in Hev. exact Hev.
Qed.

Lemma requests_advertise_the_same_tools_run :
  Forall (eq (Some []))
    (chatTools (eventsOf (Structured.executeCommand Scenarios.navigateThenDone
                            (js "open example.com") MoreScenarios.structuredReady))) /\
  Forall
    (eq (Some
           [ {| tool_name := js "chrome_navigate";
                tool_description := js "Navigate to a URL";
                parameters := JObject [ (js "type", JString (js "object"));
                                        (js "properties", JObject []) ] |};
             {| tool_name := js "chrome_close";
                tool_description := js "No description provided";
                parameters := JObject [ (js "type", JString (js "object"));
                                        (js "properties", JObject []) ] |} ]))
    (chatTools (eventsOf (Structured.executeCommand MoreScenarios.sparse
                            (js "close it") Structured.loaded))).
Proof.
  split.
  - apply (proj1 (requests_advertise_the_same_tools Scenarios.navigateThenDone
                    (js "open example.com") MoreScenarios.structuredReady)).
    reflexivity.
  - apply (proj2 (requests_advertise_the_same_tools MoreScenarios.sparse
                    (js "close it") Structured.loaded)
             [Scenarios.navigate; MoreScenarios.untyped]);
      reflexivity.
Defined.

(** ** Bounds on what a command asks for *)

Section Counting.

Variable count : list Event -> nat.
Hypothesis count_nil : count [] = 0%nat.
Hypothesis count_app : forall a b, count (a ++ b) = (count a + count b)%nat.




Lemma atMost_weaken {S A} (a b : nat) (m : M S A) :
  (a <= b)%nat -> atMost count a m -> atMost count b m.
Proof. intros Hab Hm st. specialize (Hm st). lia. Qed.

End Counting.
















(** ** What a command can throw *)

Lemma failsUpstream_bind {S A B} (from : ExternalError -> Prop)
    (m : M S A) (k : A -> M S B) :
  failsUpstream from m -> (forall a, failsUpstream from (k a)) ->
  failsUpstream from (bind m k).
Proof.
  intros Hm Hk st e. rewrite resultOf_bind.
  destruct (resultOf (m st)) as [a|e'] eqn:Hr.
  - apply Hk.
  - intros [= <-]. now apply (Hm st).
Qed.

Lemma failsUpstream_returns {S A} (from : ExternalError -> Prop) (m : M S A) :
  (forall st, exists a, resultOf (m st) = Returned a) -> failsUpstream from m.
Proof. intros H st e He. destruct (H st) as [a Ha]. congruence. Qed.

Lemma failsUpstream_await {S A} (from : ExternalError -> Prop) (o : Outcome A) :
  (forall x, o = Rejects x -> from x) -> failsUpstream from (@await S A o).
Proof.
  intros Hfrom st e. destruct o as [a|x]; [discriminate|].
  intros [= <-]. exists x. split; [reflexivity|]. now apply Hfrom.
Qed.

Lemma freetext_push_returns (msg : ChatMessage) (st : FreeText.State) :
  exists a, resultOf (FreeText.push msg st) = Returned a.
Proof. now exists tt. Qed.

(** A pass of the free-text loop throws only what its request throws:
    the [catch] takes whatever the directive and the tool throw. *)
Lemma freetext_iterate_failsUpstream (w : World) (l : FreeText.Locals) :
  failsUpstream (chatFailure w) (FreeText.iterate w l).
Proof.
  unfold FreeText.iterate. cbv zeta.
  apply failsUpstream_bind; [apply failsUpstream_returns; now eexists|].
  intros messages.
  apply failsUpstream_bind; [apply failsUpstream_returns; now eexists|]. intros _.
  apply failsUpstream_bind.
  { apply failsUpstream_await. intros x Hx.
    now exists (FreeText.iteration (FreeText.next l)), messages. }
  intros message.
  apply failsUpstream_bind;
    [apply failsUpstream_returns, freetext_push_returns|]. intros _.
  apply failsUpstream_returns. intro st. unfold tryCatch, resultOf, ret.
  destruct (FreeText.interpret w _ _ st) as [[[l'|e] st'] ev]; now eexists.
Qed.

Lemma freetext_agentLoop_failsUpstream (w : World) (fuel : nat) :
  forall l, failsUpstream (chatFailure w) (FreeText.agentLoop w fuel l).
Proof.
  induction fuel as [|fuel IH]; intro l; simpl;
    [apply failsUpstream_returns; now eexists|].
  destruct (negb (FreeText.taskComplete l)
            && (FreeText.iteration l <? FreeText.MAX_ITERATIONS)%nat);
    [|apply failsUpstream_returns; now eexists].
  apply failsUpstream_bind; [apply freetext_iterate_failsUpstream|]. exact IH.
Qed.

(** Setup throws only when it runs, and then what the provider threw. *)
Lemma freetext_initialize_throws (w : World) (st : FreeText.State) (e : Thrown) :
  resultOf (FreeText.initialize w st) = Threw e ->
  exists x, e = Failure x /\ FreeText.isInitialized st = false /\ setupFailure w x.
Proof.
  unfold FreeText.initialize, FreeText.push, setupFailure.
  unfold bind, gets, await; unfold emit, modify, ret, throw.
  destruct (FreeText.isInitialized st); [discriminate|].
  destruct (connect w) as [[]|x1]; cbn [resultOf fst].
  - destruct (getAllTools w) as [tools|x2]; cbn [resultOf fst]; [discriminate|].
    intros [= <-]. exists x2. auto.
  - intros [= <-]. exists x1. auto.
Qed.

(** X7: a command of the free-text variant throws only what setup threw
    (connecting or listing the tools, on a module that was not set up) or
    what a request to the LLM threw.  So when setup and every request
    succeed the command returns an answer, whatever the replies are and
    whether the tools it calls succeed or fail. *)
Theorem freetext_command_fails_only_upstream (w : World) (userCommand : jsstring)
    (st : FreeText.State) :
  (forall e,
     resultOf (FreeText.executeCommand w userCommand st) = Threw e ->
     exists x,
       e = Failure x /\
       ((FreeText.isInitialized st = false /\ setupFailure w x) \/
        chatFailure w x)) /\
  (FreeText.isInitialized st = true \/ canSetUp w ->
   (forall i messages,
      exists reply, createCompletion w i messages None = Resolves reply) ->
   exists answer,
     resultOf (FreeText.executeCommand w userCommand st) = Returned answer).
Proof.
  assert (Hthrows : forall e,
             resultOf (FreeText.executeCommand w userCommand st) = Threw e ->
             exists x,
               e = Failure x /\
               ((FreeText.isInitialized st = false /\ setupFailure w x) \/
                chatFailure w x)).
  { intros e. unfold FreeText.executeCommand. rewrite resultOf_bind.
    destruct (resultOf (FreeText.initialize w st)) as [[]|e0] eqn:Hinit.
    - intros Hrun.
      assert (Hrest : failsUpstream (chatFailure w)
                (bind (FreeText.push (plainMessage user userCommand))
                   (fun _ =>
                      bind FreeText.trimHistoryM
                        (fun _ =>
                           bind (FreeText.agentLoop w FreeText.MAX_ITERATIONS
                                   {| FreeText.iteration := 0;
                                      FreeText.taskComplete := false;
                                      FreeText.finalMessage := JString [] |})
                             (fun l =>
                                if (FreeText.MAX_ITERATIONS <=? FreeText.iteration l)%nat
                                   && negb (FreeText.taskComplete l)
                                then ret (JString cannedMessage)
                                else ret (FreeText.finalMessage l)))))).
      { apply failsUpstream_bind;
          [apply failsUpstream_returns, freetext_push_returns|]. intros _.
        apply failsUpstream_bind; [apply failsUpstream_returns; now eexists|].
        intros _.
        apply failsUpstream_bind; [apply freetext_agentLoop_failsUpstream|].
        intros l. apply failsUpstream_returns. intro st'.
        destruct (_ && _); now eexists. }
      destruct (Hrest _ _ Hrun) as (x & -> & Hx). exists x. auto.
    - intros [= <-].
      destruct (freetext_initialize_throws w st e0 Hinit) as (x & -> & Hst & Hx).
      exists x. auto. }
  split; [exact Hthrows|].
  intros Hready Hreplies.
  destruct (resultOf (FreeText.executeCommand w userCommand st)) as [answer|e]
    eqn:Hrun; [now exists answer|].
  destruct (Hthrows e eq_refl) as (x & _ & [[Hst [Hx|Hx]]|(i & messages & Hx)]).
  - destruct Hready as [Hinit|[Hconn _]]; congruence.
  - destruct Hready as [Hinit|[_ (tools & Htools)]]; congruence.
  - destruct (Hreplies i messages) as [reply Hreply]. congruence.
Qed.

Lemma freetext_command_fails_only_upstream_run :
  (exists answer,
     resultOf (FreeText.executeCommand Scenarios.searchFails (js "find x")
                 FreeText.loaded) = Returned answer) /\
  (exists x,
     Failure MoreScenarios.overloaded = Failure x /\
     ((FreeText.isInitialized FreeText.loaded = false /\
       setupFailure MoreScenarios.llmDown x) \/
      chatFailure MoreScenarios.llmDown x)).
Proof.
  split.
  - apply (proj2 (freetext_command_fails_only_upstream Scenarios.searchFails
                    (js "find x") FreeText.loaded)).
    + right. split; [reflexivity|]. exists []. reflexivity.
    + intros i messages. eexists. reflexivity.
  - apply (proj1 (freetext_command_fails_only_upstream MoreScenarios.llmDown
                    (js "hi") FreeText.loaded)).
    vm_compute. reflexivity.
Defined.

(** X8: when setup fails, the command fails with the provider's error and
    leaves the module as it found it: not initialized, the history
    untouched (the command is not recorded), nothing sent to the LLM. *)
Theorem setup_failure_leaves_no_trace (w : World) (userCommand : jsstring)
    (e : ExternalError) :
  connect w = Rejects e \/ (connect w = Resolves tt /\ getAllTools w = Rejects e) ->
  (forall st : FreeText.State,
     FreeText.isInitialized st = false ->
     resultOf (FreeText.executeCommand w userCommand st) = Threw (Failure e) /\
     stateOf (FreeText.executeCommand w userCommand st) = st /\
     pushedBy (eventsOf (FreeText.executeCommand w userCommand st)) = [] /\
     chatRequests (eventsOf (FreeText.executeCommand w userCommand st)) = 0%nat) /\
  (forall st : Structured.State,
     Structured.isInitialized st = false ->
     resultOf (Structured.executeCommand w userCommand st) = Threw (Failure e) /\
     stateOf (Structured.executeCommand w userCommand st) = st /\
     pushedBy (eventsOf (Structured.executeCommand w userCommand st)) = [] /\
     chatRequests (eventsOf (Structured.executeCommand w userCommand st)) = 0%nat).
Proof.
  intros Hfail. split; intros st Hinit.
  - assert (Hrun : exists ev,
               FreeText.executeCommand w userCommand st = (Threw (Failure e), st, ev) /\
               pushedBy ev = [] /\ chatRequests ev = 0%nat).
    { unfold FreeText.executeCommand, FreeText.initialize.
      unfold bind, gets, await; unfold emit, ret, throw. rewrite Hinit.
      destruct Hfail as [->|[-> ->]]; eexists; (split; [reflexivity|now split]). }
    destruct Hrun as (ev & -> & Hpush & Hchat). now repeat split.
  - assert (Hrun : exists ev,
               Structured.executeCommand w userCommand st = (Threw (Failure e), st, ev) /\
               pushedBy ev = [] /\ chatRequests ev = 0%nat).
    { unfold Structured.executeCommand, Structured.initialize.
      unfold bind, gets, await; unfold emit, ret, throw. rewrite Hinit.
      destruct Hfail as [->|[-> ->]]; eexists; (split; [reflexivity|now split]). }
    destruct Hrun as (ev & -> & Hpush & Hchat). now repeat split.
Qed.

Lemma setup_failure_leaves_no_trace_run :
  (resultOf (FreeText.executeCommand MoreScenarios.unreachable (js "hi") FreeText.loaded)
   = Threw (Failure MoreScenarios.refused) /\
   stateOf (FreeText.executeCommand MoreScenarios.unreachable (js "hi") FreeText.loaded)
   = FreeText.loaded /\
   pushedBy (eventsOf (FreeText.executeCommand MoreScenarios.unreachable (js "hi")
                         FreeText.loaded)) = [] /\
   chatRequests (eventsOf (FreeText.executeCommand MoreScenarios.unreachable (js "hi")
                             FreeText.loaded)) = 0%nat) /\
  (resultOf (Structured.executeCommand MoreScenarios.unreachable (js "hi")
               Structured.loaded)
   = Threw (Failure MoreScenarios.refused) /\
   stateOf (Structured.executeCommand MoreScenarios.unreachable (js "hi")
              Structured.loaded)
   = Structured.loaded /\
   pushedBy (eventsOf (Structured.executeCommand MoreScenarios.unreachable (js "hi")
                         Structured.loaded)) = [] /\
   chatRequests (eventsOf (Structured.executeCommand MoreScenarios.unreachable (js "hi")
                             Structured.loaded)) = 0%nat).
Proof.
  destruct (setup_failure_leaves_no_trace MoreScenarios.unreachable (js "hi")
              MoreScenarios.refused (or_introl eq_refl)) as [Hft Hst].
  split; [exact (Hft FreeText.loaded eq_refl)|exact (Hst Structured.loaded eq_refl)].
Defined.

(** ** A command on an initialized module *)

(** The state in which the loop starts: the user message appended, the
    trimming check done. *)
Lemma freetext_started (w : World) (userCommand : jsstring) (st : FreeText.State) :
  FreeText.isInitialized st = true ->
  FreeText.executeCommand w userCommand st
  = match FreeText.agentLoop w FreeText.MAX_ITERATIONS
            {| FreeText.iteration := 0; FreeText.taskComplete := false;
               FreeText.finalMessage := JString [] |}
            {| FreeText.chatHistory :=
                 trimHistory (FreeText.chatHistory st
                              ++ [plainMessage user userCommand]);
               FreeText.isInitialized := true |} with
    | (Returned l, st', ev) =>
        (Returned (if (FreeText.MAX_ITERATIONS <=? FreeText.iteration l)%nat
                      && negb (FreeText.taskComplete l)
                   then JString cannedMessage else FreeText.finalMessage l),
         st', [EvPush (plainMessage user userCommand); EvTrim] ++ ev)
    | (Threw e, st', ev) =>
        (Threw e, st', [EvPush (plainMessage user userCommand); EvTrim] ++ ev)
    end.
Proof.
  intros Hinit.
  unfold FreeText.executeCommand, FreeText.initialize, FreeText.push,
    FreeText.trimHistoryM, FreeText.pushed.
  unfold bind, gets, modify, emit, ret. rewrite Hinit. cbv beta iota.
  cbn [FreeText.chatHistory FreeText.isInitialized]. rewrite Hinit.
  destruct (FreeText.agentLoop w FreeText.MAX_ITERATIONS _ _)
    as [[[l|e] st'] ev]; [|reflexivity].
  destruct (_ && _); cbn [app]; now rewrite app_nil_r.
Qed.

Lemma structured_started (w : World) (userCommand : jsstring) (st : Structured.State) :
  Structured.isInitialized st = true ->
  Structured.executeCommand w userCommand st
  = match Structured.agentLoop w Structured.MAX_ITERATIONS
            {| Structured.iteration := 0; Structured.finalMessage := [] |}
            {| Structured.chatHistory :=
                 trimHistory (Structured.chatHistory st
                              ++ [plainMessage user userCommand]);
               Structured.isInitialized := true;
               Structured.openAITools := Structured.openAITools st |} with
    | (Returned l, st', ev) =>
        (Returned (if (Structured.MAX_ITERATIONS <=? Structured.iteration l)%nat
                   then orElse (Some (Structured.finalMessage l)) cannedMessage
                   else Structured.finalMessage l),
         st', [EvPush (plainMessage user userCommand); EvTrim] ++ ev)
    | (Threw e, st', ev) =>
        (Threw e, st', [EvPush (plainMessage user userCommand); EvTrim] ++ ev)
    end.
Proof.
  intros Hinit.
  unfold Structured.executeCommand, Structured.initialize, Structured.push,
    Structured.trimHistoryM, Structured.pushed.
  unfold bind, gets, modify, emit, ret. rewrite Hinit. cbv beta iota.
  cbn [Structured.chatHistory Structured.isInitialized Structured.openAITools].
  rewrite Hinit.
  destruct (Structured.agentLoop w Structured.MAX_ITERATIONS _ _)
    as [[[l|e] st'] ev]; [|reflexivity].
  destruct (_ <=? _)%nat; cbn [app]; now rewrite app_nil_r.
Qed.

(** The first pass of the structured loop. *)
Lemma structured_first_pass (w : World) (fuel : nat) (st : Structured.State) :
  Structured.agentLoop w (S fuel)
    {| Structured.iteration := 0; Structured.finalMessage := [] |} st
  = match Structured.iterate w
            {| Structured.iteration := 0; Structured.finalMessage := [] |} st with
    | (Returned (true, l'), st1, ev1) => (Returned l', st1, ev1 ++ [])
    | (Returned (false, l'), st1, ev1) =>
        match Structured.agentLoop w fuel l' st1 with
        | (r, st2, ev2) => (r, st2, ev1 ++ ev2)
        end
    | (Threw e, st1, ev1) => (Threw e, st1, ev1)
    end.
Proof.
  cbn [Structured.agentLoop Structured.iteration].
  change (0 <? Structured.MAX_ITERATIONS)%nat with true. cbv iota.
  unfold bind. destruct (Structured.iterate w _ st) as [[[[[|] l']|e] st1] ev1];
    reflexivity.
Qed.

(** The structured pass when the request is answered. *)
Lemma structured_iterate_eq (w : World) (l : Structured.Locals) (st : Structured.State)
    (choice : Outcome (option AssistantMessage)) :
  createCompletion w (S (Structured.iteration l)) (Structured.chatHistory st)
    (Some (Structured.openAITools st)) = choice ->
  Structured.iterate w l st
  = let asked := EvChat (Structured.chatHistory st)
                   (Some (Structured.openAITools st)) in
    match choice with
    | Rejects e => (Threw (Failure e), st, [asked])
    | Resolves None => (Returned (true, Structured.next l), st, [asked])
    | Resolves (Some message) =>
        let st1 := Structured.pushed (asChatMessage message) st in
        let said := EvPush (asChatMessage message) in
        match am_tool_calls message with
        | _ :: _ =>
            match Structured.runToolCalls w (S (Structured.iteration l)) 0
                    (am_tool_calls message) st1 with
            | (Returned _, st2, ev) =>
                (Returned (false, Structured.next l), st2, asked :: said :: ev ++ [])
            | (Threw e, st2, ev) => (Threw e, st2, asked :: said :: ev)
            end
        | [] =>
            match am_content message with
            | Some (c :: s) =>
                (Returned (true, {| Structured.iteration := S (Structured.iteration l);
                                    Structured.finalMessage := c :: s |}),
                 st1, [asked; said])
            | Some [] | None => (Returned (true, Structured.next l), st1, [asked; said])
            end
        end
    end.
Proof.
  intros <-. unfold Structured.iterate, Structured.push. cbv zeta.
  unfold bind, gets, await; unfold emit, modify, ret, throw.
  change (Structured.iteration (Structured.next l)) with (S (Structured.iteration l)).
  destruct (createCompletion w _ _ _) as [[message|]|e]; try reflexivity.
  destruct (am_tool_calls message) as [|toolCall rest].
  - destruct (am_content message) as [[|c s]|]; reflexivity.
  - destruct (Structured.runToolCalls w _ 0 _ _) as [[[[]|e] st2] ev]; reflexivity.
Qed.

(** X9: when the request to the LLM fails, the command fails with that
    error after a single request, and the history keeps the command: it
    is the history from before with the user message appended and the
    trimming check applied. *)
Theorem llm_failure_keeps_the_command (w : World) (userCommand : jsstring)
    (e : ExternalError) :
  (forall messages tools, createCompletion w 1 messages tools = Rejects e) ->
  (forall st : FreeText.State,
     FreeText.isInitialized st = true ->
     FreeText.executeCommand w userCommand st
     = (Threw (Failure e),
        {| FreeText.chatHistory :=
             trimHistory (FreeText.chatHistory st ++ [plainMessage user userCommand]);
           FreeText.isInitialized := true |},
        [EvPush (plainMessage user userCommand); EvTrim;
         EvChat (trimHistory (FreeText.chatHistory st
                              ++ [plainMessage user userCommand])) None])) /\
  (forall st : Structured.State,
     Structured.isInitialized st = true ->
     Structured.executeCommand w userCommand st
     = (Threw (Failure e),
        {| Structured.chatHistory :=
             trimHistory (Structured.chatHistory st
                          ++ [plainMessage user userCommand]);
           Structured.isInitialized := true;
           Structured.openAITools := Structured.openAITools st |},
        [EvPush (plainMessage user userCommand); EvTrim;
         EvChat (trimHistory (Structured.chatHistory st
                              ++ [plainMessage user userCommand]))
           (Some (Structured.openAITools st))])).
Proof.
  intros Hdown. split; intros st Hinit.
  - rewrite (freetext_started w userCommand st Hinit).
    unfold FreeText.MAX_ITERATIONS at 1.
    rewrite FreeTextFacts.agentLoop_step
      by (reflexivity || (unfold FreeText.MAX_ITERATIONS; simpl; lia)).
    unfold FreeText.iterate. cbv zeta.
    unfold bind, gets, await; unfold emit, throw.
    cbn [FreeText.iteration FreeText.next FreeText.chatHistory].
    now rewrite Hdown.
  - rewrite (structured_started w userCommand st Hinit).
    unfold Structured.MAX_ITERATIONS at 1. rewrite structured_first_pass.
    rewrite (structured_iterate_eq w _ _ _ eq_refl).
    cbn [Structured.iteration Structured.chatHistory Structured.openAITools].
    now rewrite Hdown.
Qed.

Lemma llm_failure_keeps_the_command_run :
  FreeText.executeCommand MoreScenarios.llmDown (js "hi") MoreScenarios.freeTextReady
  = (Threw (Failure MoreScenarios.overloaded),
     {| FreeText.chatHistory :=
          trimHistory (FreeText.chatHistory MoreScenarios.freeTextReady
                       ++ [plainMessage user (js "hi")]);
        FreeText.isInitialized := true |},
     [EvPush (plainMessage user (js "hi")); EvTrim;
      EvChat (trimHistory (FreeText.chatHistory MoreScenarios.freeTextReady
                           ++ [plainMessage user (js "hi")])) None]).
Proof.
  apply (proj1 (llm_failure_keeps_the_command MoreScenarios.llmDown (js "hi")
                  MoreScenarios.overloaded (fun _ _ => eq_refl))).
  reflexivity.
Defined.

(** X10: in the free-text variant, on a module that is set up, a first
    reply whose text is not JSON ends the command: the text, without the
    white space around it, is returned and is the last message of the
    history; one request is sent and no tool is called. *)
Theorem freetext_text_reply_is_the_answer (w : World) (userCommand : jsstring)
    (st : FreeText.State) (message : option AssistantMessage) :
  FreeText.isInitialized st = true ->
  createCompletion w 1
    (trimHistory (FreeText.chatHistory st ++ [plainMessage user userCommand])) None
  = Resolves message ->
  JSON_parse (FreeText.llmOutputOf message) = None ->
  FreeText.executeCommand w userCommand st
  = (Returned (JString (FreeText.llmOutputOf message)),
     {| FreeText.chatHistory :=
          trimHistory (FreeText.chatHistory st ++ [plainMessage user userCommand])
          ++ [plainMessage assistant (FreeText.llmOutputOf message)];
        FreeText.isInitialized := true |},
     [EvPush (plainMessage user userCommand); EvTrim;
      EvChat (trimHistory (FreeText.chatHistory st
                           ++ [plainMessage user userCommand])) None;
      EvPush (plainMessage assistant (FreeText.llmOutputOf message))]).
Proof.
  intros Hinit Hreply Hparse.
  rewrite (freetext_started w userCommand st Hinit).
  unfold FreeText.MAX_ITERATIONS at 1.
  rewrite FreeTextFacts.agentLoop_step
    by (reflexivity || (unfold FreeText.MAX_ITERATIONS; simpl; lia)).
  rewrite (FreeTextFacts.iterate_eq w _ _ message) by exact Hreply.
  cbv zeta. rewrite (FreeTextFacts.interpret_not_json w _ _ _ Hparse).
  rewrite FreeTextFacts.agentLoop_stop by reflexivity.
  reflexivity.
Qed.

Lemma freetext_text_reply_is_the_answer_run :
  resultOf (FreeText.executeCommand MoreScenarios.chatty (js "hi")
              MoreScenarios.freeTextReady)
  = Returned (JString (js "Hello there.")).
Proof.
  rewrite (freetext_text_reply_is_the_answer MoreScenarios.chatty (js "hi")
             MoreScenarios.freeTextReady (assistantText (js "  Hello there.  "))
             eq_refl eq_refl eq_refl).
  reflexivity.
Defined.

(** X11: in the structured variant, on a module that is set up, a first
    reply with a non-empty text and no tool call ends the command: the
    text is returned as it came, the reply is the last message of the
    history; one request is sent and no tool is called. *)
Theorem structured_text_reply_is_the_answer (w : World) (userCommand : jsstring)
    (st : Structured.State) (message : AssistantMessage) (c : N) (s : jsstring) :
  Structured.isInitialized st = true ->
  createCompletion w 1
    (trimHistory (Structured.chatHistory st ++ [plainMessage user userCommand]))
    (Some (Structured.openAITools st))
  = Resolves (Some message) ->
  am_tool_calls message = [] ->
  am_content message = Some (c :: s) ->
  Structured.executeCommand w userCommand st
  = (Returned (c :: s),
     {| Structured.chatHistory :=
          trimHistory (Structured.chatHistory st ++ [plainMessage user userCommand])
          ++ [asChatMessage message];
        Structured.isInitialized := true;
        Structured.openAITools := Structured.openAITools st |},
     [EvPush (plainMessage user userCommand); EvTrim;
      EvChat (trimHistory (Structured.chatHistory st
                           ++ [plainMessage user userCommand]))
        (Some (Structured.openAITools st));
      EvPush (asChatMessage message)]).
Proof.
  intros Hinit Hreply Hcalls Htext.
  rewrite (structured_started w userCommand st Hinit).
  unfold Structured.MAX_ITERATIONS at 1. rewrite structured_first_pass.
  rewrite (structured_iterate_eq w _ _ _ eq_refl).
  cbn [Structured.iteration Structured.chatHistory Structured.openAITools].
  rewrite Hreply. cbv zeta beta iota. rewrite Hcalls, Htext. reflexivity.
Qed.

Lemma structured_text_reply_is_the_answer_run :
  resultOf (Structured.executeCommand MoreScenarios.chatty (js "hi")
              MoreScenarios.structuredReady)
  = Returned (js "  Hello there.  ").
Proof.
  rewrite (structured_text_reply_is_the_answer MoreScenarios.chatty (js "hi")
             MoreScenarios.structuredReady
             {| am_content := Some (js "  Hello there.  "); am_tool_calls := [] |}
             32%N (js " Hello there.  ") eq_refl eq_refl eq_refl eq_refl).
  reflexivity.
Defined.

(** ** The first request of a command *)

Lemma freetext_iterate_asks_first (w : World) (l : FreeText.Locals)
    (st : FreeText.State) :
  exists ev, eventsOf (FreeText.iterate w l st)
             = EvChat (FreeText.chatHistory st) None :: ev.
Proof.
  unfold FreeText.iterate, FreeText.push. cbv zeta.
  unfold bind, gets, await, tryCatch; unfold emit, modify, ret, throw.
  destruct (createCompletion w _ _ _) as [message|e]; cbv beta iota.
  - destruct (FreeText.interpret w _ _ _) as [[[l1|e] st1] ev1];
      eexists; reflexivity.
  - eexists; reflexivity.
Qed.

Lemma structured_iterate_asks_first (w : World) (l : Structured.Locals)
    (st : Structured.State) :
  exists ev, eventsOf (Structured.iterate w l st)
             = EvChat (Structured.chatHistory st)
                 (Some (Structured.openAITools st)) :: ev.
Proof.
  rewrite (structured_iterate_eq w l st _ eq_refl). cbv zeta.
  destruct (createCompletion w _ _ _) as [[message|]|e];
    try (eexists; reflexivity).
  destruct (am_tool_calls message) as [|toolCall rest].
  - destruct (am_content message) as [[|c s]|]; eexists; reflexivity.
  - destruct (Structured.runToolCalls w _ 0 _ _) as [[[[]|e] st2] ev];
      eexists; reflexivity.
Qed.

(** On a module that is set up, the first request carries the history
    with the user message appended, after the trimming check. *)
Lemma freetext_first_events (w : World) (userCommand : jsstring)
    (st : FreeText.State) :
  FreeText.isInitialized st = true ->
  exists later,
    eventsOf (FreeText.executeCommand w userCommand st)
    = [EvPush (plainMessage user userCommand); EvTrim;
       EvChat (trimHistory (FreeText.chatHistory st
                            ++ [plainMessage user userCommand])) None] ++ later.
Proof.
  intros Hinit. rewrite (freetext_started w userCommand st Hinit).
  unfold FreeText.MAX_ITERATIONS at 1.
  rewrite FreeTextFacts.agentLoop_step
    by (reflexivity || (unfold FreeText.MAX_ITERATIONS; simpl; lia)).
  match goal with
  | |- context [FreeText.iterate w ?l ?s] =>
      destruct (freetext_iterate_asks_first w l s) as [ev Hev];
      destruct (FreeText.iterate w l s) as [[[l1|e] st1] ev1]
  end; cbn [eventsOf snd] in Hev; subst ev1.
  - destruct (FreeText.agentLoop w _ l1 st1) as [[[l2|e] st2] ev2];
      eexists; reflexivity.
  - eexists; reflexivity.
Qed.

Lemma structured_first_events (w : World) (userCommand : jsstring)
    (st : Structured.State) :
  Structured.isInitialized st = true ->
  exists later,
    eventsOf (Structured.executeCommand w userCommand st)
    = [EvPush (plainMessage user userCommand); EvTrim;
       EvChat (trimHistory (Structured.chatHistory st
                            ++ [plainMessage user userCommand]))
         (Some (Structured.openAITools st))] ++ later.
Proof.
  intros Hinit. rewrite (structured_started w userCommand st Hinit).
  unfold Structured.MAX_ITERATIONS at 1. rewrite structured_first_pass.
  match goal with
  | |- context [Structured.iterate w ?l ?s] =>
      destruct (structured_iterate_asks_first w l s) as [ev Hev];
      destruct (Structured.iterate w l s) as [[[[[|] l1]|e] st1] ev1]
  end; cbn [eventsOf snd] in Hev; subst ev1; try (eexists; reflexivity).
  destruct (Structured.agentLoop w _ l1 st1) as [[[l2|e] st2] ev2];
    eexists; reflexivity.
Qed.

Lemma freetext_first_request (w : World) (userCommand : jsstring)
    (st : FreeText.State) :
  FreeText.isInitialized st = true ->
  exists later,
    chatMessages (eventsOf (FreeText.executeCommand w userCommand st))
    = trimHistory (FreeText.chatHistory st ++ [plainMessage user userCommand])
      :: later.
Proof.
  intros Hinit.
  destruct (freetext_first_events w userCommand st Hinit) as [later ->].
  eexists; reflexivity.
Qed.

Lemma structured_first_request (w : World) (userCommand : jsstring)
    (st : Structured.State) :
  Structured.isInitialized st = true ->
  exists later,
    chatMessages (eventsOf (Structured.executeCommand w userCommand st))
    = trimHistory (Structured.chatHistory st ++ [plainMessage user userCommand])
      :: later.
Proof.
  intros Hinit.
  destruct (structured_first_events w userCommand st Hinit) as [later ->].
  eexists; reflexivity.
Qed.

(** X12: a command of at least the trigger threshold (640,000 code
    units) never reaches the LLM: on a module that is set up, whose
    history starts with the system message, the trimming check that
    follows the user message leaves the system message alone, and the
    first request carries nothing else. *)
Theorem oversized_command_is_not_sent (w : World) (userCommand : jsstring)
    (sys : ChatMessage) (rest : list ChatMessage) :
  TRIM_THRESHOLD <= jslength userCommand ->
  isSystem sys = true ->
  (forall st : FreeText.State,
     FreeText.isInitialized st = true ->
     FreeText.chatHistory st = sys :: rest ->
     exists later,
       chatMessages (eventsOf (FreeText.executeCommand w userCommand st))
       = [sys] :: later) /\
  (forall st : Structured.State,
     Structured.isInitialized st = true ->
     Structured.chatHistory st = sys :: rest ->
     exists later,
       chatMessages (eventsOf (Structured.executeCommand w userCommand st))
       = [sys] :: later).
Proof.
  intros Hlong Hsys. split; intros st Hinit Hh.
  - destruct (freetext_first_request w userCommand st Hinit) as [later Hfirst].
    exists later. rewrite Hfirst, Hh.
    now rewrite (trimHistory_long_command sys rest userCommand Hsys Hlong).
  - destruct (structured_first_request w userCommand st Hinit) as [later Hfirst].
    exists later. rewrite Hfirst, Hh.
    now rewrite (trimHistory_long_command sys rest userCommand Hsys Hlong).
Qed.

Lemma filler20_oversized : TRIM_THRESHOLD <= jslength (filler 20).
Proof. rewrite filler_length. vm_compute. discriminate. Qed.

Lemma oversized_command_is_not_sent_run :
  exists later,
    chatMessages (eventsOf (FreeText.executeCommand MoreScenarios.chatty (filler 20)
                              MoreScenarios.freeTextReady))
    = [Samples.sys0] :: later.
Proof.
  apply (proj1 (oversized_command_is_not_sent MoreScenarios.chatty (filler 20)
                  Samples.sys0 [Samples.ok] filler20_oversized eq_refl));
    reflexivity.
Defined.

(** ** Starting over *)

Lemma freetext_fresh_command (w : World) (userCommand : jsstring)
    (st : FreeText.State) (tools : list McpTool) :
  FreeText.isInitialized st = false ->
  connect w = Resolves tt ->
  getAllTools w = Resolves tools ->
  FreeText.executeCommand w userCommand st
  = match FreeText.executeCommand w userCommand
            {| FreeText.chatHistory :=
                 FreeText.chatHistory st
                 ++ [plainMessage system (FreeText.systemPrompt tools)];
               FreeText.isInitialized := true |} with
    | (r, st', ev) =>
        (r, st',
         [EvConnect; EvGetAllTools;
          EvPush (plainMessage system (FreeText.systemPrompt tools))] ++ ev)
    end.
Proof.
  intros Hinit Hconn Htools.
  rewrite (freetext_started w userCommand {| FreeText.isInitialized := true |})
    by reflexivity.
  unfold FreeText.executeCommand, FreeText.initialize, FreeText.push,
    FreeText.trimHistoryM, FreeText.pushed.
  unfold bind, gets, modify, emit, await, ret.
  rewrite Hinit, Hconn, Htools. cbv beta iota.
  cbn [FreeText.chatHistory FreeText.isInitialized].
  destruct (FreeText.agentLoop w FreeText.MAX_ITERATIONS _ _)
    as [[[l|e] st'] ev]; [|reflexivity].
  destruct (_ && _); cbn [app]; now rewrite app_nil_r.
Qed.

Lemma structured_fresh_command (w : World) (userCommand : jsstring)
    (st : Structured.State) (tools : list McpTool) :
  Structured.isInitialized st = false ->
  connect w = Resolves tt ->
  getAllTools w = Resolves tools ->
  Structured.executeCommand w userCommand st
  = match Structured.executeCommand w userCommand
            {| Structured.chatHistory :=
                 Structured.chatHistory st
                 ++ [plainMessage system Prompts.structured];
               Structured.isInitialized := true;
               Structured.openAITools :=
                 map Structured.convertMCPToolToOpenAIFunction tools |} with
    | (r, st', ev) =>
        (r, st',
         [EvConnect; EvGetAllTools;
          EvPush (plainMessage system Prompts.structured)] ++ ev)
    end.
Proof.
  intros Hinit Hconn Htools.
  rewrite (structured_started w userCommand {| Structured.isInitialized := true |})
    by reflexivity.
  unfold Structured.executeCommand, Structured.initialize, Structured.push,
    Structured.trimHistoryM, Structured.pushed.
  unfold bind, gets, modify, emit, await, ret.
  rewrite Hinit, Hconn, Htools. cbv beta iota.
  cbn [Structured.chatHistory Structured.isInitialized Structured.openAITools].
  destruct (Structured.agentLoop w Structured.MAX_ITERATIONS _ _)
    as [[[l|e] st'] ev]; [|reflexivity].
  destruct (_ <=? _)%nat; cbn [app]; now rewrite app_nil_r.
Qed.

(** X13: [clearHistory] forgets the conversation and the setup. After it
    [getHistory] returns the empty history, and the next command, when the
    provider can be reached, connects and lists the tools again, and its
    first request carries the new system message and the command only. *)
Theorem clearHistory_starts_over (w : World) (userCommand : jsstring)
    (tools : list McpTool) :
  connect w = Resolves tt ->
  getAllTools w = Resolves tools ->
  (forall st : FreeText.State,
     resultOf (bind FreeText.clearHistory (fun _ => FreeText.getHistory) st)
     = Returned [] /\
     exists later,
       eventsOf (bind FreeText.clearHistory
                   (fun _ => FreeText.executeCommand w userCommand) st)
       = [EvConnect; EvGetAllTools;
          EvPush (plainMessage system (FreeText.systemPrompt tools));
          EvPush (plainMessage user userCommand); EvTrim;
          EvChat (trimHistory [plainMessage system (FreeText.systemPrompt tools);
                               plainMessage user userCommand]) None] ++ later) /\
  (forall st : Structured.State,
     resultOf (bind Structured.clearHistory (fun _ => Structured.getHistory) st)
     = Returned [] /\
     exists later,
       eventsOf (bind Structured.clearHistory
                   (fun _ => Structured.executeCommand w userCommand) st)
       = [EvConnect; EvGetAllTools;
          EvPush (plainMessage system Prompts.structured);
          EvPush (plainMessage user userCommand); EvTrim;
          EvChat (trimHistory [plainMessage system Prompts.structured;
                               plainMessage user userCommand])
            (Some (map Structured.convertMCPToolToOpenAIFunction tools))] ++ later).
Proof.
  intros Hconn Htools. split; intros st; (split; [reflexivity|]).
  - unfold FreeText.clearHistory, bind at 1, modify.
    cbv beta iota. cbn [app].
    rewrite (freetext_fresh_command w userCommand
               {| FreeText.chatHistory := []; FreeText.isInitialized := false |}
               tools eq_refl Hconn Htools).
    match goal with
    | |- context [FreeText.executeCommand w userCommand ?s] =>
        destruct (freetext_first_events w userCommand s eq_refl) as [later Hev];
        destruct (FreeText.executeCommand w userCommand s) as [[r st'] ev]
    end.
    cbn [eventsOf snd] in Hev. subst ev. exists later. reflexivity.
  - unfold Structured.clearHistory, bind at 1, modify.
    cbv beta iota. cbn [app].
    rewrite (structured_fresh_command w userCommand
               {| Structured.chatHistory := []; Structured.isInitialized := false;
                  Structured.openAITools := Structured.openAITools st |}
               tools eq_refl Hconn Htools).
    match goal with
    | |- context [Structured.executeCommand w userCommand ?s] =>
        destruct (structured_first_events w userCommand s eq_refl) as [later Hev];
        destruct (Structured.executeCommand w userCommand s) as [[r st'] ev]
    end.
    cbn [eventsOf snd] in Hev. subst ev. exists later. reflexivity.
Qed.

Lemma clearHistory_starts_over_run :
  resultOf (bind Structured.clearHistory (fun _ => Structured.getHistory)
              MoreScenarios.structuredReady)
  = Returned [].
Proof.
  apply (proj2 (clearHistory_starts_over MoreScenarios.chatty (js "hi") []
                  eq_refl eq_refl) MoreScenarios.structuredReady).
Defined.

(** ** Local functions stay local *)

Lemma structured_push_remoteOnly (msg : ChatMessage) :
  keepsWith (fun _ : Structured.State => True) remoteOnly (Structured.push msg).
Proof.
  unfold Structured.push. apply keepsWith_bind.
  - now apply keepsWith_modify.
  - intros _. now apply keepsWith_emit.
Qed.

Lemma structured_runToolCall_remoteOnly (w : World) (i k : nat)
    (toolCall : ToolCall) :
  keepsWith (fun _ : Structured.State => True) remoteOnly
    (Structured.runToolCall w i k toolCall).
Proof.
  unfold Structured.runToolCall.
  destruct (call_type toolCall); [|apply keepsWith_ret].
  apply keepsWith_bind; [apply keepsWith_orThrow|]. intros functionArgs.
  destruct (Structured.isCustomFunction (fn_name toolCall)) eqn:Hlocal.
  - unfold Structured.executeCustomFunction.
    destruct (jsstring_eqb _ _); [|apply keepsWith_ret].
    apply keepsWith_bind; [apply keepsWith_orThrow|]. intros imageUrl.
    destruct (templateText w imageUrl) as [urlText|];
      [|apply structured_push_remoteOnly].
    apply keepsWith_bind; [now apply keepsWith_emit|]. intros _.
    destruct (describeImage w i k imageUrl); apply structured_push_remoteOnly.
  - apply keepsWith_bind.
    + apply keepsWith_emit. now exists (fn_name toolCall).
    + intros _.
      destruct (callTool w i k _ functionArgs); apply structured_push_remoteOnly.
Qed.

Lemma structured_runToolCalls_remoteOnly (w : World) (i : nat)
    (calls : list ToolCall) :
  forall k, keepsWith (fun _ : Structured.State => True) remoteOnly
              (Structured.runToolCalls w i k calls).
Proof.
  induction calls as [|toolCall rest IH]; intro k; simpl.
  - apply keepsWith_ret.
  - apply keepsWith_bind; [apply structured_runToolCall_remoteOnly|].
    intros _. apply IH.
Qed.

Lemma structured_iterate_remoteOnly (w : World) (l : Structured.Locals) :
  keepsWith (fun _ : Structured.State => True) remoteOnly (Structured.iterate w l).
Proof.
  unfold Structured.iterate. cbv zeta.
  apply keepsWith_bind; [apply keepsWith_gets|]. intros messages.
  apply keepsWith_bind; [apply keepsWith_gets|]. intros tools.
  apply keepsWith_bind; [now apply keepsWith_emit|]. intros _.
  apply keepsWith_bind; [apply keepsWith_await|]. intros [message|];
    [|apply keepsWith_ret].
  apply keepsWith_bind; [apply structured_push_remoteOnly|]. intros _.
  destruct (am_tool_calls message).
  - destruct (am_content message) as [[|c s]|]; apply keepsWith_ret.
  - apply keepsWith_bind; [apply structured_runToolCalls_remoteOnly|]. intros _.
    apply keepsWith_ret.
Qed.

Lemma structured_agentLoop_remoteOnly (w : World) (fuel : nat) :
  forall l, keepsWith (fun _ : Structured.State => True) remoteOnly
              (Structured.agentLoop w fuel l).
Proof.
  induction fuel as [|fuel IH]; intro l; simpl; [apply keepsWith_ret|].
  destruct (Structured.iteration l <? Structured.MAX_ITERATIONS)%nat;
    [|apply keepsWith_ret].
  apply keepsWith_bind; [apply structured_iterate_remoteOnly|].
  intros [[|] l']; [apply keepsWith_ret|apply IH].
Qed.

(** X14: the structured variant never hands a local function to the
    provider: whatever the LLM asks for and whatever state the module is
    in, every invocation delegated during a command names a tool that is
    not a local function; a call to [describe_image] is served locally. *)
Theorem local_functions_are_never_delegated (w : World) (userCommand : jsstring)
    (st : Structured.State) :
  Forall remoteOnly (eventsOf (Structured.executeCommand w userCommand st)).
Proof.
  assert (H : keepsWith (fun _ : Structured.State => True) remoteOnly
                (Structured.executeCommand w userCommand)).
  { unfold Structured.executeCommand.
    apply keepsWith_bind.
    { unfold Structured.initialize.
      apply keepsWith_bind; [apply keepsWith_gets|]. intros [|];
        [apply keepsWith_ret|].
      apply keepsWith_bind; [now apply keepsWith_emit|]. intros _.
      apply keepsWith_bind; [apply keepsWith_await|]. intros _.
      apply keepsWith_bind; [now apply keepsWith_emit|]. intros _.
      apply keepsWith_bind; [apply keepsWith_await|]. intros mcpTools.
      apply keepsWith_bind; [now apply keepsWith_modify|]. intros _.
      apply keepsWith_bind; [apply structured_push_remoteOnly|]. intros _.
      now apply keepsWith_modify. }
    intros _.
    apply keepsWith_bind; [apply structured_push_remoteOnly|]. intros _.
    apply keepsWith_bind.
    { unfold Structured.trimHistoryM.
      apply keepsWith_bind; [now apply keepsWith_emit|]. intros _.
      now apply keepsWith_modify. }
    intros _.
    apply keepsWith_bind; [apply structured_agentLoop_remoteOnly|]. intros l.
    destruct (_ <=? _)%nat; apply keepsWith_ret. }
  exact (proj2 (H st I)).
Qed.

(** ** Tool calls and their results *)

Lemma jsstring_eqb_sym (a b : jsstring) : jsstring_eqb a b = jsstring_eqb b a.
Proof.
  revert b. induction a as [|x a IH]; intros [|y b]; simpl; try reflexivity.
  now rewrite IH, N.eqb_sym.
Qed.

(** The only local function is [describe_image]. *)
Lemma isCustomFunction_describe_image (functionName : jsstring) :
  Structured.isCustomFunction functionName = true ->
  jsstring_eqb functionName (js "describe_image") = true.
Proof.
  unfold Structured.isCustomFunction, Structured.customFunctions.
  cbn [existsb tool_name]. rewrite orb_false_r, jsstring_eqb_sym. auto.
Qed.

Lemma answeredIds_app (a b : list Event) :
  answeredIds (a ++ b) = answeredIds a ++ answeredIds b.
Proof. unfold answeredIds. now rewrite pushedBy_app, map_app. Qed.

Lemma functionCallIds_app (a b : list ToolCall) :
  functionCallIds (a ++ b) = functionCallIds a ++ functionCallIds b.
Proof. unfold functionCallIds. now rewrite filter_app, map_app. Qed.

(** A call that can be handed on is answered once if it is a function
    call, and not at all otherwise. *)
Lemma runToolCall_answers (w : World) (i k : nat) (toolCall : ToolCall)
    (st : Structured.State) :
  callCanRun toolCall = true ->
  exists st' ev,
    Structured.runToolCall w i k toolCall st = (Returned tt, st', ev) /\
    answeredIds ev = functionCallIds [toolCall] /\
    Forall (fun msg => isToolMessage msg = true) (pushedBy ev).
Proof.
  unfold callCanRun, Structured.runToolCall, functionCallIds, isFunctionCall.
  cbn [filter].
  destruct (call_type toolCall);
    [|intros _; eexists; eexists; repeat split; constructor].
  cbn [map].
  destruct (JSON_parse (fn_arguments toolCall)) as [functionArgs|]; [|discriminate].
  intros Hcan. unfold bind at 1, orThrow, ret. cbv beta iota.
  destruct (Structured.isCustomFunction (fn_name toolCall)) eqn:Hlocal.
  - assert (Hargs : exists imageUrl,
               getProperty functionArgs (js "imageUrl") = Some imageUrl).
    { destruct functionArgs; simpl; try discriminate; eauto. }
    destruct Hargs as (imageUrl & Hurl).
    unfold Structured.executeCustomFunction.
    rewrite (isCustomFunction_describe_image _ Hlocal).
    unfold bind, orThrow, ret, emit. rewrite Hurl. cbv beta iota.
    destruct (templateText w imageUrl) as [urlText|];
      [destruct (describeImage w i k imageUrl)|];
      unfold Structured.push, bind, modify, emit;
      eexists; eexists; (split; [reflexivity|]); split;
      try reflexivity; repeat constructor.
  - unfold bind, emit. cbv beta iota.
    destruct (callTool w i k _ functionArgs);
      unfold Structured.push, bind, modify, emit;
      eexists; eexists; (split; [reflexivity|]); split;
      try reflexivity; repeat constructor.
Qed.

(** An image address that cannot be written as a string: the line that
    logs it throws inside the [try], nothing is sent to the vision model
    and the error is stored as the result. *)
Lemma runToolCall_unprintable_image (w : World) (i k : nat) (toolCall : ToolCall)
    (st : Structured.State) (functionArgs : json) (imageUrl : option json) :
  call_type toolCall = tc_function ->
  JSON_parse (fn_arguments toolCall) = Some functionArgs ->
  Structured.isCustomFunction (fn_name toolCall) = true ->
  getProperty functionArgs (js "imageUrl") = Some imageUrl ->
  templateText w imageUrl = None ->
  Structured.runToolCall w i k toolCall st
  = (Returned tt,
     Structured.pushed
       (toolMessage (call_id toolCall)
          (JSON_stringify w (Structured.errorPayload (conversionError w)) 0)) st,
     [EvPush (toolMessage (call_id toolCall)
                (JSON_stringify w (Structured.errorPayload (conversionError w)) 0))]).
Proof.
  intros Hty Hparse Hlocal Hurl Htext. unfold Structured.runToolCall.
  rewrite Hty. unfold bind at 1, orThrow, ret. rewrite Hparse. cbv beta iota.
  rewrite Hlocal. unfold Structured.executeCustomFunction.
  rewrite (isCustomFunction_describe_image _ Hlocal).
  unfold bind at 1, orThrow, ret. rewrite Hurl. cbv beta iota.
  rewrite Htext. reflexivity.
Qed.

Lemma runToolCalls_answers (w : World) (i : nat) (calls : list ToolCall) :
  forall k st,
    forallb callCanRun calls = true ->
    exists st' ev,
      Structured.runToolCalls w i k calls st = (Returned tt, st', ev) /\
      answeredIds ev = functionCallIds calls /\
      Forall (fun msg => isToolMessage msg = true) (pushedBy ev).
Proof.
  induction calls as [|toolCall rest IH]; intros k st Hcan; simpl.
  - eexists; eexists; repeat split; constructor.
  - simpl in Hcan. apply andb_true_iff in Hcan as [Hone Hrest].
    destruct (runToolCall_answers w i k toolCall st Hone)
      as (st1 & ev1 & Hrun & Hids & Htool).
    destruct (IH (S k) st1 Hrest) as (st2 & ev2 & Hrun2 & Hids2 & Htool2).
    unfold bind. rewrite Hrun, Hrun2. eexists; eexists.
    split; [reflexivity|]. split.
    + rewrite answeredIds_app, Hids, Hids2.
      change (toolCall :: rest) with ([toolCall] ++ rest).
      now rewrite functionCallIds_app.
    + rewrite pushedBy_app. apply Forall_app. now split.
Qed.

(** A call that cannot be handed on throws before anything is appended
    or delegated. *)
Lemma runToolCall_cannot_run (w : World) (i k : nat) (toolCall : ToolCall)
    (st : Structured.State) :
  callCanRun toolCall = false ->
  exists e,
    Structured.runToolCall w i k toolCall st = (Threw e, st, []) /\
    (e = SyntaxError \/ e = TypeError).
Proof.
  unfold callCanRun, Structured.runToolCall.
  destruct (call_type toolCall); [|discriminate].
  destruct (JSON_parse (fn_arguments toolCall)) as [functionArgs|].
  - intros Hcan. unfold bind at 1, orThrow, ret. cbv beta iota.
    destruct functionArgs; try discriminate.
    destruct (Structured.isCustomFunction (fn_name toolCall)) eqn:Hlocal;
      [|discriminate].
    unfold Structured.executeCustomFunction.
    rewrite (isCustomFunction_describe_image _ Hlocal).
    exists TypeError. split; [reflexivity|now right].
  - intros _. exists SyntaxError. split; [reflexivity|now left].
Qed.

Lemma runToolCalls_stop (w : World) (i : nat) (good : list ToolCall)
    (bad : ToolCall) (rest : list ToolCall) :
  forall k st,
    forallb callCanRun good = true ->
    callCanRun bad = false ->
    exists e st' ev,
      Structured.runToolCalls w i k (good ++ bad :: rest) st = (Threw e, st', ev) /\
      (e = SyntaxError \/ e = TypeError) /\
      answeredIds ev = functionCallIds good.
Proof.
  induction good as [|toolCall good IH]; intros k st Hgood Hbad.
  - destruct (runToolCall_cannot_run w i k bad st Hbad) as (e & Hrun & He).
    exists e, st, []. cbn [app Structured.runToolCalls]. unfold bind.
    rewrite Hrun. now repeat split.
  - simpl in Hgood. apply andb_true_iff in Hgood as [Hone Hgood].
    destruct (runToolCall_answers w i k toolCall st Hone)
      as (st1 & ev1 & Hrun & Hids & _).
    destruct (IH (S k) st1 Hgood Hbad) as (e & st2 & ev2 & Hrun2 & He & Hids2).
    exists e, st2, (ev1 ++ ev2).
    cbn [app Structured.runToolCalls]. unfold bind. rewrite Hrun, Hrun2.
    split; [reflexivity|]. split; [exact He|].
    rewrite answeredIds_app, Hids, Hids2.
    change (toolCall :: good) with ([toolCall] ++ good).
    now rewrite functionCallIds_app.
Qed.

(** X15: when every tool call of a reply can be handed on (it is not a
    function call; or it is one whose arguments are JSON, and not the
    JSON text null if the function is [describe_image]), the loop appends
    exactly one tool-result message for each function call, in the order
    of the calls and keyed by their ids, whether the call succeeded or
    failed (a provider or vision request that fails, an image address
    that cannot be written as a string); a call of another type gets no
    result. *)
Theorem every_function_call_is_answered (w : World) (i k : nat)
    (calls : list ToolCall) (st : Structured.State) :
  forallb callCanRun calls = true ->
  resultOf (Structured.runToolCalls w i k calls st) = Returned tt /\
  answeredIds (eventsOf (Structured.runToolCalls w i k calls st))
  = functionCallIds calls /\
  Forall (fun msg => isToolMessage msg = true)
    (pushedBy (eventsOf (Structured.runToolCalls w i k calls st))).
Proof.
  intros Hcan.
  destruct (runToolCalls_answers w i calls k st Hcan)
    as (st' & ev & -> & Hids & Htool).
  now repeat split.
Qed.

Lemma every_function_call_is_answered_run :
  answeredIds (eventsOf (Structured.runToolCalls MoreScenarios.brokenArguments 1 0
                           [Scenarios.callNavigate; MoreScenarios.callDescribe;
                            MoreScenarios.callDescribeOdd]
                           MoreScenarios.structuredReady))
  = [Some (js "call_1"); Some (js "call_2"); Some (js "call_4")].
Proof.
  apply (every_function_call_is_answered MoreScenarios.brokenArguments 1 0
           [Scenarios.callNavigate; MoreScenarios.callDescribe;
            MoreScenarios.callDescribeOdd]
           MoreScenarios.structuredReady).
  vm_compute. reflexivity.
Defined.

(** X16: in the structured variant, a tool call whose arguments are not
    JSON (or are the JSON text null for a local function) aborts the
    command: on a module that is set up, when the first reply lists such
    a call, the command throws a SyntaxError or a TypeError after one
    request, and the history is left with the assistant message and the
    results of the function calls listed before that call only. *)
Theorem unrunnable_call_aborts_the_command (w : World) (userCommand : jsstring)
    (st : Structured.State) (message : AssistantMessage)
    (good : list ToolCall) (bad : ToolCall) (rest : list ToolCall) :
  Structured.isInitialized st = true ->
  createCompletion w 1
    (trimHistory (Structured.chatHistory st ++ [plainMessage user userCommand]))
    (Some (Structured.openAITools st))
  = Resolves (Some message) ->
  am_tool_calls message = good ++ bad :: rest ->
  forallb callCanRun good = true ->
  callCanRun bad = false ->
  exists e st' ev,
    Structured.executeCommand w userCommand st = (Threw e, st', ev) /\
    (e = SyntaxError \/ e = TypeError) /\
    chatRequests ev = 1%nat /\
    answeredIds ev = [None; None] ++ functionCallIds good.
Proof.
  intros Hinit Hreply Hcalls Hgood Hbad.
  rewrite (structured_started w userCommand st Hinit).
  unfold Structured.MAX_ITERATIONS at 1. rewrite structured_first_pass.
  rewrite (structured_iterate_eq w _ _ _ eq_refl).
  cbn [Structured.iteration Structured.chatHistory Structured.openAITools].
  rewrite Hreply. cbv zeta beta iota. rewrite Hcalls.
  match goal with
  | |- context [Structured.runToolCalls w 1 0 _ ?s] =>
      destruct (runToolCalls_stop w 1 good bad rest 0 s Hgood Hbad)
        as (e & st' & ev & Hrun & He & Hids)
  end.
  destruct (good ++ bad :: rest) as [|toolCall calls] eqn:Hlist;
    [now destruct good|].
  rewrite Hrun. exists e, st'. eexists. split; [reflexivity|].
  split; [exact He|]. split.
  - pose proof (StructuredFacts.unasked_runToolCalls w 1 (toolCall :: calls) 0
                  (Structured.pushed (asChatMessage message)
                     {| Structured.chatHistory :=
                          trimHistory (Structured.chatHistory st
                                       ++ [plainMessage user userCommand]);
                        Structured.isInitialized := true;
                        Structured.openAITools := Structured.openAITools st |}))
      as Hquiet.
    rewrite Hrun in Hquiet. cbn [eventsOf snd] in Hquiet.
    cbn [app]. unfold chatRequests in *. cbn [filter isChat List.length].
    now rewrite Hquiet.
  - cbn [app]. unfold answeredIds in *. cbn [pushedBy map]. now rewrite Hids.
Qed.

Lemma unrunnable_call_aborts_the_command_run :
  exists e st' ev,
    Structured.executeCommand MoreScenarios.brokenArguments (js "open example.com")
      MoreScenarios.structuredReady = (Threw e, st', ev) /\
    (e = SyntaxError \/ e = TypeError) /\
    chatRequests ev = 1%nat /\
    answeredIds ev = [None; None] ++ functionCallIds [Scenarios.callNavigate].
Proof.
  apply (unrunnable_call_aborts_the_command MoreScenarios.brokenArguments
           (js "open example.com") MoreScenarios.structuredReady
           {| am_content := None;
              am_tool_calls := [Scenarios.callNavigate; MoreScenarios.callBroken;
                                MoreScenarios.callDescribe] |}
           [Scenarios.callNavigate] MoreScenarios.callBroken
           [MoreScenarios.callDescribe]);
    vm_compute; reflexivity.
Defined.

(** ** What is stored of a tool result *)

(** Every code unit of [replaceFrom pat rep skip s] comes from [s] or
    from [rep]. *)
Lemma replaceFrom_units (pat rep : jsstring) (c : N) :
  forall (s : jsstring) (skip : nat),
    In c (replaceFrom pat rep skip s) -> In c s \/ In c rep.
Proof.
  induction s as [|x s IH]; intros skip; simpl; [tauto|].
  destruct skip as [|skip].
  - match goal with |- context [if ?b then _ else _] => destruct b end.
    + rewrite in_app_iff. intros [H|H]; [now right|].
      destruct (IH _ H); auto.
    + simpl. intros [H|H]; [auto|]. destruct (IH _ H); auto.
  - intros H. destruct (IH _ H); auto.
Qed.

Lemma replaceAll_strips (c : N) (s : jsstring) : ~ In c (replaceAll [c] [] s).
Proof.
  unfold replaceAll. induction s as [|x s IH]; [simpl; tauto|].
  cbn [replaceFrom startsWith List.length Nat.pred app].
  destruct (c =? x)%N eqn:Hx; cbn [andb].
  - destruct s; exact IH.
  - assert (Hs : startsWith [] s = true) by now destruct s.
    rewrite ?Hs. destruct s; cbn [andb]; simpl; intros [H|H];
      try (apply N.eqb_neq in Hx; congruence); try tauto.
Qed.

(** X17: whatever the provider returns for a delegated call, the text
    stored as its result in the structured variant contains no backslash:
    every backslash of the serialized result is removed, those of JSON
    escapes included. *)
Theorem stored_result_has_no_backslash (w : World) (i k : nat)
    (toolCall : ToolCall) (st : Structured.State) (functionArgs mcpResult : json) :
  call_type toolCall = tc_function ->
  JSON_parse (fn_arguments toolCall) = Some functionArgs ->
  Structured.isCustomFunction (fn_name toolCall) = false ->
  callTool w i k (JString (fn_name toolCall)) functionArgs = Resolves mcpResult ->
  exists text,
    Structured.runToolCall w i k toolCall st
    = (Returned tt,
       Structured.pushed (toolMessage (call_id toolCall) text) st,
       [EvCallTool (JString (fn_name toolCall)) functionArgs;
        EvPush (toolMessage (call_id toolCall) text)]) /\
    ~ In backslash text.
Proof.
  intros Hty Hparse Hlocal Hcall.
  exists (replaceAll (js "&quot;") [34%N]
            (replaceAll [backslash] [] (JSON_stringify w mcpResult 2))).
  split.
  - unfold Structured.runToolCall. rewrite Hty.
    unfold bind at 1, orThrow, ret. rewrite Hparse. cbv beta iota.
    rewrite Hlocal. unfold bind at 1, emit. cbv beta iota. rewrite Hcall.
    reflexivity.
  - intros Hin. apply replaceFrom_units in Hin as [Hin|Hin].
    + now apply replaceAll_strips in Hin.
    + simpl in Hin. destruct Hin as [Hin|[]]. discriminate Hin.
Qed.

Lemma stored_result_has_no_backslash_run :
  exists text,
    Structured.runToolCall Scenarios.navigateThenDone 1 0 Scenarios.callNavigate
      MoreScenarios.structuredReady
    = (Returned tt,
       Structured.pushed (toolMessage (js "call_1") text)
         MoreScenarios.structuredReady,
       [EvCallTool (JString (js "chrome_navigate"))
          (JObject [(js "url", JString (js "https://example.com"))]);
        EvPush (toolMessage (js "call_1") text)]) /\
    ~ In backslash text.
Proof.
  apply (stored_result_has_no_backslash Scenarios.navigateThenDone 1 0
           Scenarios.callNavigate MoreScenarios.structuredReady
           (JObject [(js "url", JString (js "https://example.com"))])
           (JObject []));
    vm_compute; reflexivity.
Defined.

(** ** The structured history grows within a command *)

Lemma appendsOnly_bind {A B} (m : M Structured.State A)
    (k : A -> M Structured.State B) :
  appendsOnly m -> (forall a, appendsOnly (k a)) -> appendsOnly (bind m k).
Proof.
  intros Hm Hk st. rewrite stateOf_bind, eventsOf_bind. specialize (Hm st).
  destruct (resultOf (m st)) as [a|e].
  - rewrite Hk, Hm, pushedBy_app. now rewrite app_assoc.
  - now rewrite app_nil_r.
Qed.

Lemma appendsOnly_still {A} (m : M Structured.State A) :
  (forall st, stateOf (m st) = st /\ pushedBy (eventsOf (m st)) = []) ->
  appendsOnly m.
Proof. intros H st. destruct (H st) as [-> ->]. now rewrite app_nil_r. Qed.

Lemma appendsOnly_push (msg : ChatMessage) : appendsOnly (Structured.push msg).
Proof. intro st. reflexivity. Qed.

Ltac appends_step :=
  first
    [ apply appendsOnly_push
    | apply appendsOnly_bind; [|intro]
    | apply appendsOnly_still; intro; split; reflexivity ].

Lemma appendsOnly_runToolCall (w : World) (i k : nat) (toolCall : ToolCall) :
  appendsOnly (Structured.runToolCall w i k toolCall).
Proof.
  unfold Structured.runToolCall.
  destruct (call_type toolCall); [|appends_step].
  apply appendsOnly_bind;
    [apply appendsOnly_still; intro; now destruct (JSON_parse _)|].
  intros functionArgs.
  destruct (Structured.isCustomFunction (fn_name toolCall)).
  - unfold Structured.executeCustomFunction.
    destruct (jsstring_eqb _ _); [|appends_step].
    apply appendsOnly_bind;
      [apply appendsOnly_still; intro; now destruct (getProperty _ _)|].
    intros imageUrl.
    destruct (templateText w imageUrl) as [urlText|]; [|apply appendsOnly_push].
    apply appendsOnly_bind; [appends_step|]. intros _.
    destruct (describeImage w i k imageUrl); apply appendsOnly_push.
  - apply appendsOnly_bind; [appends_step|]. intros _.
    destruct (callTool w i k _ functionArgs); apply appendsOnly_push.
Qed.

Lemma appendsOnly_runToolCalls (w : World) (i : nat) (calls : list ToolCall) :
  forall k, appendsOnly (Structured.runToolCalls w i k calls).
Proof.
  induction calls as [|toolCall rest IH]; intro k; simpl.
  - appends_step.
  - apply appendsOnly_bind; [apply appendsOnly_runToolCall|]. intros _. apply IH.
Qed.

Lemma appendsOnly_iterate (w : World) (l : Structured.Locals) :
  appendsOnly (Structured.iterate w l).
Proof.
  unfold Structured.iterate. cbv zeta.
  apply appendsOnly_bind; [appends_step|]. intros messages.
  apply appendsOnly_bind; [appends_step|]. intros tools.
  apply appendsOnly_bind; [appends_step|]. intros _.
  apply appendsOnly_bind;
    [apply appendsOnly_still; intro; now destruct (createCompletion _ _ _ _)|].
  intros [message|]; [|appends_step].
  apply appendsOnly_bind; [apply appendsOnly_push|]. intros _.
  destruct (am_tool_calls message).
  - destruct (am_content message) as [[|c s]|]; appends_step.
  - apply appendsOnly_bind; [apply appendsOnly_runToolCalls|]. intros _.
    appends_step.
Qed.

Lemma appendsOnly_agentLoop (w : World) (fuel : nat) :
  forall l, appendsOnly (Structured.agentLoop w fuel l).
Proof.
  induction fuel as [|fuel IH]; intro l; simpl; [appends_step|].
  destruct (Structured.iteration l <? Structured.MAX_ITERATIONS)%nat;
    [|appends_step].
  apply appendsOnly_bind; [apply appendsOnly_iterate|].
  intros [[|] l']; [appends_step|apply IH].
Qed.

(** X18: in the structured variant nothing leaves the history once the
    loop of a command has started: on a module that is set up, the
    history after the command, whether it returned or threw, is the
    history from before with the user message, trimmed once, followed by
    every message appended since, in order. *)
Theorem structured_history_only_grows (w : World) (userCommand : jsstring)
    (st : Structured.State) :
  Structured.isInitialized st = true ->
  exists later,
    pushedBy (eventsOf (Structured.executeCommand w userCommand st))
    = plainMessage user userCommand :: later /\
    Structured.chatHistory (stateOf (Structured.executeCommand w userCommand st))
    = trimHistory (Structured.chatHistory st ++ [plainMessage user userCommand])
      ++ later.
Proof.
  intros Hinit. rewrite (structured_started w userCommand st Hinit).
  match goal with
  | |- context [Structured.agentLoop w ?fuel ?l ?s] =>
      pose proof (appendsOnly_agentLoop w fuel l s) as Hgrow;
      destruct (Structured.agentLoop w fuel l s) as [[[l1|e] st1] ev1]
  end; cbn [stateOf eventsOf fst snd Structured.chatHistory] in *;
    exists (pushedBy ev1); split; try reflexivity; exact Hgrow.
Qed.

Lemma structured_history_only_grows_run :
  exists later,
    pushedBy (eventsOf (Structured.executeCommand Scenarios.navigateThenDone
                          (js "open example.com") MoreScenarios.structuredReady))
    = plainMessage user (js "open example.com") :: later /\
    Structured.chatHistory
      (stateOf (Structured.executeCommand Scenarios.navigateThenDone
                  (js "open example.com") MoreScenarios.structuredReady))
    = trimHistory (Structured.chatHistory MoreScenarios.structuredReady
                   ++ [plainMessage user (js "open example.com")])
      ++ later.
Proof.
  apply (structured_history_only_grows Scenarios.navigateThenDone
           (js "open example.com") MoreScenarios.structuredReady).
  reflexivity.
Defined.

(** ** The tools in the free-text system prompt *)

Lemma join_holds_each (sep x : jsstring) (parts : list jsstring) :
  In x parts -> exists before after, join sep parts = before ++ x ++ after.
Proof.
  induction parts as [|p rest IH]; [intros []|].
  intros [->|Hin].
  - exists []. destruct rest as [|q rest].
    + exists []. simpl. now rewrite app_nil_r.
    + exists (sep ++ join sep (q :: rest)). reflexivity.
  - destruct (IH Hin) as (before & after & Hjoin).
    destruct rest as [|q rest]; [destruct Hin|].
    exists (p ++ sep ++ before), after.
    change (join sep (p :: q :: rest)) with (p ++ sep ++ join sep (q :: rest)).
    rewrite Hjoin. now rewrite <- !app_assoc.
Qed.

(** X19: the command that sets the free-text module up tells the LLM
    about every tool the provider lists: the system message appended
    first contains, for each tool, the line made of its name and its
    description (or the words No description when it has none or an
    empty one), and the user message follows it. *)
Theorem system_prompt_lists_every_tool (w : World) (userCommand : jsstring)
    (st : FreeText.State) (tools : list McpTool) (t : McpTool) :
  FreeText.isInitialized st = false ->
  connect w = Resolves tt ->
  getAllTools w = Resolves tools ->
  In t tools ->
  exists before after later,
    pushedBy (eventsOf (FreeText.executeCommand w userCommand st))
    = plainMessage system (before ++ FreeText.toolDescription t ++ after)
      :: plainMessage user userCommand :: later.
Proof.
  intros Hinit Hconn Htools Hin.
  destruct (join_holds_each [10%N] (FreeText.toolDescription t)
              (map FreeText.toolDescription tools))
    as (before & after & Hjoin); [now apply in_map|].
  rewrite (freetext_fresh_command w userCommand st tools Hinit Hconn Htools).
  match goal with
  | |- context [FreeText.executeCommand w userCommand ?s] =>
      destruct (freetext_first_events w userCommand s eq_refl) as [later Hev];
      destruct (FreeText.executeCommand w userCommand s) as [[r st'] ev]
  end.
  cbn [eventsOf snd] in Hev. subst ev.
  exists (Prompts.freeTextHead ++ before), (after ++ Prompts.freeTextTail),
    (pushedBy later).
  cbn [eventsOf snd app pushedBy]. unfold FreeText.systemPrompt.
  rewrite Hjoin. now rewrite <- !app_assoc.
Qed.

Lemma system_prompt_lists_every_tool_run :
  exists before after later,
    pushedBy (eventsOf (FreeText.executeCommand Scenarios.navigateThenDone
                          (js "open example.com") FreeText.loaded))
    = plainMessage system
        (before ++ js "- chrome_navigate: Navigate to a URL" ++ after)
      :: plainMessage user (js "open example.com") :: later.
Proof.
  apply (system_prompt_lists_every_tool Scenarios.navigateThenDone
           (js "open example.com") FreeText.loaded [Scenarios.navigate]
           Scenarios.navigate); try reflexivity.
  now left.
Defined.
